(** * node-cbor: the codec core of [lib/cbor.js]

    A shallow embedding of the generator ([pack]) and of the parser
    ([unpack]) of [lib/cbor.js], and the properties of its specification
    that were checked against it.

    Conventions of the embedding.
    - A JavaScript number is a binary64 double.  Doubles with an integral
      value are carried as [Z]; the others as primitive binary64 floats
      (type [number] below).
    - An octet is a [Z] in [0, 255]; a [Buffer] is a [list Z].
    - A string is the sequence of its UTF-8 octets ([String.string]).
    - The generator mutates the [BufferStream] it is given: a computation
      takes the buffer and returns its outcome with the buffer it leaves.
    - The parser is written in continuation-passing style over
      [bs.wait(n, cb)]; over a buffer whose bytes are all present every
      continuation is called synchronously, so a parsing function returns
      what its callback receives, with the bytes that are left. *)

From Stdlib Require Import ZArith Zbitwise Lia List String Ascii Bool.
From Stdlib Require Import DecimalString.
From Stdlib Require Import PrimFloat FloatOps SpecFloat Uint63.
From Stdlib Require Import FloatAxioms FloatLemmas.
From stdpp Require Import gmap.
Import ListNotations.

Local Open Scope Z_scope.

Set Warnings "-register-all".

(* ================================================================== *)
(** * JavaScript integers and bitwise operators *)
(* ================================================================== *)

(** ECMAScript [ToInt32] on an integral value. *)
Definition to_int32 (z : Z) : Z :=
  let m := z mod 2^32 in
  if m <? 2^31 then m else m - 2^32.

(** [a | b], [a & b], [a << n], [a >> n] on integral operands. *)
Definition js_or (a b : Z) : Z := Z.lor (to_int32 a) (to_int32 b).
Definition js_and (a b : Z) : Z := Z.land (to_int32 a) (to_int32 b).
Definition js_shl (a n : Z) : Z := to_int32 (Z.shiftl (to_int32 a) (n mod 32)).
Definition js_shr (a n : Z) : Z := Z.shiftr (to_int32 a) (n mod 32).

(** Rounding of an integer to the nearest double (ties to even): what an
    arithmetic operation whose exact result is the integer [z] yields. *)
Definition round53 (z : Z) : Z :=
  let a := Z.abs z in
  if a <? 2^53 then z
  else
    let k := Z.log2 a - 52 in
    let q := a / 2^k in
    let r := a mod 2^k in
    let h := 2^(k-1) in
    let q' := if r <? h then q
              else if h <? r then q + 1
              else if Z.even q then q else q + 1 in
    Z.sgn z * (q' * 2^k).

(* ================================================================== *)
(** * JavaScript numbers *)
(* ================================================================== *)

(** A double.  [Int z] is the double whose value is the integer [z] (which
    is then representable); [NegZero] is [-0]; [Frac f] is the double [f],
    and stands for the doubles that are none of these: those with a
    fractional part, [NaN], [Infinity] and [-Infinity].  The operations
    take their operands through [norm], which gives an integral [f] its
    integer. *)
Inductive number : Type :=
  | Int (z : Z)
  | NegZero
  | Frac (f : float).

Definition float_of_Z (z : Z) : float :=
  let a := Z.abs z in
  let k := Z.max 0 (Z.log2 a - 52) in
  let m := Z.ldexp (PrimFloat.of_uint63 (Uint63.of_Z (a / 2^k))) k in
  if z <? 0 then PrimFloat.opp m else m.

Definition to_float (n : number) : float :=
  match n with
  | Int z => float_of_Z z
  | NegZero => PrimFloat.neg_zero
  | Frac f => f
  end.

(** The [number] that stands for a double. *)
Definition number_of_float (f : float) : number :=
  match Prim2SF f with
  | S754_zero false => Int 0
  | S754_zero true => NegZero
  | S754_finite s m e =>
      let sg := if s then -1 else 1 in
      if 0 <=? e then Int (sg * (Zpos m * 2^e))
      else if Zpos m mod 2^(-e) =? 0 then Int (sg * (Zpos m / 2^(-e)))
      else Frac f
  | _ => Frac f
  end.

Definition norm (n : number) : number :=
  match n with
  | Frac f => number_of_float f
  | _ => n
  end.

(** [ToInt32(n)], the value of [n|0]. *)
Definition ToInt32 (n : number) : Z :=
  match norm n with
  | Int z => to_int32 z
  | NegZero => 0
  | Frac f =>
      match Prim2SF f with
      | S754_finite s m e =>
          let a := if 0 <=? e then Zpos m * 2^e else Zpos m / 2^(-e) in
          to_int32 (if s then - a else a)
      | _ => 0
      end
  end.

Definition isNaN (n : number) : bool :=
  match n with
  | Frac f => PrimFloat.is_nan f
  | _ => false
  end.

(** [a === b] on numbers.  What [norm] leaves a [Frac] is not integral: it
    differs from every integer and from [-0]. *)
Definition strict_eq (a b : number) : bool :=
  match norm a, norm b with
  | Int x, Int y => x =? y
  | Int x, NegZero | NegZero, Int x => x =? 0
  | NegZero, NegZero => true
  | Frac f, Frac g => PrimFloat.eqb f g
  | _, _ => false
  end.

(** [a < b] on numbers. *)
Definition number_ltb (a b : number) : bool :=
  match norm a, norm b with
  | Int x, Int y => x <? y
  | Int x, NegZero => x <? 0
  | NegZero, Int y => 0 <? y
  | NegZero, NegZero => false
  | _, _ => PrimFloat.ltb (to_float a) (to_float b)
  end.

(** [a >= b] on numbers. *)
Definition number_geb (a b : number) : bool :=
  match norm a, norm b with
  | Int x, Int y => y <=? x
  | Int x, NegZero => 0 <=? x
  | NegZero, Int y => y <=? 0
  | NegZero, NegZero => true
  | _, _ => PrimFloat.leb (to_float b) (to_float a)
  end.

(** [a * b].  The product of two integers is the double nearest to
    their exact product: an infinity from [2^1024] on, and a zero with
    the sign of the operands. *)
Definition number_mul (a b : number) : number :=
  match norm a, norm b with
  | Int x, Int y =>
      let z := round53 (x * y) in
      if x * y =? 0 then (if (x <? 0) || (y <? 0) then NegZero else Int 0)
      else if Z.abs z <? 2^1024 then Int z
      else Frac (if z <? 0 then PrimFloat.neg_infinity else PrimFloat.infinity)
  | _, _ => number_of_float (PrimFloat.mul (to_float a) (to_float b))
  end.

(** [a / b].  The quotient of an integer by an integer that divides it
    is their exact quotient. *)
Definition number_div (a b : number) : number :=
  match norm a, norm b with
  | Int x, Int y =>
      if negb (y =? 0) && (x mod y =? 0) then
        if x =? 0 then (if y <? 0 then NegZero else Int 0)
        else Int (round53 (x / y))
      else number_of_float (PrimFloat.div (to_float a) (to_float b))
  | _, _ => number_of_float (PrimFloat.div (to_float a) (to_float b))
  end.

(** The 64 bits of a double, as an integer (the payload of NaN is the
    canonical quiet one). *)
Definition bits_of_float (f : float) : Z :=
  match Prim2SF f with
  | S754_zero s => if s then 2^63 else 0
  | S754_infinity s => (if s then 2^63 else 0) + 2047 * 2^52
  | S754_nan => 2047 * 2^52 + 2^51
  | S754_finite s m e =>
      (if s then 2^63 else 0) +
      (if Zpos m <? 2^52 then Zpos m
       else (e + 1075) * 2^52 + (Zpos m - 2^52))
  end.

(** The double of 64 bits, and the double that 32 bits of a binary32
    stand for. *)
Definition float_of_bits (w : Z) : float :=
  let s := Z.testbit w 63 in
  let e := (w / 2^52) mod 2^11 in
  let m := w mod 2^52 in
  if e =? 2047 then
    (if m =? 0 then (if s then PrimFloat.neg_infinity else PrimFloat.infinity)
     else PrimFloat.nan)
  else
    let v := if e =? 0 then Z.ldexp (PrimFloat.of_uint63 (Uint63.of_Z m)) (-1074)
             else Z.ldexp (PrimFloat.of_uint63 (Uint63.of_Z (m + 2^52))) (e - 1075) in
    if s then PrimFloat.opp v else v.

Definition float_of_bits32 (w : Z) : float :=
  let s := Z.testbit w 31 in
  let e := (w / 2^23) mod 2^8 in
  let m := w mod 2^23 in
  if e =? 255 then
    (if m =? 0 then (if s then PrimFloat.neg_infinity else PrimFloat.infinity)
     else PrimFloat.nan)
  else
    let v := if e =? 0 then Z.ldexp (PrimFloat.of_uint63 (Uint63.of_Z m)) (-149)
             else Z.ldexp (PrimFloat.of_uint63 (Uint63.of_Z (m + 2^23))) (e - 150) in
    if s then PrimFloat.opp v else v.

(** Decimal numeral of an integer, as [Number.prototype.toString] prints a
    double with an integral value that it holds exactly. *)
Definition string_of_Z (z : Z) : string :=
  NilZero.string_of_int (Z.to_int z).

(* ================================================================== *)
(** * Outcomes *)
(* ================================================================== *)

(** What is thrown, or handed to a callback as its error. *)
Inductive exn : Type :=
  | Error (message : string)                          (* new Error(message) *)
  | AssertionError (message : string)                 (* assert.ok(false, message) *)
  | AssertionFail (actual : Z) (expected : string)    (* assert.fail(actual, expected) *)
  | TypeError (message : string)
  | RangeError (message : string)
  | SyntaxError (message : string)
  | URIError (message : string).

Inductive outcome (A : Type) : Type :=
  | Ok (a : A)            (* returns, or calls back with [(null, a)] *)
  | CbError (e : exn)     (* calls back with the error [e] *)
  | Throw (e : exn)       (* throws [e] *)
  | Pending               (* the callback is not called: bytes are awaited,
                             or the function returns without calling it *)
  | NotModelled           (* the program goes on where the model does not *)
  | OutOfFuel.            (* the model stopped before the program did *)

Arguments Ok {A} a.
Arguments CbError {A} e.
Arguments Throw {A} e.
Arguments Pending {A}.
Arguments NotModelled {A}.
Arguments OutOfFuel {A}.

(** The exceptions of the language that the functions of the platform
    throw here: [new RegExp] a SyntaxError, [url.parse] a URIError or a
    TypeError. *)
Inductive native : Type :=
  | NativeSyntaxError (message : string)
  | NativeURIError (message : string)
  | NativeTypeError (message : string).

Definition native_exn (e : native) : exn :=
  match e with
  | NativeSyntaxError message => SyntaxError message
  | NativeURIError message => URIError message
  | NativeTypeError message => TypeError message
  end.

(** What a function of the platform does: it returns, or it throws. *)
Inductive platform (A : Type) : Type :=
  | Returns (a : A)
  | Throws (e : native).

Arguments Returns {A} a.
Arguments Throws {A} e.

Definition obind {A B : Type} (o : outcome A) (k : A -> outcome B) : outcome B :=
  match o with
  | Ok a => k a
  | CbError e => CbError e
  | Throw e => Throw e
  | Pending => Pending
  | NotModelled => NotModelled
  | OutOfFuel => OutOfFuel
  end.

(* ================================================================== *)
(** * BufferStream *)
(* ================================================================== *)

Module BufferStream.

(** Modelled from the spec: [lib/BufferStream.js] is missing from the
    sources.  Section 4.1: an append-oriented byte accumulator on the
    write side; here, the bytes accumulated, in order. *)
Definition t : Type := list Z.

Definition empty : t := [].

(** The [width] octets of [v], big-endian. *)
Definition be_bytes (width : nat) (v : Z) : list Z :=
  map (fun k => (v / 2^(8 * Z.of_nat k)) mod 256) (rev (seq 0 width)).

(** Modelled from the spec: "write one byte (unsigned 8-bit)", "write
    unsigned 16-bit", "write unsigned 32-bit", each appending big-endian.
    The specification says nothing of a value that its field cannot
    hold. *)
Definition writeUInt (width : nat) (v : Z) (b : t) : option t :=
  if (0 <=? v) && (v <? 2^(8 * Z.of_nat width))
  then Some (b ++ be_bytes width v)
  else None.

Definition writeUInt8 : Z -> t -> option t := writeUInt 1.
Definition writeUInt16BE : Z -> t -> option t := writeUInt 2.
Definition writeUInt32BE : Z -> t -> option t := writeUInt 4.

(** Modelled from the spec: "write IEEE-754 double (8 bytes,
    big-endian)". *)
Definition writeDoubleBE (v : number) (b : t) : option t :=
  Some (b ++ be_bytes 8 (bits_of_float (to_float v))).

(** Modelled from the spec: "append a raw byte sequence" and "write
    length-prefixed UTF-8 string bytes", the length having been written
    by the caller. *)
Definition append (octets : list Z) (b : t) : option t := Some (b ++ octets).

(** Modelled from the spec: "flatten: return the accumulated bytes as a
    single contiguous sequence". *)
Definition flatten (b : t) : list Z := b.

Definition length (b : t) : Z := Z.of_nat (List.length b).

(** Modelled from the spec: "wait(N, cb): if at least N bytes are
    buffered, hand the next N bytes to cb [...]; otherwise, remember the
    request"; "a wait for N bytes consumes exactly N bytes from the front
    of the buffer".  Here, the next [n] bytes and the stream after them,
    or nothing when fewer are left. *)
Definition wait (n : Z) (bs : t) : option (list Z * t) :=
  if (0 <=? n) && (n <=? length bs)
  then Some (firstn (Z.to_nat n) bs, skipn (Z.to_nat n) bs)
  else None.

End BufferStream.

(** Well-formed UTF-8 (Unicode, table 3-7). *)
Fixpoint utf8_valid (l : list Z) : bool :=
  let tail o := (0x80 <=? o) && (o <=? 0xbf) in
  match l with
  | [] => true
  | a :: r1 =>
      if (0 <=? a) && (a <=? 0x7f) then utf8_valid r1
      else
        match r1 with
        | [] => false
        | b :: r2 =>
            if (0xc2 <=? a) && (a <=? 0xdf) then tail b && utf8_valid r2
            else
              match r2 with
              | [] => false
              | c :: r3 =>
                  if a =? 0xe0 then
                    (0xa0 <=? b) && (b <=? 0xbf) && tail c && utf8_valid r3
                  else if a =? 0xed then
                    (0x80 <=? b) && (b <=? 0x9f) && tail c && utf8_valid r3
                  else if (0xe1 <=? a) && (a <=? 0xef) then
                    tail b && tail c && utf8_valid r3
                  else
                    match r3 with
                    | [] => false
                    | d :: r4 =>
                        if a =? 0xf0 then
                          (0x90 <=? b) && (b <=? 0xbf) && tail c && tail d
                          && utf8_valid r4
                        else if a =? 0xf4 then
                          (0x80 <=? b) && (b <=? 0x8f) && tail c && tail d
                          && utf8_valid r4
                        else if (0xf1 <=? a) && (a <=? 0xf3) then
                          tail b && tail c && tail d && utf8_valid r4
                        else false
                    end
              end
        end
  end.

(** The octets of a string and the string of octets ([Buffer.toString] and
    [writeString] with ['utf8']), for well-formed UTF-8. *)
Definition octets_of_string (s : string) : list Z :=
  map (fun c => Z.of_N (N_of_ascii c)) (list_ascii_of_string s).

Definition string_of_octets (l : list Z) : string :=
  string_of_list_ascii (map (fun o => ascii_of_N (Z.to_N (o mod 256))) l).

(** U+FFFD, the replacement character, in UTF-8. *)
Definition replacement : list Z := [0xef; 0xbf; 0xbd].

(** The UTF-8 decoder of [buf.toString('utf8')] (Encoding Standard,
    section 9.1.1), by the octets of the string it returns: a well-formed
    sequence gives its character; of an ill-formed one, the longest
    part that starts a well-formed sequence, or else one octet, gives
    U+FFFD, and the decoding goes on with the octet after that part. *)
Fixpoint utf8_decode (l : list Z) : list Z :=
  let within lo hi o := (lo <=? o) && (o <=? hi) in
  match l with
  | [] => []
  | a :: r1 =>
      if within 0 0x7f a then a :: utf8_decode r1
      else if within 0xc2 0xdf a then
        match r1 with
        | [] => replacement
        | b :: r2 =>
            if within 0x80 0xbf b then a :: b :: utf8_decode r2
            else replacement ++ utf8_decode r1
        end
      else if within 0xe0 0xef a then
        let lo := if a =? 0xe0 then 0xa0 else 0x80 in
        let hi := if a =? 0xed then 0x9f else 0xbf in
        match r1 with
        | [] => replacement
        | b :: r2 =>
            if within lo hi b then
              match r2 with
              | [] => replacement
              | c :: r3 =>
                  if within 0x80 0xbf c then a :: b :: c :: utf8_decode r3
                  else replacement ++ utf8_decode r2
              end
            else replacement ++ utf8_decode r1
        end
      else if within 0xf0 0xf4 a then
        let lo := if a =? 0xf0 then 0x90 else 0x80 in
        let hi := if a =? 0xf4 then 0x8f else 0xbf in
        match r1 with
        | [] => replacement
        | b :: r2 =>
            if within lo hi b then
              match r2 with
              | [] => replacement
              | c :: r3 =>
                  if within 0x80 0xbf c then
                    match r3 with
                    | [] => replacement
                    | d :: r4 =>
                        if within 0x80 0xbf d
                        then a :: b :: c :: d :: utf8_decode r4
                        else replacement ++ utf8_decode r3
                    end
                  else replacement ++ utf8_decode r2
              end
            else replacement ++ utf8_decode r1
        end
      else replacement ++ utf8_decode r1
  end.

(** [buf.toString('utf8')], and [buf.toString()]. *)
Definition Buffer_toString (buf : list Z) : string :=
  string_of_octets (utf8_decode buf).

(** Readers of a [Buffer] at offset 0; an index out of range reads
    [undefined], which the bitwise operators take for 0. *)
Definition octet_at (buf : list Z) (k : nat) : Z := nth k buf 0.

Definition be_value (buf : list Z) : Z :=
  fold_left (fun acc o => acc * 256 + o) buf 0.

(* ================================================================== *)
(** * The generator *)
(* ================================================================== *)

(** A computation that writes into the [BufferStream] it is given. *)
Definition Gen (A : Type) : Type :=
  BufferStream.t -> outcome A * BufferStream.t.

Definition gret {A : Type} (a : A) : Gen A := fun b => (Ok a, b).

Definition gbind {A B : Type} (m : Gen A) (k : A -> Gen B) : Gen B :=
  fun b =>
    match m b with
    | (Ok a, b') => k a b'
    | (CbError e, b') => (CbError e, b')
    | (Throw e, b') => (Throw e, b')
    | (Pending, b') => (Pending, b')
    | (NotModelled, b') => (NotModelled, b')
    | (OutOfFuel, b') => (OutOfFuel, b')
    end.

Definition gthrow {A : Type} (e : exn) : Gen A := fun b => (Throw e, b).

Definition gwrite (w : BufferStream.t -> option BufferStream.t) : Gen unit :=
  fun b =>
    match w b with
    | Some b' => (Ok tt, b')
    | None => (NotModelled, b)
    end.

Declare Scope gen_scope.
Delimit Scope gen_scope with gen.
Notation "m ;;; k" := (gbind m (fun _ => k))
  (at level 100, right associativity) : gen_scope.

Definition _packInt (i mt : Z) : Gen unit :=
  let mt := js_shl mt 5 in
  (if i <=? 0x1b then
     gwrite (BufferStream.writeUInt8 (js_or mt i))
   else if i <=? 0xff then
     gwrite (BufferStream.writeUInt8 (js_or mt 0x1c)) ;;;
     gwrite (BufferStream.writeUInt8 i)
   else if i <=? 0xffff then
     gwrite (BufferStream.writeUInt8 (js_or mt 0x1d)) ;;;
     gwrite (BufferStream.writeUInt16BE i)
   else if i <=? 0x7fffffff then
     gwrite (BufferStream.writeUInt8 (js_or mt 0x1e)) ;;;
     gwrite (BufferStream.writeUInt32BE i)
   else
     gthrow (AssertionFail i "Integer out of range"))%gen.

Definition _packNumber (obj : number) : Gen unit :=
  (* NaN's mess up everything below; Infinite works fine. *)
  if negb (isNaN obj) && strict_eq obj (Int (ToInt32 obj)) then
    (* integer: [obj] is the integer [obj|0] *)
    let i := ToInt32 obj in
    if number_geb obj (Int 0) then
      _packInt i 0
    else
      _packInt (- i - 1) 1
  else
    (* float-ish, such as a big integer *)
    (gwrite (BufferStream.writeUInt8 0xdf) ;;;
     gwrite (BufferStream.writeDoubleBE obj))%gen.


(* ================================================================== *)
(** * JavaScript values *)
(* ================================================================== *)

(** The constructors a value can be an instance of: the types of the
    type-pack registry. *)
Inductive ctor : Type :=
  | CArray | CDate | CBuffer | CBufferStream | CRegExp | CUnallocated
  | CObject
  | CUser (name : string).

#[global] Instance ctor_eq_dec : EqDecision ctor.
Proof. solve_decision. Defined.

(** An object keeps its own enumerable properties in the order they were
    created; [Object.keys] lists them (see [Object_keys]). *)
Inductive value : Type :=
  | VUndefined
  | VNull
  | VBoolean (b : bool)
  | VNumber (n : number)
  | VString (s : string)
  | VFunction
  | VArray (elems : list value)
  | VObject (cls : ctor) (props : list (string * value))
  | VBuffer (octets : list Z)
  | VBufferStream (octets : list Z)
  | VDate (time : number)
  | VRegExp (source : string)
  | VUnallocated (val : number).

Definition typeof (v : value) : string :=
  match v with
  | VUndefined => "undefined"
  | VBoolean _ => "boolean"
  | VNumber _ => "number"
  | VString _ => "string"
  | VFunction => "function"
  | _ => "object"
  end.

Definition class_of (v : value) : option ctor :=
  match v with
  | VArray _ => Some CArray
  | VObject cls _ => Some cls
  | VBuffer _ => Some CBuffer
  | VBufferStream _ => Some CBufferStream
  | VDate _ => Some CDate
  | VRegExp _ => Some CRegExp
  | VUnallocated _ => Some CUnallocated
  | _ => None
  end.

(** [obj instanceof type], for an [obj] whose [typeof] is ['object']. *)
Definition instanceof (obj : value) (type : ctor) : bool :=
  match class_of obj with
  | Some c => bool_decide (c = type) || bool_decide (type = CObject)
  | None => false
  end.

(** [res[key] = val] on the properties of an object, [key] being a string
    already: an existing property keeps its place and takes the value, a
    new one comes last. *)
Fixpoint set_prop (props : list (string * value)) (key : string) (val : value)
  : list (string * value) :=
  match props with
  | [] => [(key, val)]
  | (k, v) :: rest =>
      if String.eqb k key then (k, val) :: rest
      else (k, v) :: set_prop rest key val
  end.

Fixpoint get_prop (props : list (string * value)) (key : string) : option value :=
  match props with
  | [] => None
  | (k, v) :: rest => if String.eqb k key then Some v else get_prop rest key
  end.

(** The array index a property name stands for, if it is one. *)
Definition array_index (key : string) : option Z :=
  match NilZero.int_of_string key with
  | Some d =>
      let n := Z.of_int d in
      if String.eqb (string_of_Z n) key && (0 <=? n) && (n <? 2^32 - 1)
      then Some n else None
  | None => None
  end.

Fixpoint insert_index (n : Z) (l : list Z) : list Z :=
  match l with
  | [] => [n]
  | m :: r => if n <=? m then n :: l else m :: insert_index n r
  end.

(** [Object.keys]: the array indices in ascending order, then the other
    names in the order of their creation. *)
Definition ordered_keys (keys : list string) : list string :=
  map string_of_Z
      (fold_right insert_index [] (omap array_index keys))
  ++ List.filter (fun k => match array_index k with Some _ => false | None => true end)
                 keys.

Definition Object_keys (obj : value) : list string :=
  match obj with
  | VObject _ props => ordered_keys (map fst props)
  | VArray elems => map (fun k => string_of_Z (Z.of_nat k)) (seq 0 (List.length elems))
  | VBuffer octets => map (fun k => string_of_Z (Z.of_nat k)) (seq 0 (List.length octets))
  | VUnallocated _ => ["value"%string]
  | _ => []
  end.

Definition Object_get (obj : value) (key : string) : value :=
  match obj with
  | VObject _ props => default VUndefined (get_prop props key)
  | VArray elems =>
      match array_index key with
      | Some n => nth (Z.to_nat n) elems VUndefined
      | None => VUndefined
      end
  | VBuffer octets =>
      match array_index key with
      | Some n => match nth_error octets (Z.to_nat n) with
                  | Some o => VNumber (Int o)
                  | None => VUndefined
                  end
      | None => VUndefined
      end
  | VUnallocated n => if String.eqb key "value" then VNumber n else VUndefined
  | _ => VUndefined
  end.

(** What the platform provides and the sources do not define. *)
Record Host : Type := {
  (* [Number.prototype.toString] on a finite double that is not an integer
     below 2^53 in magnitude *)
  Number_toString_inexact : number -> string;
  (* [ToString] of an object whose [toString] is not of these sources: a
     Date, a function, a BufferStream, an instance of another
     constructor; nothing when the conversion throws a TypeError *)
  Object_toString : value -> option string;
  (* the time value of [new Date(string)] *)
  Date_parse : string -> number;
  (* the own properties of [url.parse(string, true)], or the exception
     that it throws *)
  url_parse : string -> platform (list (string * value));
  (* the [source] of [new RegExp(string)], or the exception that the
     compilation of the pattern throws *)
  RegExp_compile : string -> platform string
}.

Section WithHost.

Variable host : Host.

(** [String(n)] for a number. *)
Definition Number_toString (n : number) : string :=
  match norm n with
  | Int z => if Z.abs z <=? 2^53 then string_of_Z z
             else Number_toString_inexact host n
  | NegZero => "0"
  | Frac f =>
      if PrimFloat.is_nan f then "NaN"
      else if PrimFloat.eqb f PrimFloat.infinity then "Infinity"
      else if PrimFloat.eqb f PrimFloat.neg_infinity then "-Infinity"
      else Number_toString_inexact host n
  end.

Definition cannot_convert {A : Type} : outcome A :=
  Throw (TypeError "Cannot convert object to primitive value").

(** [Array.prototype.join]: the strings of the elements, [toString]
    being the conversion of one, with commas between them; [undefined]
    and [null] give the empty string. *)
Fixpoint join (toString : value -> outcome string) (l : list value)
         (sep : string) {struct l} : outcome string :=
  match l with
  | [] => Ok ""
  | e :: r =>
      obind (match e with
             | VUndefined | VNull => Ok ""
             | _ => toString e
             end) (fun x =>
      obind (join toString r ",") (fun y => Ok (sep ++ x ++ y)))
  end%string.

(** A function of the object's own among its [toString] and [valueOf]. *)
Definition own_conversion (props : list (string * value)) : bool :=
  match get_prop props "toString", get_prop props "valueOf" with
  | Some VFunction, _ | _, Some VFunction => true
  | _, _ => false
  end.

(** [ToString(v)]: the property name that [res[v]] uses.  An object is
    converted by its [toString]: an array joins the strings of its
    elements; an object literal takes [Object.prototype.toString], unless
    a property of its own named [toString] hides it: one that is not a
    function leaves [valueOf], and that of [Object.prototype] returns no
    primitive value. *)
Fixpoint ToString (v : value) : outcome string :=
  match v with
  | VUndefined => Ok "undefined"
  | VNull => Ok "null"
  | VBoolean b => Ok (if b then "true" else "false")
  | VNumber n => Ok (Number_toString n)
  | VString s => Ok s
  | VArray elems => join ToString elems ""
  | VObject CObject props =>
      if own_conversion props then
        match Object_toString host v with
        | Some x => Ok x
        | None => cannot_convert
        end
      else
        match get_prop props "toString" with
        | None => Ok "[object Object]"
        | Some _ => cannot_convert
        end
  | VBuffer octets => Ok (Buffer_toString octets)
  | VRegExp source => Ok ("/" ++ source ++ "/")
  | VUnallocated n => Ok ("Unallocated-" ++ Number_toString n)
  | VObject _ _ | VFunction | VBufferStream _ | VDate _ =>
      match Object_toString host v with
      | Some x => Ok x
      | None => cannot_convert
      end
  end%string.

(** [res[name] = val] on the properties [res] of an object literal.  The
    name [__proto__] is the accessor that the object inherits from
    [Object.prototype]: the assignment makes no property; it is ignored
    when [val] is a primitive value, and when [val] is an object or
    [null] it replaces the prototype of [res], which is not modelled. *)
Definition Object_put (res : list (string * value)) (name : string) (val : value)
  : outcome (list (string * value)) :=
  if String.eqb name "__proto__" then
    match val with
    | VUndefined | VBoolean _ | VNumber _ | VString _ => Ok res
    | _ => NotModelled
    end
  else Ok (set_prop res name val).

(** [new Unallocated(num)]. *)
Definition Unallocated (num : value) : outcome value :=
  match num with
  | VNumber n =>
      if number_ltb n (Int 0) || number_ltb (Int 255) n
         || negb (strict_eq (Int (ToInt32 n)) n)
      then Throw (Error ("num must be a small positive integer: "
                         ++ Number_toString n))
      else Ok (VUnallocated n)
  | _ => Throw (Error ("Invalid Unallocated type: " ++ typeof num))
  end.

End WithHost.

(* ================================================================== *)
(** * The generator: semantic types and [pack] *)
(* ================================================================== *)

(** A packing function [fun(gen, obj, bufs)]; of [gen] it uses
    [gen.unsafePack]. *)
Definition packer : Type := (value -> Gen unit) -> value -> Gen unit.

(** What a registry hands back for the entry it had. *)
Inductive displaced (F : Type) : Type :=
  | Prior (f : F)
  | JsNull
  | JsUndefined.

Arguments Prior {F} f.
Arguments JsNull {F}.
Arguments JsUndefined {F}.

(** The packers of the default registry are local to the module and the
    registry pairs each with its type, so a packer only ever receives an
    instance of that type.  Another receiver is not modelled. *)
Definition wrong_receiver {A : Type} : Gen A := fun b => (NotModelled, b).

Definition Unallocated_pack : packer := fun gen obj =>
  match obj with
  | VUnallocated n => _packInt (ToInt32 n) 6
  | _ => wrong_receiver
  end.

Definition _packDate : packer := fun gen obj =>
  (gwrite (BufferStream.writeUInt8 0xeb) ;;;
   match obj with
   | VDate t => gen (VNumber (number_div t (Int 1000)))
   | _ => wrong_receiver
   end)%gen.

Definition _packBuffer : packer := fun gen obj =>
  match obj with
  | VBuffer octets =>
      (_packInt (Z.of_nat (List.length octets)) 2 ;;;
       gwrite (BufferStream.append octets))%gen
  | _ => wrong_receiver
  end.

Definition _packBufferStream : packer := fun gen obj =>
  match obj with
  | VBufferStream octets =>
      (_packInt (Z.of_nat (List.length octets)) 2 ;;;
       gwrite (BufferStream.append (BufferStream.flatten octets)))%gen
  | _ => wrong_receiver
  end.

Definition _packRegexp : packer := fun gen obj =>
  (gwrite (BufferStream.writeUInt8 0xf7) ;;;
   match obj with
   | VRegExp source => gen (VString source)
   | _ => wrong_receiver
   end)%gen.

Fixpoint gforeach {A : Type} (f : A -> Gen unit) (l : list A) : Gen unit :=
  match l with
  | [] => gret tt
  | x :: r => (f x ;;; gforeach f r)%gen
  end.

Definition _packArray : packer := fun gen obj =>
  match obj with
  | VArray elems =>
      (_packInt (Z.of_nat (List.length elems)) 4 ;;;
       gforeach gen elems)%gen
  | _ => wrong_receiver
  end.

Record Generator : Type := {
  (* Array of type, packer... tuples *)
  semanticTypes : list (ctor * packer)
}.

Definition default_semanticTypes : list (ctor * packer) :=
  [ (CArray, _packArray);
    (CDate, _packDate);
    (CBuffer, _packBuffer);
    (CBufferStream, _packBufferStream);
    (CRegExp, _packRegexp);
    (CUnallocated, Unallocated_pack) ].

(** The loop of [addSemanticType]: the packer of the first entry for
    [type] and the registry with [fn] in its place. *)
Fixpoint replace_packer (type : ctor) (fn : packer) (l : list (ctor * packer))
  : option (packer * list (ctor * packer)) :=
  match l with
  | [] => None
  | (t, p) :: rest =>
      if bool_decide (t = type) then Some (p, (t, fn) :: rest)
      else match replace_packer type fn rest with
           | Some (old, rest') => Some (old, (t, p) :: rest')
           | None => None
           end
  end.

Definition addSemanticType (type : ctor) (fn : packer) (g : Generator)
  : displaced packer * Generator :=
  match replace_packer type fn (semanticTypes g) with
  | Some (old, l) => (Prior old, {| semanticTypes := l |})
  | None => (JsNull, {| semanticTypes := semanticTypes g ++ [(type, fn)] |})
  end.

(** [new Generator(options)], [genTypes] being [options.genTypes]. *)
Definition new_Generator (genTypes : list (ctor * packer)) : Generator :=
  fold_left (fun g tf => snd (addSemanticType (fst tf) (snd tf) g))
            genTypes {| semanticTypes := default_semanticTypes |}.

Definition _packObject (g : Generator) (gen : value -> Gen unit) (obj : value)
  : Gen unit :=
  match List.find (fun tf => instanceof obj (fst tf)) (semanticTypes g) with
  | Some (_, fn) => fn gen obj
  | None =>
      let keys := Object_keys obj in
      (_packInt (Z.of_nat (List.length keys)) 5 ;;;
       gforeach (fun key => gen (VString key) ;;; gen (Object_get obj key)) keys)%gen
  end.

Fixpoint unsafePack (fuel : nat) (g : Generator) (obj : value) : Gen unit :=
  match fuel with
  | O => fun b => (OutOfFuel, b)
  | S fuel' =>
      match obj with
      | VNumber n => _packNumber n
      | VString s =>
          let len := Z.of_nat (String.length s) in
          (_packInt len 3 ;;;
           gwrite (BufferStream.append (octets_of_string s)))%gen
      | VBoolean b => gwrite (BufferStream.writeUInt8 (if b then 0xd9 else 0xd8))
      | VUndefined => gwrite (BufferStream.writeUInt8 0xdb)
      | VFunction => gthrow (Error ("Unknown type: " ++ typeof obj))
      | VNull =>
          (* typeof(null) === 'object' *)
          gwrite (BufferStream.writeUInt8 0xda)
      | _ => _packObject g (unsafePack fuel' g) obj
      end
  end.

(** [Generator.prototype.pack(obj)] without a buffer of the caller's: a
    new [BufferStream], flattened at the end. *)
Definition Generator_pack (fuel : nat) (g : Generator) (obj : value)
  : outcome (list Z) :=
  match unsafePack fuel g obj BufferStream.empty with
  | (Ok _, bufs) => Ok (BufferStream.flatten bufs)
  | (CbError e, _) => CbError e
  | (Throw e, _) => Throw e
  | (Pending, _) => Pending
  | (NotModelled, _) => NotModelled
  | (OutOfFuel, _) => OutOfFuel
  end.

(** [exports.pack(obj)]. *)
Definition pack (fuel : nat) (obj : value) : outcome (list Z) :=
  Generator_pack fuel (new_Generator []) obj.

(** [Generator.prototype.pack(obj, bufs)] with a buffer of the caller's:
    the bytes are written into it and it is not flattened. *)
Definition Generator_pack_into (fuel : nat) (g : Generator) (obj : value)
  : Gen unit :=
  unsafePack fuel g obj.

(** [exports.pack(obj, bufs)] with a buffer of the caller's. *)
Definition pack_into (fuel : nat) (obj : value) : Gen unit :=
  Generator_pack_into fuel (new_Generator []) obj.


(* ================================================================== *)
(** * The parser *)
(* ================================================================== *)

(** [buf.readUInt8(0)], [buf.readUInt16BE(0)], [buf.readUInt32BE(0)] and
    [buf.readUInt32BE(4)]: [width] octets from [offset], big-endian. *)
Definition readUIntBE (width offset : nat) (buf : list Z) : outcome Z :=
  if (offset + width <=? List.length buf)%nat
  then Ok (be_value (firstn width (skipn offset buf)))
  else Throw (RangeError "Index out of range").

Definition _unpackInt (ai : Z) (buf : list Z) : outcome Z :=
  if ai =? 28 then readUIntBE 1 0 buf
  else if ai =? 29 then readUIntBE 2 0 buf
  else if ai =? 30 then readUIntBE 4 0 buf
  else if ai =? 31 then
    obind (readUIntBE 4 0 buf) (fun f =>
    obind (readUIntBE 4 4 buf) (fun g =>
    Ok (round53 (f * 2^32 + g))))
  else Throw (AssertionError ("Invalid additional info: " ++ string_of_Z ai)).

(** [Math.pow(2, n)] for an integer [n]. *)
Definition Math_pow2 (n : Z) : float := Z.ldexp PrimFloat.one n.

Definition _unpackHalf (buf : list Z) : float :=
  let sign := if js_and (octet_at buf 0) 0x80 =? 0 then 1%float else (-1)%float in
  let exp := js_shr (js_and (octet_at buf 0) 0x7C) 2 in
  let mant := js_or (js_shl (js_and (octet_at buf 0) 0x03) 8) (octet_at buf 1) in
  if exp =? 0 then
    (* subnormal; Math.pow(2, -24) = 5.9604644775390625e-8 *)
    (sign * 5.9604644775390625e-8 * float_of_Z mant)%float
  else if exp =? 0x1f then
    PrimFloat.mul sign (if mant =? 0 then PrimFloat.infinity else PrimFloat.nan)
  else
    (sign * Math_pow2 (exp - 25) * float_of_Z (1024 + mant))%float.

(** [new Date(t)] for a number [t]: the time value [TimeClip(t)]. *)
Definition TimeClip (t : number) : number :=
  let clip z := if Z.abs z <=? 8640000000000000 then Int z else Frac PrimFloat.nan in
  match t with
  | Int z => clip z
  | NegZero => Int 0
  | Frac f =>
      match Prim2SF f with
      | S754_finite s m e =>
          let a := if 0 <=? e then Zpos m * 2^e else Zpos m / 2^(-e) in
          clip (if s then - a else a)
      | _ => Frac PrimFloat.nan
      end
  end.

(** What a callback [cb(null, obj, tag)] receives: the value and, from an
    unknown tag, the tag. *)
Definition decoded : Type := value * option Z.

(** A function [fun(tag, obj, cb)] of the tag registry, by what it hands
    to [cb]. *)
Definition decoder : Type := Z -> value -> outcome decoded.

Record Parser : Type := {
  semanticTags : gmap Z decoder
}.

Definition addSemanticTag (tag : Z) (fn : decoder) (p : Parser)
  : displaced decoder * Parser :=
  let old := match semanticTags p !! tag with
             | Some f => Prior f
             | None => JsUndefined
             end in
  (old, {| semanticTags := <[tag := fn]> (semanticTags p) |}).

Section Parser.

Variable host : Host.

Definition _unpackSmallNumber (ai : Z) (buf : option (list Z)) : outcome decoded :=
  let cb v := Ok (v, None) in
  let with_buf (k : list Z -> outcome decoded) :=
    match buf with
    | Some b => k b
    | None => Throw (TypeError "Cannot read property of null")
    end in
  if ai <=? 23 then obind (Unallocated host (VNumber (Int ai))) cb
  else if ai =? 24 then cb (VBoolean false)
  else if ai =? 25 then cb (VBoolean true)
  else if ai =? 26 then cb VNull
  else if ai =? 27 then cb VUndefined
  else if ai =? 28 then
    with_buf (fun b =>
      obind (Unallocated host (match b with
                               | o :: _ => VNumber (Int o)
                               | [] => VUndefined
                               end)) cb)
  else if ai =? 29 then
    with_buf (fun b => cb (VNumber (number_of_float (_unpackHalf b))))
  else if ai =? 30 then
    with_buf (fun b =>
      obind (readUIntBE 4 0 b) (fun w =>
      cb (VNumber (number_of_float (float_of_bits32 w)))))
  else if ai =? 31 then
    with_buf (fun b =>
      obind (readUIntBE 8 0 b) (fun w =>
      cb (VNumber (number_of_float (float_of_bits w)))))
  else Pending.

Definition _unpackDate : decoder := fun tag obj =>
  match obj with
  | VString s => Ok (VDate (Date_parse host s), None) (* RFC 3339 *)
  | VNumber n => Ok (VDate (TimeClip (number_mul n (Int 1000))), None)
  | _ => CbError (Error ("Unsupported date type: " ++ typeof obj))
  end.

Definition _unpackUri : decoder := fun tag obj =>
  match obj with
  | VString s =>
      match url_parse host s with
      | Returns props => Ok (VObject (CUser "Url") props, None)
      | Throws e => Throw (native_exn e)
      end
  | _ => CbError (Error ("Unsupported Uri type: " ++ typeof obj))
  end.

Definition _unpackRegex : decoder := fun tag obj =>
  match obj with
  | VString s =>
      match RegExp_compile host s with
      | Returns source => Ok (VRegExp source, None)
      | Throws e => Throw (native_exn e)
      end
  | _ => CbError (Error ("Unsupported RegExp type: " ++ typeof obj))
  end.

Definition default_semanticTags : gmap Z decoder :=
  <[11 := _unpackDate]> (<[15 := _unpackUri]> (<[23 := _unpackRegex]> ∅)).

(** [new Parser(options)], [psTags] being [options.psTags]. *)
Definition new_Parser (psTags : list (Z * decoder)) : Parser :=
  fold_left (fun p tf => snd (addSemanticTag (fst tf) (snd tf) p))
            psTags {| semanticTags := default_semanticTags |}.

Variable parser : Parser.

(** What the callback of a parsing function receives, and the stream
    after the bytes that were read. *)
Definition parsed : Type := decoded * BufferStream.t.

Fixpoint _unpack (fuel : nat) (bs : BufferStream.t) (tagged : bool)
  {struct fuel} : outcome parsed :=
  match fuel with
  | O => OutOfFuel
  | S fuel =>
      match BufferStream.wait 1 bs with
      | None => Pending
      | Some (buf, bs) =>
          let octet := octet_at buf 0 in
          let mt := js_shr octet 5 in
          let ai := js_and octet 0x1f in
          let additionalBytes := ai - 28 in
          if 0 <=? additionalBytes then
            match BufferStream.wait (js_shl 1 additionalBytes) bs with
            | None => Pending
            | Some (buf, bs) =>
                if mt =? 6 then
                  (* might be floats *)
                  obind (_unpackSmallNumber ai (Some buf)) (fun d => Ok (d, bs))
                else
                  obind (_unpackInt ai buf) (fun num =>
                  _getVal fuel mt num bs tagged)
            end
          else
            _getVal fuel mt ai bs tagged
      end
  end

with _getVal (fuel : nat) (mt num : Z) (bs : BufferStream.t) (tagged : bool)
  {struct fuel} : outcome parsed :=
  match fuel with
  | O => OutOfFuel
  | S fuel =>
      if mt =? 0 then (* positive int *)
        Ok ((VNumber (Int num), None), bs)
      else if mt =? 1 then (* negative int *)
        Ok ((VNumber (Int (round53 (-1 - num))), None), bs)
      else if mt =? 2 then (* octet string *)
        match BufferStream.wait num bs with
        | None => Pending
        | Some (buf, bs) => Ok ((VBuffer buf, None), bs)
        end
      else if mt =? 3 then (* UTF8 string *)
        match BufferStream.wait num bs with
        | None => Pending
        | Some (buf, bs) =>
            (* TODO: check for malformed UTF-8, and error out *)
            Ok ((VString (Buffer_toString buf), None), bs)
        end
      else if mt =? 4 then (* 0b110: array *)
        _unpackArray fuel bs num []
      else if mt =? 5 then (* 0b111: map *)
        _unpackMap fuel bs num []
      else if mt =? 6 then
        (* num < 28 *)
        obind (_unpackSmallNumber num None) (fun d => Ok (d, bs))
      else if mt =? 7 then (* semantic tag *)
        if tagged then CbError (Error "Tag must not follow a tag")
        else _unpackSemanticTag fuel num bs
      else Throw (AssertionError "Invalid state.  Can't get here.")
  end

with _unpackSemanticTag (fuel : nat) (tag : Z) (bs : BufferStream.t)
  {struct fuel} : outcome parsed :=
  match fuel with
  | O => OutOfFuel
  | S fuel =>
      (* make sure we don't allow double-tags!! *)
      obind (_unpack fuel bs true) (fun '((obj, _), bs) =>
      match semanticTags parser !! tag with
      | Some f => obind (f tag obj) (fun d => Ok (d, bs))
      | None => Ok ((obj, Some tag), bs)
      end)
  end

with _unpackArray (fuel : nat) (bs : BufferStream.t) (left : Z)
                  (res : list value) {struct fuel} : outcome parsed :=
  match fuel with
  | O => OutOfFuel
  | S fuel =>
      if left =? 0 then Ok ((VArray res, None), bs)
      else
        obind (_unpack fuel bs false) (fun '((obj, _), bs) =>
        _unpackArray fuel bs (round53 (left - 1)) (res ++ [obj]))
  end

with _unpackMap (fuel : nat) (bs : BufferStream.t) (left : Z)
                (res : list (string * value)) {struct fuel} : outcome parsed :=
  match fuel with
  | O => OutOfFuel
  | S fuel =>
      if left =? 0 then Ok ((VObject CObject res, None), bs)
      else
        obind (_unpack fuel bs false) (fun '((key, _), bs) =>
        obind (_unpack fuel bs false) (fun '((val, _), bs) =>
        obind (ToString host key) (fun name =>
        obind (Object_put res name val) (fun res =>
        _unpackMap fuel bs (round53 (left - 1)) res))))
  end.

(** [Buffer.prototype.slice(offset)]. *)
Definition Buffer_slice (buf : list Z) (offset : Z) : list Z :=
  let len := Z.of_nat (List.length buf) in
  let start := if offset <? 0 then Z.max (len + offset) 0 else Z.min offset len in
  skipn (Z.to_nat start) buf.

(** Fuel that [_unpack] never exhausts on [bs]
    (see [_unpack_enough_fuel]). *)
Definition unpack_fuel (bs : BufferStream.t) : nat :=
  (4 * List.length bs + 4)%nat.

(** [parser.unpack(buf, offset, cb)] on a [Buffer]. *)
Definition Parser_unpack (buf : list Z) (offset : Z) : outcome decoded :=
  let bs := if offset =? 0 then buf else Buffer_slice buf offset in
  obind (_unpack (unpack_fuel bs) bs false) (fun '(d, _) => Ok d).

End Parser.

(** [exports.unpack(input, cb)] on a [Buffer]. *)
Definition unpack (host : Host) (input : list Z) : outcome decoded :=
  Parser_unpack host (new_Parser host []) input 0.


(* ================================================================== *)
(** * Vocabulary of the statements *)
(* ================================================================== *)

Definition is_octet (o : Z) : Prop := 0 <= o < 256.

(** The initial byte with major type [mt] and additional information
    [ai]. *)
Definition initial_byte (mt ai : Z) : Z := mt * 32 + ai.

(** The head of an item of major type [mt] with operand [n], as the
    framing table of the generator lays it out. *)
Definition framed (mt n : Z) : list Z :=
  if n <=? 0x1b then [initial_byte mt n]
  else if n <=? 0xff then [initial_byte mt 0x1c; n]
  else if n <=? 0xffff then initial_byte mt 0x1d :: BufferStream.be_bytes 2 n
  else initial_byte mt 0x1e :: BufferStream.be_bytes 4 n.

(** The head of an item on the wire (section 6): an initial byte whose
    additional information below 28 is the operand, or whose additional
    information 28, 29, 30, 31 announces 1, 2, 4, 8 octets that carry the
    operand, big-endian. *)
Inductive head (mt : Z) : Z -> list Z -> Prop :=
  | head_inline (ai : Z) :
      0 <= ai < 28 -> head mt ai [initial_byte mt ai]
  | head_operand (ai : Z) (payload : list Z) :
      28 <= ai < 32 ->
      Z.of_nat (List.length payload) = 2^(ai - 28) ->
      Forall is_octet payload ->
      head mt (round53 (be_value payload)) (initial_byte mt ai :: payload).

(** What [_unpackSemanticTag] makes of the item [obj] under [tag]: the
    outcome of the decoder registered for the tag, or [obj] with the tag
    when there is none. *)
Definition apply_tag (parser : Parser) (tag : Z) (obj : value) : outcome decoded :=
  match semanticTags parser !! tag with
  | Some f => f tag obj
  | None => Ok (obj, Some tag)
  end.

(** The stream [bs] holds the items of the pairs [kvs], key then value,
    and [bs'] after them. *)
Inductive decodes_pairs (host : Host) (parser : Parser) (f : nat)
  : BufferStream.t -> list (value * value) -> BufferStream.t -> Prop :=
  | decodes_no_pair (bs : BufferStream.t) :
      decodes_pairs host parser f bs [] bs
  | decodes_pair (bs bs1 bs2 bs3 : BufferStream.t) (key val : value)
                 (tk tv : option Z) (kvs : list (value * value)) :
      _unpack host parser f bs false = Ok ((key, tk), bs1) ->
      _unpack host parser f bs1 false = Ok ((val, tv), bs2) ->
      decodes_pairs host parser f bs2 kvs bs3 ->
      decodes_pairs host parser f bs ((key, val) :: kvs) bs3.

(** The stream [bs] holds the items [vs], each read with the tagged
    flag down, and [bs'] after them. *)
Inductive decodes_items (host : Host) (parser : Parser) (f : nat)
  : BufferStream.t -> list value -> BufferStream.t -> Prop :=
  | decodes_no_item (bs : BufferStream.t) :
      decodes_items host parser f bs [] bs
  | decodes_item (bs bs1 bs2 : BufferStream.t) (v : value) (tv : option Z)
                 (vs : list value) :
      _unpack host parser f bs false = Ok ((v, tv), bs1) ->
      decodes_items host parser f bs1 vs bs2 ->
      decodes_items host parser f bs (v :: vs) bs2.

(** The assignments [res[key] = val] of the pairs [kvs], in order. *)
Fixpoint put_pairs (host : Host) (kvs : list (value * value))
         (res : list (string * value)) : outcome (list (string * value)) :=
  match kvs with
  | [] => Ok res
  | (key, val) :: kvs =>
      obind (ToString host key) (fun name =>
      obind (Object_put res name val) (fun res =>
      put_pairs host kvs res))
  end.

(** The keys of [kvs] have the strings [names], none being [__proto__]. *)
Fixpoint named (host : Host) (kvs : list (value * value)) (names : list string)
  : Prop :=
  match kvs, names with
  | [], [] => True
  | (key, _) :: kvs, name :: names =>
      ToString host key = Ok name /\ name <> "__proto__"%string /\
      named host kvs names
  | _, _ => False
  end.

(** An outcome that the program reached: the model did not stop first. *)
Definition settled {A : Type} (o : outcome A) : Prop := o <> OutOfFuel.

(** The framing error of [_unpackInt]. *)
Definition framing_error (e : exn) : Prop :=
  exists ai, e = AssertionError ("Invalid additional info: " ++ string_of_Z ai).

Definition no_framing_error {A : Type} (o : outcome A) : Prop :=
  forall e, o = Throw e \/ o = CbError e -> ~ framing_error e.

(** [f] is the double whose value is exactly [(-1)^neg * m * 2^e], [m]
    being a magnitude; a zero carries its sign. *)
Definition is_exactly (f : float) (neg : bool) (m e : Z) : bool :=
  match Prim2SF f with
  | S754_zero s => Bool.eqb s neg && (m =? 0)
  | S754_finite s m' e' =>
      let e0 := Z.min e e' in
      Bool.eqb s neg && (Zpos m' * 2^(e' - e0) =? m * 2^(e - e0))
  | _ => false
  end.

(** The octets, in order. *)
Definition octets : list Z := map Z.of_nat (seq 0 256).

(** What section 4.3 says of the two bytes [b0 b1] of a half-precision
    float and of the double [r] they are decoded to: sign from bit 15,
    exponent from bits 14..10, mantissa from bits 9..0. *)
Definition half_decoded (b0 b1 : Z) (r : float) : bool :=
  let w := b0 * 256 + b1 in
  let neg := Z.testbit w 15 in
  let exp := (w / 2^10) mod 2^5 in
  let mant := w mod 2^10 in
  if exp =? 0 then is_exactly r neg mant (-24)
  else if exp =? 31 then
    match Prim2SF r with
    | S754_nan => negb (mant =? 0)
    | S754_infinity s => Bool.eqb s neg && (mant =? 0)
    | _ => false
    end
  else is_exactly r neg (1024 + mant) (exp - 25).

(** A platform, for the examples. *)
Definition plain_host : Host :=
  {| Number_toString_inexact := fun _ => "?"%string;
     Object_toString := fun _ => Some "[object Object]"%string;
     Date_parse := fun _ => Frac PrimFloat.nan;
     url_parse := fun s => Returns [("href"%string, VString s)];
     RegExp_compile := fun s => Returns s |}.

(** A number whose value is an integer of [lo..hi]; [-0] is the integer
    0. *)
Definition integer_in (lo hi : Z) (n : number) : Prop :=
  match norm n with
  | Int z => lo <= z <= hi
  | NegZero => lo <= 0 <= hi
  | Frac _ => False
  end.

(** The packer that the registry holds for [type]: that of the first
    entry for it. *)
Definition registered_packer (type : ctor) (l : list (ctor * packer))
  : option packer :=
  snd <$> List.find (fun tf => bool_decide (fst tf = type)) l.

(** Names that differ from one another. *)
Fixpoint distinct (names : list string) : bool :=
  match names with
  | [] => true
  | n :: r => negb (existsb (String.eqb n) r) && distinct r
  end.

(** A property name that [Object.keys] lists where the property was
    created and that an assignment stores: it is neither an array index
    nor [__proto__]; its text is well-formed UTF-8. *)
Definition plain_key (key : string) : bool :=
  negb (String.eqb key "__proto__")
  && match array_index key with Some _ => false | None => true end
  && utf8_valid (octets_of_string key)
  && (Z.of_nat (String.length key) <=? 0x7fffffff).

(** The values that the generator writes without a tag and without a
    float: the integers of 32 bits, the texts, the constants, the simple
    values that are not those of the constants, the byte strings, and the
    arrays and object literals of such values. *)
Fixpoint plain (v : value) : bool :=
  match v with
  | VUndefined | VNull | VBoolean _ => true
  | VNumber (Int i) => (- 2^31 <=? i) && (i <=? 2^31 - 1)
  | VString s =>
      utf8_valid (octets_of_string s)
      && (Z.of_nat (String.length s) <=? 0x7fffffff)
  | VBuffer octets => Z.of_nat (List.length octets) <=? 0x7fffffff
  | VUnallocated (Int n) =>
      ((0 <=? n) && (n <=? 23)) || ((28 <=? n) && (n <=? 255))
  | VArray elems =>
      (Z.of_nat (List.length elems) <=? 0x7fffffff) && forallb plain elems
  | VObject CObject props =>
      (Z.of_nat (List.length props) <=? 0x7fffffff)
      && distinct (map fst props)
      && forallb (fun '(k, x) => plain_key k && plain x) props
  | _ => false
  end.

(** How deep arrays and objects are nested in a value. *)
Fixpoint depth (v : value) : nat :=
  match v with
  | VArray elems => S (fold_right (fun e d => Nat.max (depth e) d) O elems)
  | VObject _ props =>
      S (fold_right (fun '(_, x) d => Nat.max (depth x) d) O props)
  | _ => O
  end.

(** The bytes [bytes], whatever follows them, are read as the item [v]
    and nothing more. *)
Definition reads_as (host : Host) (parser : Parser) (bytes : list Z) (v : value)
  : Prop :=
  forall (rest : list Z) (tagged : bool),
    exists f, _unpack host parser f (bytes ++ rest) tagged = Ok ((v, None), rest).

(** A computation of the generator that only appends: what it does to a
    buffer is what it does to an empty one, after the bytes that the
    buffer held. *)
Definition appends (m : Gen unit) : Prop :=
  forall b, m b = (fst (m []), b ++ snd (m [])).
(** The outcome [o] of a parsing function, had the bytes [extra] come
    after its input. *)
Definition followed_by (extra : list Z) (o : outcome parsed) : outcome parsed :=
  match o with
  | Ok (d, bs) => Ok (d, bs ++ extra)
  | _ => o
  end.
(** The exception of a key that has no property name: [res[key] = val]
    converts an object by its [toString] and its [valueOf], and throws
    when neither returns a primitive value. *)
Definition key_conversion_failure (e : exn) : Prop :=
  e = TypeError "Cannot convert object to primitive value".

(** The error of a tag that follows a tag. *)
Definition tag_after_tag (e : exn) : Prop :=
  e = Error "Tag must not follow a tag".

(** What the platform throws for the decoders of the default registry:
    the exception of [new RegExp], that of [url.parse]. *)
Definition platform_exception (e : exn) : Prop :=
  exists n, e = native_exn n.

(** The error that the decoders of the default registry give for a
    tagged item of the wrong type. *)
Definition unsupported_type (e : exn) : Prop :=
  exists kind type,
    In kind ["date"; "Uri"; "RegExp"]%string /\
    e = Error ("Unsupported " ++ kind ++ " type: " ++ type).

(** What the parsing functions throw: the exception of a key, or what a
    decoder throws, [T]; and the errors that they give the callback: that
    of the tag, or the error of a decoder, [E]. *)
Definition parser_throws (T : exn -> Prop) (e : exn) : Prop :=
  key_conversion_failure e \/ T e.

Definition parser_errors (E : exn -> Prop) (e : exn) : Prop :=
  tag_after_tag e \/ E e.

(** An outcome whose exception, if it is one, satisfies [T], and whose
    error for the callback, if it is one, satisfies [E]. *)
Definition raises (T E : exn -> Prop) {A : Type} (o : outcome A) : Prop :=
  (forall e, o = Throw e -> T e) /\ (forall e, o = CbError e -> E e).

(** An outcome of a parsing function on a stream of octets: it raises
    within [T] and [E], and octets are left in the stream. *)
Definition sound_outcome (T E : exn -> Prop) (o : outcome parsed) : Prop :=
  raises T E o /\
  forall r bs', o = Ok (r, bs') -> Forall is_octet bs'.
(** A packer that only appends, when the [unsafePack] it is given
    does. *)
Definition appending (fn : packer) : Prop :=
  forall gen, (forall v, appends (gen v)) -> forall obj, appends (fn gen obj).
(** The value that the byte of the simple value [n] is read as: those of
    24 to 27 are the constants. *)
Definition simple_value_read (n : Z) : value :=
  if n =? 24 then VBoolean false
  else if n =? 25 then VBoolean true
  else if n =? 26 then VNull
  else if n =? 27 then VUndefined
  else VUnallocated (Int n).

(** The entry of [psTags] that is registered last for [tag]. *)
Definition last_for_tag (tag : Z) (psTags : list (Z * decoder)) : option decoder :=
  snd <$> List.find (fun tf => fst tf =? tag) (rev psTags).

(** The entry of [genTypes] that is registered last for [type]. *)
Definition last_for_type (type : ctor) (genTypes : list (ctor * packer))
  : option packer :=
  snd <$> List.find (fun tf => bool_decide (fst tf = type)) (rev genTypes).
(** The bytes of a number on the wire: an integer of 32 bits, and [-0]
    with it, is an integer of major type 0 or 1; any other number is the
    byte [0xdf] and the 64 bits of the double. *)
Definition number_bytes (n : number) : list Z :=
  let double := 0xdf :: BufferStream.be_bytes 8 (bits_of_float (to_float n)) in
  match norm n with
  | Int z =>
      if (- 2^31 <=? z) && (z <? 2^31)
      then (if 0 <=? z then framed 0 z else framed 1 (- z - 1))
      else double
  | NegZero => framed 0 0
  | Frac _ => double
  end.
(** A number in the form that its type documents: the integer of an
    [Int] is one that a double holds. *)
Definition is_double (n : number) : Prop :=
  match n with
  | Int z => round53 z = z /\ Z.abs z < 2^1024
  | _ => True
  end.
(** The octets [pat] come one after the other somewhere in [bs]. *)
Definition holds (pat bs : list Z) : Prop :=
  exists before after, bs = before ++ pat ++ after.

(** A platform that gives no object and no number the string
    [__proto__]. *)
Definition names_no_proto (host : Host) : Prop :=
  (forall v, Object_toString host v <> Some "__proto__"%string) /\
  (forall n, Number_toString_inexact host n <> "__proto__"%string).

(** A value in which no text and no byte string that would be a key is
    [__proto__]. *)
Fixpoint without_proto (v : value) : Prop :=
  match v with
  | VString s => s <> "__proto__"%string
  | VBuffer octets => Buffer_toString octets <> "__proto__"%string
  | VArray elems =>
      (fix all (l : list value) : Prop :=
         match l with
         | [] => True
         | x :: r => without_proto x /\ all r
         end) elems
  | _ => True
  end.

(** The octets of the text [__proto__]. *)
Definition proto_octets : list Z := octets_of_string "__proto__".

(** An outcome of a parsing function on a stream that does not hold
    [__proto__]: the model goes as far as the program, and what is left
    of the stream is its end. *)
Definition within_model (bs : list Z) (o : outcome parsed) : Prop :=
  o <> NotModelled /\
  forall v tg bs', o = Ok ((v, tg), bs') ->
    without_proto v /\ exists read, bs = read ++ bs'.

(** An outcome of the program: the callback was called, with an item or
    with an error, or an exception was thrown, or the parser waits for
    bytes. *)
Definition program_outcome {A : Type} (o : outcome A) : Prop :=
  match o with
  | Ok _ | CbError _ | Throw _ | Pending => True
  | NotModelled | OutOfFuel => False
  end.

(** A string in which a comma stands. *)
Definition has_comma (s : string) : bool :=
  existsb (Ascii.eqb ",") (list_ascii_of_string s).
(** An outcome that waits: the callback has not been called. *)
Definition awaits {A : Type} (o : outcome A) : Prop :=
  o = Pending \/ o = OutOfFuel.

(** No part of [bytes] that stops short of their end makes the parser
    call back. *)
Definition starves (host : Host) (parser : Parser) (bytes : list Z) : Prop :=
  forall (p s : list Z) (f : nat) (tagged : bool),
    bytes = p ++ s -> s <> [] -> awaits (_unpack host parser f p tagged).

(** The bytes of one item [v]. *)
Definition item (host : Host) (parser : Parser) (bytes : list Z) (v : value)
  : Prop :=
  reads_as host parser bytes v /\ starves host parser bytes.

(** [gen] appends to the buffer the bytes of the item [v]. *)
Definition writes_item (host : Host) (parser : Parser)
           (gen : value -> Gen unit) (v : value) : Prop :=
  forall b, exists bytes,
    gen v b = (Ok tt, b ++ bytes) /\ item host parser bytes v.

(* ================================================================== *)
(** * Properties: integers and bit fields *)
(* ================================================================== *)

Lemma to_int32_small (z : Z) : 0 <= z < 2^31 -> to_int32 z = z.
Proof.
  intros Hz. unfold to_int32.
  rewrite Z.mod_small by lia.
  destruct (Z.ltb_spec z (2^31)); lia.
Qed.

Lemma to_int32_neg (z : Z) : - 2^31 <= z < 0 -> to_int32 z = z.
Proof.
  intros Hz. unfold to_int32.
  replace (z mod 2^32) with (z + 2^32).
  - destruct (Z.ltb_spec (z + 2^32) (2^31)); lia.
  - apply Z.mod_unique with (q := -1); lia.
Qed.

Lemma to_int32_id (z : Z) : - 2^31 <= z < 2^31 -> to_int32 z = z.
Proof.
  intros Hz. destruct (Z_lt_le_dec z 0).
  - apply to_int32_neg; lia.
  - apply to_int32_small; lia.
Qed.

(** A field shifted left of [n] bits shares no bit with a value below
    [2^n]: the bitwise or is the sum. *)
Lemma land_shiftl_low (a b n : Z) :
  0 <= n -> 0 <= b < 2^n -> Z.land (Z.shiftl a n) b = 0.
Proof.
  intros Hn Hb. apply Z.bits_inj'. intros k Hk.
  rewrite Z.land_spec, Z.bits_0.
  destruct (Z_lt_le_dec k n) as [Hlt | Hge].
  - rewrite Z.shiftl_spec_low by lia. reflexivity.
  - assert (Hbk : Z.testbit b k = false).
    { destruct (Z.eq_dec b 0) as [-> | Hnz]; [apply Z.bits_0 |].
      apply Z.bits_above_log2; [lia |].
      assert (Z.log2 b < n) by (apply Z.log2_lt_pow2; lia). lia. }
    rewrite Hbk. apply andb_false_r.
Qed.

Lemma lor_shiftl_low (a b n : Z) :
  0 <= n -> 0 <= b < 2^n -> Z.lor (Z.shiftl a n) b = a * 2^n + b.
Proof.
  intros Hn Hb.
  pose proof (Z.add_lor_land (Z.shiftl a n) b) as H.
  rewrite land_shiftl_low in H by assumption.
  assert (E : Z.shiftl a n = a * 2^n) by (apply Z.shiftl_mul_pow2; lia).
  lia.
Qed.

(** The initial byte of an item: major type [mt] in the three high bits,
    additional information [ai] in the five low bits. *)
Lemma initial_byte_value (mt ai : Z) :
  0 <= mt < 8 -> 0 <= ai < 32 ->
  js_or (js_shl mt 5) ai = mt * 32 + ai /\
  js_or (js_shl mt 5) ai = Z.lor (Z.shiftl mt 5) ai.
Proof.
  intros Hmt Hai. unfold js_or, js_shl.
  rewrite (to_int32_small mt) by lia.
  change (5 mod 32) with 5.
  rewrite (to_int32_small ai) by lia.
  assert (Hs : Z.shiftl mt 5 = mt * 32) by (rewrite Z.shiftl_mul_pow2; lia).
  rewrite (to_int32_small (Z.shiftl mt 5)) by lia.
  rewrite (to_int32_small (Z.shiftl mt 5)) by lia.
  split; [| reflexivity].
  rewrite lor_shiftl_low; lia.
Qed.

Lemma be_bytes_1 (v : Z) : BufferStream.be_bytes 1 v = [v mod 256].
Proof. unfold BufferStream.be_bytes. simpl. rewrite Z.div_1_r. reflexivity. Qed.

Lemma be_bytes_2 (v : Z) :
  BufferStream.be_bytes 2 v = [(v / 2^8) mod 256; v mod 256].
Proof. unfold BufferStream.be_bytes. simpl. rewrite Z.div_1_r. reflexivity. Qed.

Lemma be_bytes_4 (v : Z) :
  BufferStream.be_bytes 4 v =
  [(v / 2^24) mod 256; (v / 2^16) mod 256; (v / 2^8) mod 256; v mod 256].
Proof. unfold BufferStream.be_bytes. simpl. rewrite Z.div_1_r. reflexivity. Qed.

Lemma be_bytes_octets (w : nat) (v : Z) :
  Forall is_octet (BufferStream.be_bytes w v).
Proof.
  unfold BufferStream.be_bytes. apply List.Forall_forall. intros x Hx.
  apply in_map_iff in Hx. destruct Hx as [k [<- _]].
  unfold is_octet. apply Z.mod_pos_bound. lia.
Qed.

Lemma be_value_2 (v : Z) :
  0 <= v < 2^16 -> be_value (BufferStream.be_bytes 2 v) = v.
Proof.
  intros Hv. rewrite be_bytes_2. unfold be_value. simpl.
  rewrite (Z.mod_small (v / 2^8)) by (split; [apply Z.div_pos; lia | apply Z.div_lt_upper_bound; lia]).
  pose proof (Z.div_mod v 256 ltac:(lia)). change (2^8) with 256. lia.
Qed.

Lemma be_value_4 (v : Z) :
  0 <= v < 2^32 -> be_value (BufferStream.be_bytes 4 v) = v.
Proof.
  intros Hv. rewrite be_bytes_4. unfold be_value. simpl.
  change (2^24) with (256 * 256 * 256). change (2^16) with (256 * 256).
  change (2^8) with 256.
  rewrite <- !Z.div_div by lia.
  pose proof (Z.div_mod v 256 ltac:(lia)) as H0.
  pose proof (Z.div_mod (v / 256) 256 ltac:(lia)) as H1.
  pose proof (Z.div_mod (v / 256 / 256) 256 ltac:(lia)) as H2.
  assert (H3 : 0 <= v / 256 / 256 / 256 < 256).
  { split.
    - repeat apply Z.div_pos; lia.
    - repeat (apply Z.div_lt_upper_bound; [lia |]). lia. }
  rewrite (Z.mod_small (v / 256 / 256 / 256)) by lia.
  lia.
Qed.

(* ================================================================== *)
(** * Properties of the generator *)
(* ================================================================== *)

Lemma gwrite_writeUInt (width : nat) (v : Z) (b : BufferStream.t) :
  0 <= v < 2^(8 * Z.of_nat width) ->
  gwrite (BufferStream.writeUInt width v) b =
  (Ok tt, b ++ BufferStream.be_bytes width v).
Proof.
  intros Hv. unfold gwrite, BufferStream.writeUInt.
  destruct (Z.leb_spec 0 v); [| lia].
  destruct (Z.ltb_spec v (2^(8 * Z.of_nat width))); [| lia].
  reflexivity.
Qed.

(** The initial byte that [_packInt] writes. *)
Lemma gwrite_initial_byte (mt ai : Z) (b : BufferStream.t) :
  0 <= mt < 8 -> 0 <= ai < 32 ->
  gwrite (BufferStream.writeUInt8 (js_or (js_shl mt 5) ai)) b =
  (Ok tt, b ++ [initial_byte mt ai]) /\
  initial_byte mt ai = Z.lor (Z.shiftl mt 5) ai.
Proof.
  intros Hmt Hai. destruct (initial_byte_value mt ai) as [E1 E2]; [lia | lia |].
  split; [| unfold initial_byte; congruence].
  unfold BufferStream.writeUInt8. rewrite E1.
  rewrite gwrite_writeUInt by (change (2^(8 * Z.of_nat 1)) with 256; lia).
  rewrite be_bytes_1, Z.mod_small by lia. reflexivity.
Qed.

Lemma _packInt_framed (mt n : Z) (bufs : BufferStream.t) :
  0 <= mt < 8 -> 0 <= n <= 0x7fffffff ->
  _packInt n mt bufs = (Ok tt, bufs ++ framed mt n).
Proof.
  intros Hmt Hn.
  assert (Hb : forall ai b, 0 <= ai < 32 ->
            gwrite (BufferStream.writeUInt8 (js_or (js_shl mt 5) ai)) b =
            (Ok tt, b ++ [initial_byte mt ai])).
  { intros ai b Hai. apply gwrite_initial_byte; lia. }
  unfold _packInt, framed, gbind, gthrow.
  destruct (Z.leb_spec n 0x1b).
  { rewrite Hb by lia. reflexivity. }
  destruct (Z.leb_spec n 0xff).
  { rewrite Hb by lia. cbv beta iota. unfold BufferStream.writeUInt8.
    rewrite gwrite_writeUInt by (change (2^(8 * Z.of_nat 1)) with 256; lia).
    rewrite be_bytes_1, Z.mod_small by lia.
    rewrite <- app_assoc. reflexivity. }
  destruct (Z.leb_spec n 0xffff).
  { rewrite Hb by lia. cbv beta iota. unfold BufferStream.writeUInt16BE.
    rewrite gwrite_writeUInt by (change (2^(8 * Z.of_nat 2)) with 65536; lia).
    rewrite <- app_assoc. reflexivity. }
  destruct (Z.leb_spec n 0x7fffffff); [| lia].
  rewrite Hb by lia. cbv beta iota. unfold BufferStream.writeUInt32BE.
  rewrite gwrite_writeUInt by (change (2^(8 * Z.of_nat 4)) with 4294967296; lia).
  rewrite <- app_assoc. reflexivity.
Qed.

(** C1.  Integer framing.  For a major type [mt] in 0..5 and an operand
    [i >= 0], [_packInt] appends to the buffer: the single byte
    [(mt<<5)|i] when [i <= 0x1b]; the byte [(mt<<5)|0x1c] and the byte [i]
    when [0x1b < i <= 0xff]; the byte [(mt<<5)|0x1d] and two octets whose
    big-endian value is [i] when [0xff < i <= 0xffff]; the byte
    [(mt<<5)|0x1e] and four octets whose big-endian value is [i] when
    [0xffff < i <= 0x7fffffff]; and it fails with "Integer out of range",
    leaving the buffer as it was, when [i > 0x7fffffff]. *)
Theorem packInt_framing (mt i : Z) (bufs : BufferStream.t) :
  0 <= mt <= 5 -> 0 <= i ->
  (i <= 0x1b ->
     _packInt i mt bufs = (Ok tt, bufs ++ [Z.lor (Z.shiftl mt 5) i])) /\
  (0x1b < i <= 0xff ->
     _packInt i mt bufs = (Ok tt, bufs ++ [Z.lor (Z.shiftl mt 5) 0x1c; i])) /\
  (0xff < i <= 0xffff ->
     exists payload,
       List.length payload = 2%nat /\ Forall is_octet payload /\
       be_value payload = i /\
       _packInt i mt bufs = (Ok tt, bufs ++ Z.lor (Z.shiftl mt 5) 0x1d :: payload)) /\
  (0xffff < i <= 0x7fffffff ->
     exists payload,
       List.length payload = 4%nat /\ Forall is_octet payload /\
       be_value payload = i /\
       _packInt i mt bufs = (Ok tt, bufs ++ Z.lor (Z.shiftl mt 5) 0x1e :: payload)) /\
  (0x7fffffff < i ->
     _packInt i mt bufs = (Throw (AssertionFail i "Integer out of range"), bufs)).
Proof.
  intros Hmt Hi.
  assert (Hb : forall ai, 0 <= ai < 32 ->
            initial_byte mt ai = Z.lor (Z.shiftl mt 5) ai).
  { intros ai Hai. apply (gwrite_initial_byte mt ai bufs); lia. }
  repeat split.
  - intros H. rewrite _packInt_framed by lia. unfold framed.
    destruct (Z.leb_spec i 0x1b); [| lia]. rewrite Hb by lia. reflexivity.
  - intros H. rewrite _packInt_framed by lia. unfold framed.
    destruct (Z.leb_spec i 0x1b); [lia |].
    destruct (Z.leb_spec i 0xff); [| lia]. rewrite Hb by lia. reflexivity.
  - intros H. exists (BufferStream.be_bytes 2 i).
    split; [reflexivity |]. split; [apply be_bytes_octets |].
    split; [apply be_value_2; lia |].
    rewrite _packInt_framed by lia. unfold framed.
    destruct (Z.leb_spec i 0x1b); [lia |].
    destruct (Z.leb_spec i 0xff); [lia |].
    destruct (Z.leb_spec i 0xffff); [| lia]. rewrite Hb by lia. reflexivity.
  - intros H. exists (BufferStream.be_bytes 4 i).
    split; [reflexivity |]. split; [apply be_bytes_octets |].
    split; [apply be_value_4; lia |].
    rewrite _packInt_framed by lia. unfold framed.
    destruct (Z.leb_spec i 0x1b); [lia |].
    destruct (Z.leb_spec i 0xff); [lia |].
    destruct (Z.leb_spec i 0xffff); [lia |]. rewrite Hb by lia. reflexivity.
  - intros H. unfold _packInt, gthrow.
    destruct (Z.leb_spec i 0x1b); [lia |].
    destruct (Z.leb_spec i 0xff); [lia |].
    destruct (Z.leb_spec i 0xffff); [lia |].
    destruct (Z.leb_spec i 0x7fffffff); [lia |]. reflexivity.
Qed.

Lemma to_int32_range (z : Z) : - 2^31 <= to_int32 z < 2^31.
Proof.
  unfold to_int32.
  pose proof (Z.mod_pos_bound z (2^32) ltac:(lia)).
  destruct (Z.ltb_spec (z mod 2^32) (2^31)); lia.
Qed.

Lemma pack_number (fuel : nat) (n : number) :
  pack (S fuel) (VNumber n) =
  match _packNumber n BufferStream.empty with
  | (Ok _, bufs) => Ok bufs
  | (CbError e, _) => CbError e
  | (Throw e, _) => Throw e
  | (Pending, _) => Pending
  | (NotModelled, _) => NotModelled
  | (OutOfFuel, _) => OutOfFuel
  end.
Proof. reflexivity. Qed.

Lemma _packNumber_int32 (i : Z) (bufs : BufferStream.t) :
  - 2^31 <= i <= 2^31 - 1 ->
  _packNumber (Int i) bufs =
  if 0 <=? i then _packInt i 0 bufs else _packInt (- i - 1) 1 bufs.
Proof.
  intros Hi. unfold _packNumber.
  cbn [isNaN negb andb strict_eq ToInt32 number_geb norm].
  rewrite to_int32_id by lia. rewrite Z.eqb_refl.
  destruct (0 <=? i); reflexivity.
Qed.

(** A number that is not its own 32-bit truncation is written as a
    float. *)
Lemma _packNumber_big (z : Z) (bufs : BufferStream.t) :
  z < - 2^31 \/ 2^31 - 1 < z ->
  _packNumber (Int z) bufs =
  (Ok tt, bufs ++ 0xdf :: BufferStream.be_bytes 8 (bits_of_float (float_of_Z z))).
Proof.
  intros Hz. unfold _packNumber. cbn [isNaN negb andb strict_eq ToInt32 norm].
  pose proof (to_int32_range z).
  destruct (Z.eqb_spec z (to_int32 z)); [lia |].
  unfold gbind, BufferStream.writeUInt8.
  rewrite gwrite_writeUInt by (vm_compute; split; [discriminate | reflexivity]).
  unfold gwrite, BufferStream.writeDoubleBE.
  cbn [to_float]. rewrite <- app_assoc. reflexivity.
Qed.

(** C3, as amended.  Packing an integer outside [-2^31, 2^31 - 1], such
    as 2^31, does not fail: the number is not equal to its 32-bit
    truncation, so it is written as a float, the byte [0xdf] followed by
    the eight big-endian bytes of the double. *)
Theorem pack_big_integer_is_float (fuel : nat) (z : Z) :
  z < - 2^31 \/ 2^31 - 1 < z ->
  pack (S fuel) (VNumber (Int z)) =
  Ok (0xdf :: BufferStream.be_bytes 8 (bits_of_float (float_of_Z z))).
Proof.
  intros Hz. rewrite pack_number, _packNumber_big by assumption. reflexivity.
Qed.

Lemma pack_big_integer_is_float_witness :
  pack 1 (VNumber (Int 2147483648)) =
  Ok (0xdf :: BufferStream.be_bytes 8 (bits_of_float (float_of_Z 2147483648))).
Proof. apply (pack_big_integer_is_float 0 2147483648). right. vm_compute. reflexivity. Defined.

(** C3, as stated, fails: [pack(2147483648)] returns the nine bytes
    [df 41 e0 00 00 00 00 00 00] and throws nothing. *)
Lemma pack_2p31_does_not_fail :
  pack 1 (VNumber (Int 2147483648)) = Ok [0xdf; 0x41; 0xe0; 0; 0; 0; 0; 0; 0] /\
  pack 1 (VNumber (Int 2147483648))
    <> Throw (AssertionFail 2147483648 "Integer out of range").
Proof. split; [vm_compute; reflexivity | vm_compute; discriminate]. Qed.

(** The constants of the simple space, as the generator writes them. *)
Lemma pack_constants (fuel : nat) :
  pack (S fuel) (VBoolean true) = Ok [0xd9] /\
  pack (S fuel) (VBoolean false) = Ok [0xd8] /\
  pack (S fuel) VNull = Ok [0xda] /\
  pack (S fuel) VUndefined = Ok [0xdb].
Proof. repeat split. Qed.

(* ================================================================== *)
(** * Properties of the registries *)
(* ================================================================== *)

Lemma replace_packer_registered (type : ctor) (fn : packer)
      (l : list (ctor * packer)) :
  match replace_packer type fn l with
  | Some (old, l') =>
      registered_packer type l = Some old /\
      registered_packer type l' = Some fn /\
      map fst l' = map fst l /\
      (forall t, t <> type -> registered_packer t l' = registered_packer t l)
  | None => registered_packer type l = None
  end.
Proof.
  unfold registered_packer.
  induction l as [| [t p] rest IH]; [reflexivity |].
  cbn [replace_packer List.find fst].
  destruct (bool_decide (t = type)) eqn:Et.
  - cbn [fst List.find]. rewrite Et.
    split; [reflexivity |]. split; [reflexivity |]. split; [reflexivity |].
    intros t' Ht'. cbn [List.find fst].
    apply bool_decide_eq_true_1 in Et. subst t.
    rewrite bool_decide_eq_false_2 by congruence. reflexivity.
  - destruct (replace_packer type fn rest) as [[old rest'] |].
    + destruct IH as (H1 & H2 & H3 & H4).
      cbn [List.find fst map]. rewrite Et. repeat split; try assumption.
      * f_equal. exact H3.
      * intros t' Ht'. destruct (bool_decide (t = t')); [reflexivity |].
        apply H4; assumption.
    + exact IH.
Qed.

Lemma registered_packer_app_fresh (type : ctor) (fn : packer)
      (l : list (ctor * packer)) :
  registered_packer type l = None ->
  registered_packer type (l ++ [(type, fn)]) = Some fn.
Proof.
  unfold registered_packer.
  induction l as [| [t p] rest IH]; intros H.
  - cbn. rewrite bool_decide_eq_true_2 by reflexivity. reflexivity.
  - cbn [app List.find fst] in *.
    destruct (bool_decide (t = type)); [discriminate H |]. apply IH, H.
Qed.

(** C8.  [addSemanticType(type, fn)] returns the packer that was
    registered for [type], which [fn] replaces in its place, and returns
    [null] when there was none, [fn] being appended; [addSemanticTag(tag,
    fn)] returns the decoder that was registered for [tag] and
    [undefined] when there was none, [fn] being registered either way,
    and no other entry changing. *)
Theorem registries_return_displaced :
  (forall (type : ctor) (fn : packer) (g : Generator),
     match registered_packer type (semanticTypes g) with
     | Some old =>
         exists g', addSemanticType type fn g = (Prior old, g') /\
                    registered_packer type (semanticTypes g') = Some fn /\
                    map fst (semanticTypes g') = map fst (semanticTypes g)
     | None =>
         addSemanticType type fn g =
           (JsNull, {| semanticTypes := semanticTypes g ++ [(type, fn)] |}) /\
         registered_packer type (semanticTypes g ++ [(type, fn)]) = Some fn
     end) /\
  (forall (tag : Z) (fn : decoder) (p : Parser),
     fst (addSemanticTag tag fn p) =
       match semanticTags p !! tag with
       | Some old => Prior old
       | None => JsUndefined
       end /\
     semanticTags (snd (addSemanticTag tag fn p)) !! tag = Some fn /\
     (forall tag', tag' <> tag ->
        semanticTags (snd (addSemanticTag tag fn p)) !! tag' =
        semanticTags p !! tag')).
Proof.
  split.
  - intros type fn g. unfold addSemanticType.
    pose proof (replace_packer_registered type fn (semanticTypes g)) as H.
    destruct (replace_packer type fn (semanticTypes g)) as [[old l'] |].
    + destruct H as (-> & H2 & H3 & _).
      exists {| semanticTypes := l' |}. repeat split; assumption.
    + rewrite H. split; [reflexivity |].
      apply registered_packer_app_fresh, H.
  - intros tag fn p. unfold addSemanticTag. cbn [fst snd semanticTags].
    split; [reflexivity |]. split.
    + apply lookup_insert_eq.
    + intros tag' Hne. apply lookup_insert_ne. congruence.
Qed.

(* ================================================================== *)
(** * Properties of the parser: reading the head of an item *)
(* ================================================================== *)

Lemma wait_app (l rest : list Z) :
  BufferStream.wait (Z.of_nat (List.length l)) (l ++ rest) = Some (l, rest).
Proof.
  unfold BufferStream.wait, BufferStream.length.
  rewrite length_app, Nat2Z.id.
  destruct (Z.leb_spec 0 (Z.of_nat (List.length l))); [| lia].
  destruct (Z.leb_spec (Z.of_nat (List.length l))
              (Z.of_nat (List.length l + List.length rest))); [| lia].
  simpl. rewrite firstn_app, Nat.sub_diag, firstn_all. simpl.
  rewrite app_nil_r, skipn_app, Nat.sub_diag, skipn_all. reflexivity.
Qed.

Lemma wait_1 (o : Z) (rest : list Z) :
  BufferStream.wait 1 (o :: rest) = Some ([o], rest).
Proof. exact (wait_app [o] rest). Qed.

Lemma wait_nil (n : Z) : n <> 0 -> BufferStream.wait n [] = None.
Proof.
  intros Hn. unfold BufferStream.wait, BufferStream.length.
  change (Z.of_nat (List.length (@nil Z))) with 0.
  destruct (Z.leb_spec 0 n), (Z.leb_spec n 0); try reflexivity; lia.
Qed.

(** The two fields of an initial byte, as [_unpack] extracts them. *)
Lemma initial_byte_fields (mt ai : Z) :
  0 <= mt < 8 -> 0 <= ai < 32 ->
  js_shr (initial_byte mt ai) 5 = mt /\ js_and (initial_byte mt ai) 0x1f = ai.
Proof.
  intros Hmt Hai. unfold js_shr, js_and, initial_byte.
  rewrite (to_int32_small (mt * 32 + ai)) by lia.
  change (5 mod 32) with 5. change (to_int32 31) with (Z.ones 5).
  rewrite Z.shiftr_div_pow2, Z.land_ones by lia.
  change (2^5) with 32. split.
  - symmetry. apply Z.div_unique with (r := ai); lia.
  - symmetry. apply Z.mod_unique with (q := mt); lia.
Qed.

Lemma round53_small (z : Z) : Z.abs z < 2^53 -> round53 z = z.
Proof.
  intros Hz. unfold round53.
  destruct (Z.ltb_spec (Z.abs z) (2^53)); [reflexivity | lia].
Qed.

Section ParserFacts.

Variable host : Host.
Variable parser : Parser.


(** An initial byte whose additional information is below 28 carries
    its operand. *)
Lemma _unpack_immediate (fuel : nat) (mt ai : Z) (rest : list Z) (tagged : bool) :
  0 <= mt < 8 -> 0 <= ai < 28 ->
  _unpack host parser (S fuel) (initial_byte mt ai :: rest) tagged =
  _getVal host parser fuel mt ai rest tagged.
Proof.
  intros Hmt Hai. cbn [_unpack].
  rewrite wait_1. cbn [octet_at nth].
  destruct (initial_byte_fields mt ai) as [-> ->]; [lia | lia |].
  destruct (Z.leb_spec 0 (ai - 28)); [lia | reflexivity].
Qed.

(** The head [framed mt n] of an item that is not of major type 6 is
    read back as the operand [n]. *)
Lemma _unpack_framed (fuel : nat) (mt n : Z) (rest : list Z) (tagged : bool) :
  0 <= mt < 8 -> mt <> 6 -> 0 <= n <= 0x7fffffff ->
  _unpack host parser (S fuel) (framed mt n ++ rest) tagged =
  _getVal host parser fuel mt n rest tagged.
Proof.
  intros Hmt H6 Hn. unfold framed.
  destruct (Z.leb_spec n 0x1b).
  { apply _unpack_immediate; lia. }
  assert (Hhead : forall ai payload,
    28 <= ai < 32 ->
    List.length payload = Z.to_nat (js_shl 1 (ai - 28)) ->
    _unpackInt ai payload = Ok n ->
    _unpack host parser (S fuel) ((initial_byte mt ai :: payload) ++ rest) tagged =
    _getVal host parser fuel mt n rest tagged).
  { intros ai payload Hai Hlen Hint. cbn [_unpack app].
    rewrite wait_1. cbn [octet_at nth].
    destruct (initial_byte_fields mt ai) as [-> ->]; [lia | lia |].
    destruct (Z.leb_spec 0 (ai - 28)); [| lia].
    replace (js_shl 1 (ai - 28)) with (Z.of_nat (List.length payload)).
    2:{ rewrite Hlen. rewrite Z2Nat.id; [reflexivity |].
        assert (ai = 28 \/ ai = 29 \/ ai = 30 \/ ai = 31) as [-> | [-> | [-> | ->]]]
          by lia; vm_compute; discriminate. }
    rewrite wait_app.
    destruct (Z.eqb_spec mt 6); [contradiction |].
    rewrite Hint. reflexivity. }
  destruct (Z.leb_spec n 0xff).
  { apply (Hhead 0x1c [n]); [lia | reflexivity |].
    unfold _unpackInt, readUIntBE, be_value. simpl. reflexivity. }
  destruct (Z.leb_spec n 0xffff).
  { apply (Hhead 0x1d (BufferStream.be_bytes 2 n)); [lia | reflexivity |].
    unfold _unpackInt, readUIntBE. simpl.
    rewrite <- (be_value_2 n) at 3 by lia. reflexivity. }
  apply (Hhead 0x1e (BufferStream.be_bytes 4 n)); [lia | reflexivity |].
  unfold _unpackInt, readUIntBE. simpl.
  rewrite <- (be_value_4 n) at 5 by lia. reflexivity.
Qed.

End ParserFacts.

Lemma be_value_acc (l : list Z) (acc : Z) :
  fold_left (fun a o => a * 256 + o) l acc =
  acc * 256 ^ Z.of_nat (List.length l) + be_value l.
Proof.
  unfold be_value. revert acc.
  induction l as [| o l IH]; intros acc.
  - cbn. lia.
  - cbn [fold_left List.length]. rewrite IH, (IH (0 * 256 + o)).
    rewrite Nat2Z.inj_succ, Z.pow_succ_r by lia. lia.
Qed.

Lemma be_value_app (a b : list Z) :
  be_value (a ++ b) = be_value a * 256 ^ Z.of_nat (List.length b) + be_value b.
Proof.
  unfold be_value at 1. rewrite fold_left_app. fold (be_value a).
  apply be_value_acc.
Qed.

Lemma be_value_bound (l : list Z) :
  Forall is_octet l -> 0 <= be_value l < 256 ^ Z.of_nat (List.length l).
Proof.
  induction 1 as [| o l Ho Hl IH].
  - cbn. lia.
  - change (o :: l) with ([o] ++ l). rewrite be_value_app, length_app.
    change (be_value [o]) with (0 * 256 + o). unfold is_octet in Ho.
    rewrite Nat2Z.inj_add. change (Z.of_nat (List.length [o])) with 1.
    rewrite Z.pow_add_r by lia. change (256 ^ 1) with 256.
    assert (0 < 256 ^ Z.of_nat (List.length l)) by (apply Z.pow_pos_nonneg; lia).
    nia.
Qed.

Section HeadFacts.

Variable host : Host.
Variable parser : Parser.

(** [_unpack] reads a head and goes on with its major type and operand,
    except in the simple and float space of major type 6. *)
Lemma _unpack_head (fuel : nat) (mt num : Z) (h rest : list Z) (tagged : bool) :
  0 <= mt < 8 -> mt <> 6 -> head mt num h ->
  _unpack host parser (S fuel) (h ++ rest) tagged =
  _getVal host parser fuel mt num rest tagged.
Proof.
  intros Hmt H6 Hh. destruct Hh as [ai Hai | ai payload Hai Hlen Hoct].
  { apply _unpack_immediate; lia. }
  cbn [_unpack app]. rewrite wait_1. cbn [octet_at nth].
  destruct (initial_byte_fields mt ai) as [-> ->]; [lia | lia |].
  destruct (Z.leb_spec 0 (ai - 28)); [| lia].
  assert (Hs : js_shl 1 (ai - 28) = 2^(ai - 28)).
  { assert (ai = 28 \/ ai = 29 \/ ai = 30 \/ ai = 31) as [-> | [-> | [-> | ->]]]
      by lia; reflexivity. }
  rewrite Hs, <- Hlen, wait_app.
  destruct (Z.eqb_spec mt 6); [contradiction |].
  pose proof (be_value_bound payload Hoct) as Hb. rewrite Hlen in Hb.
  assert (Hint : _unpackInt ai payload = Ok (round53 (be_value payload))).
  { unfold _unpackInt, readUIntBE.
    assert (Hsk : skipn 0 payload = payload) by reflexivity.
    assert (ai = 28 \/ ai = 29 \/ ai = 30 \/ ai = 31) as [-> | [-> | [-> | ->]]]
      by lia.
    - change (2 ^ (28 - 28)) with 1 in *.
      assert (Hl : List.length payload = 1%nat) by lia.
      rewrite Hl, Hsk. cbn [Z.eqb Pos.eqb Nat.leb Nat.add obind].
      rewrite take_ge by lia. rewrite round53_small by lia. reflexivity.
    - change (2 ^ (29 - 28)) with 2 in *.
      assert (Hl : List.length payload = 2%nat) by lia.
      rewrite Hl, Hsk. cbn [Z.eqb Pos.eqb Nat.leb Nat.add obind].
      rewrite take_ge by lia. rewrite round53_small by lia. reflexivity.
    - change (2 ^ (30 - 28)) with 4 in *.
      assert (Hl : List.length payload = 4%nat) by lia.
      rewrite Hl, Hsk. cbn [Z.eqb Pos.eqb Nat.leb Nat.add obind].
      rewrite take_ge by lia. rewrite round53_small by lia. reflexivity.
    - change (2 ^ (31 - 28)) with 8 in *.
      assert (Hl : List.length payload = 8%nat) by lia.
      rewrite Hl, Hsk. cbn [Z.eqb Pos.eqb Nat.leb Nat.add obind].
      rewrite <- (firstn_skipn 4 payload) at 3.
      rewrite be_value_app.
      assert (Hl4 : List.length (skipn 4 payload) = 4%nat)
        by (rewrite length_skipn; lia).
      rewrite Hl4. rewrite (take_ge (skipn 4 payload)) by lia.
      reflexivity. }
  rewrite Hint. reflexivity.
Qed.

End HeadFacts.

(* ================================================================== *)
(** * Properties of the parser: integers and simple values *)
(* ================================================================== *)

Lemma unpack_fuel_S (bs : BufferStream.t) :
  unpack_fuel bs = S (S (S (S (4 * List.length bs)))).
Proof. unfold unpack_fuel. lia. Qed.

(** C2.  Integer round trip.  For every integer [i] of [-2^31, 2^31 - 1],
    [pack] writes [i] with [_packInt(i, 0)] when [i >= 0] and with
    [_packInt(-i-1, 1)] when [i < 0], and [unpack] of these bytes calls
    back with [i]. *)
Theorem integer_round_trip (host : Host) (fuel : nat) (i : Z) :
  - 2^31 <= i <= 2^31 - 1 ->
  exists bytes,
    pack (S fuel) (VNumber (Int i)) = Ok bytes /\
    (Ok tt, bytes) = (if 0 <=? i then _packInt i 0 BufferStream.empty
                      else _packInt (- i - 1) 1 BufferStream.empty) /\
    unpack host bytes = Ok (VNumber (Int i), None).
Proof.
  intros Hi.
  exists (if 0 <=? i then framed 0 i else framed 1 (- i - 1)).
  rewrite pack_number, _packNumber_int32 by assumption.
  unfold unpack, Parser_unpack. cbn [Z.eqb].
  rewrite unpack_fuel_S.
  destruct (Z.leb_spec 0 i).
  - rewrite _packInt_framed by lia. cbn [app BufferStream.empty].
    repeat split.
    rewrite <- (app_nil_r (framed 0 i)) at 2.
    rewrite _unpack_framed by lia. reflexivity.
  - rewrite _packInt_framed by lia. cbn [app BufferStream.empty].
    repeat split.
    rewrite <- (app_nil_r (framed 1 (- i - 1))) at 2.
    rewrite _unpack_framed by lia. cbn [_getVal Z.eqb obind].
    replace (-1 - (- i - 1)) with i by lia.
    rewrite round53_small by lia. reflexivity.
Qed.

Lemma integer_round_trip_witness :
  exists bytes,
    pack 1 (VNumber (Int (-2147483648))) = Ok bytes /\
    (Ok tt, bytes) = (if 0 <=? -2147483648
                      then _packInt (-2147483648) 0 BufferStream.empty
                      else _packInt (- -2147483648 - 1) 1 BufferStream.empty) /\
    unpack plain_host bytes = Ok (VNumber (Int (-2147483648)), None).
Proof. apply (integer_round_trip plain_host 0 (-2147483648)). lia. Defined.

Section SimpleValues.

Variable host : Host.

(** C7.  [new Unallocated(num)] succeeds exactly when [num] is a number
    whose value is an integer of [0, 255]; with 256 and with -1 it
    throws. *)
Theorem Unallocated_range (num : value) :
  ((exists u, Unallocated host num = Ok u) <->
   (exists n, num = VNumber n /\ integer_in 0 255 n)) /\
  Unallocated host (VNumber (Int 256)) =
    Throw (Error "num must be a small positive integer: 256") /\
  Unallocated host (VNumber (Int (-1))) =
    Throw (Error "num must be a small positive integer: -1").
Proof.
  split; [| split; reflexivity].
  destruct num as [| | b | n | s | | l | c props | o | o | t | src | n];
    try (split; [intros [u Hu]; discriminate Hu
                | intros [n' [Hn' _]]; discriminate Hn']).
  unfold Unallocated, number_ltb, strict_eq, ToInt32, integer_in.
  cbn [norm]. destruct (norm n) as [z | | f] eqn:En.
  - destruct (Z.ltb_spec z 0); cbn [orb].
    { split; [intros [u Hu]; discriminate Hu |].
      intros [n' [Hn' Hr]]. injection Hn' as <-. rewrite En in Hr. lia. }
    destruct (Z.ltb_spec 255 z); cbn [orb].
    { split; [intros [u Hu]; discriminate Hu |].
      intros [n' [Hn' Hr]]. injection Hn' as <-. rewrite En in Hr. lia. }
    rewrite to_int32_small by lia. rewrite Z.eqb_refl. cbn [negb].
    split; [| intros _; eexists; reflexivity].
    intros _. exists n. split; [reflexivity | rewrite En; lia].
  - cbn. split; [| intros _; eexists; reflexivity].
    intros _. exists n. split; [reflexivity | rewrite En; lia].
  - cbn [negb]. rewrite orb_true_r.
    split; [intros [u Hu]; discriminate Hu |].
    intros [n' [Hn' Hr]]. injection Hn' as <-. rewrite En in Hr. destruct Hr.
Qed.

Variable parser : Parser.

(** C6.  [true] is written as the byte [0xd9], [false] as [0xd8], [null]
    as [0xda] and [undefined] as [0xdb]; and an initial byte of major type
    6 is read as [false] when its additional information is 24, as [true]
    when 25, as [null] when 26 and as [undefined] when 27. *)
Theorem simple_constants (fuel : nat) (rest : list Z) (tagged : bool) :
  (pack (S fuel) (VBoolean true) = Ok [0xd9] /\
   pack (S fuel) (VBoolean false) = Ok [0xd8] /\
   pack (S fuel) VNull = Ok [0xda] /\
   pack (S fuel) VUndefined = Ok [0xdb]) /\
  (_unpack host parser (S (S fuel)) (initial_byte 6 24 :: rest) tagged
     = Ok ((VBoolean false, None), rest) /\
   _unpack host parser (S (S fuel)) (initial_byte 6 25 :: rest) tagged
     = Ok ((VBoolean true, None), rest) /\
   _unpack host parser (S (S fuel)) (initial_byte 6 26 :: rest) tagged
     = Ok ((VNull, None), rest) /\
   _unpack host parser (S (S fuel)) (initial_byte 6 27 :: rest) tagged
     = Ok ((VUndefined, None), rest)) /\
  (initial_byte 6 24 = 0xd8 /\ initial_byte 6 25 = 0xd9 /\
   initial_byte 6 26 = 0xda /\ initial_byte 6 27 = 0xdb) /\
  (unpack host [0xd8] = Ok (VBoolean false, None) /\
   unpack host [0xd9] = Ok (VBoolean true, None) /\
   unpack host [0xda] = Ok (VNull, None) /\
   unpack host [0xdb] = Ok (VUndefined, None)).
Proof.
  split; [exact (pack_constants fuel) |].
  split; [| split; [repeat split |]].
  - repeat split; rewrite _unpack_immediate by lia; reflexivity.
  - unfold unpack, Parser_unpack. cbn [Z.eqb]. rewrite !unpack_fuel_S.
    repeat split;
      match goal with
      | |- context [_unpack _ _ _ [?o] _] =>
          change o with (initial_byte 6 (o - 192))
      end;
      rewrite _unpack_immediate by lia; reflexivity.
Qed.

End SimpleValues.

(* ================================================================== *)
(** * Properties of the parser: half-precision floats *)
(* ================================================================== *)

Lemma octet_in_octets (o : Z) : is_octet o -> In o octets.
Proof.
  intros Ho. unfold octets. apply in_map_iff.
  exists (Z.to_nat o). split; [apply Z2Nat.id; apply Ho |].
  apply in_seq. unfold is_octet in Ho. lia.
Qed.

Lemma half_decoded_all :
  forallb (fun b0 => forallb (fun b1 => half_decoded b0 b1 (_unpackHalf [b0; b1]))
                             octets) octets = true.
Proof. vm_compute. reflexivity. Qed.

Lemma half_decoded_octets (b0 b1 : Z) :
  is_octet b0 -> is_octet b1 -> half_decoded b0 b1 (_unpackHalf [b0; b1]) = true.
Proof.
  intros H0 H1. pose proof half_decoded_all as H.
  rewrite forallb_forall in H. specialize (H b0 (octet_in_octets b0 H0)).
  rewrite forallb_forall in H. exact (H b1 (octet_in_octets b1 H1)).
Qed.

(** C4.  Half-precision decoding.  For the two bytes [b0 b1], with the
    sign in bit 15, the exponent [exp] in bits 14..10 and the mantissa
    [mant] in bits 9..0: when [exp = 0] the result is exactly
    [sign * 2^-24 * mant] (a zero keeping the sign); when [exp] is all
    ones the result is NaN if [mant <> 0] and the infinity of the sign
    otherwise; otherwise the result is exactly
    [sign * 2^(exp-25) * (1024 + mant)].  So [0x0000] is 0, [0x8000] is
    -0, [0x0400] is 6.103515625e-5, [0x7c00] and [0xfc00] are the
    infinities, [0x3c00] is 1, [0xc000] is -2 and [0x7bff] is 65504. *)
Theorem unpackHalf_value (b0 b1 : Z) :
  is_octet b0 -> is_octet b1 ->
  let w := b0 * 256 + b1 in
  let neg := Z.testbit w 15 in
  let exp := (w / 2^10) mod 2^5 in
  let mant := w mod 2^10 in
  let r := _unpackHalf [b0; b1] in
  ((exp = 0 -> is_exactly r neg mant (-24) = true) /\
   (exp = 31 -> mant <> 0 -> Prim2SF r = S754_nan) /\
   (exp = 31 -> mant = 0 -> Prim2SF r = S754_infinity neg) /\
   (0 < exp < 31 -> is_exactly r neg (1024 + mant) (exp - 25) = true)) /\
  (_unpackHalf [0x00; 0x00] = 0%float /\
   _unpackHalf [0x80; 0x00] = (-0)%float /\
   _unpackHalf [0x04; 0x00] = 6.103515625e-5%float /\
   _unpackHalf [0x7c; 0x00] = PrimFloat.infinity /\
   _unpackHalf [0xfc; 0x00] = PrimFloat.neg_infinity /\
   _unpackHalf [0x3c; 0x00] = 1%float /\
   _unpackHalf [0xc0; 0x00] = (-2)%float /\
   _unpackHalf [0x7b; 0xff] = 65504%float).
Proof.
  intros H0 H1 w neg exp mant r.
  split; [| repeat split; vm_compute; reflexivity].
  pose proof (half_decoded_octets b0 b1 H0 H1) as H.
  unfold half_decoded in H. fold w in H. fold neg exp mant r in H.
  repeat split.
  - intros E. rewrite E in H. exact H.
  - intros E Hm. rewrite E in H. cbn [Z.eqb Pos.eqb] in H.
    destruct (Prim2SF r) as [s | s | | s m e]; try discriminate H; [| reflexivity].
    apply andb_prop in H. destruct H as [_ H].
    apply Z.eqb_eq in H. contradiction.
  - intros E Hm. rewrite E, Hm in H. cbn [Z.eqb Pos.eqb negb] in H.
    destruct (Prim2SF r) as [s | s | | s m e]; try discriminate H.
    apply andb_prop in H. destruct H as [H _].
    apply Bool.eqb_prop in H. rewrite H. reflexivity.
  - intros E. destruct (Z.eqb_spec exp 0); [lia |].
    destruct (Z.eqb_spec exp 31); [lia |]. exact H.
Qed.

Lemma unpackHalf_value_witness :
  is_exactly (_unpackHalf [0x3c; 0x00]) false 1024 (-10) = true.
Proof.
  assert (H0 : is_octet 0x3c) by (unfold is_octet; lia).
  assert (H1 : is_octet 0x00) by (unfold is_octet; lia).
  destruct (unpackHalf_value 0x3c 0x00 H0 H1) as [[_ [_ [_ H]]] _].
  apply H. vm_compute. split; reflexivity.
Defined.

(* ================================================================== *)
(** * Properties of the parser: the recursive descent *)
(* ================================================================== *)

Lemma obind_settled {A B : Type} (o : outcome A) (k : A -> outcome B) :
  settled (obind o k) -> settled o.
Proof. unfold settled. destruct o; cbn; congruence. Qed.

Lemma obind_no_framing_error {A B : Type} (o : outcome A) (k : A -> outcome B) :
  no_framing_error o -> (forall a, o = Ok a -> no_framing_error (k a)) ->
  no_framing_error (obind o k).
Proof.
  unfold no_framing_error. intros Ho Hk e He.
  destruct o as [a | e' | e' | | |]; cbn in He.
  - exact (Hk a eq_refl e He).
  - apply Ho. destruct He as [He | He]; [discriminate He |].
    injection He as <-. right. reflexivity.
  - apply Ho. destruct He as [He | He]; [| discriminate He].
    injection He as <-. left. reflexivity.
  - destruct He; discriminate.
  - destruct He; discriminate.
  - destruct He; discriminate.
Qed.

Lemma Ok_no_framing_error {A : Type} (a : A) : no_framing_error (Ok a).
Proof. intros e [He | He]; discriminate He. Qed.

Lemma Pending_no_framing_error {A : Type} : no_framing_error (@Pending A).
Proof. intros e [He | He]; discriminate He. Qed.

Lemma NotModelled_no_framing_error {A : Type} :
  no_framing_error (@NotModelled A).
Proof. intros e [He | He]; discriminate He. Qed.

Lemma OutOfFuel_no_framing_error {A : Type} : no_framing_error (@OutOfFuel A).
Proof. intros e [He | He]; discriminate He. Qed.

Lemma Error_no_framing_error {A : Type} (msg : string) :
  no_framing_error (@Throw A (Error msg)) /\
  no_framing_error (@CbError A (Error msg)).
Proof.
  split; intros e [He | He]; try discriminate He;
    injection He as <-; intros [ai Hai]; discriminate Hai.
Qed.

Lemma readUIntBE_no_framing_error (w off : nat) (buf : list Z) :
  no_framing_error (readUIntBE w off buf).
Proof.
  unfold readUIntBE. destruct (off + w <=? List.length buf)%nat.
  - apply Ok_no_framing_error.
  - intros e [He | He]; try discriminate He.
    injection He as <-. intros [ai Hai]; discriminate Hai.
Qed.

(** The additional information of any initial byte is in [0, 31]. *)
Lemma additional_info_range (octet : Z) : 0 <= js_and octet 0x1f <= 31.
Proof.
  unfold js_and. change (to_int32 31) with (Z.ones 5).
  rewrite Z.land_ones by lia.
  pose proof (Z.mod_pos_bound (to_int32 octet) (2^5) ltac:(lia)). lia.
Qed.

(** [_unpackInt] handles each of 28, 29, 30 and 31. *)
Lemma _unpackInt_handled (ai : Z) (buf : list Z) :
  28 <= ai <= 31 -> no_framing_error (_unpackInt ai buf).
Proof.
  intros Hai. unfold _unpackInt.
  assert (ai = 28 \/ ai = 29 \/ ai = 30 \/ ai = 31) as [-> | [-> | [-> | ->]]]
    by lia; cbn [Z.eqb Pos.eqb]; try apply readUIntBE_no_framing_error.
  apply obind_no_framing_error; [apply readUIntBE_no_framing_error |].
  intros f _. apply obind_no_framing_error; [apply readUIntBE_no_framing_error |].
  intros g _. apply Ok_no_framing_error.
Qed.

Lemma TypeError_no_framing_error {A : Type} (msg : string) :
  no_framing_error (@Throw A (TypeError msg)).
Proof.
  intros e [He | He]; try discriminate He.
  injection He as <-. intros [ai Hai]. discriminate Hai.
Qed.

(** Induction on a value through the elements of the arrays. *)
Lemma value_elements_ind (P : value -> Prop) :
  (forall v, (forall l, v <> VArray l) -> P v) ->
  (forall l, Forall P l -> P (VArray l)) ->
  forall v, P v.
Proof.
  intros Hother Harray. fix IH 1. intros v.
  destruct v as [| | b | n | s | | l | c props | o | o | t | src | n];
    try (apply Hother; intros l'; discriminate).
  apply Harray. induction l as [| e r IHr]; constructor; [apply IH | exact IHr].
Qed.

(** [ToString] returns a string or throws a TypeError. *)
Lemma ToString_cases (host : Host) (v : value) :
  (exists x, ToString host v = Ok x) \/ ToString host v = cannot_convert.
Proof.
  assert (Hhost : forall w,
            (exists x, match Object_toString host w with
                       | Some x => Ok x
                       | None => cannot_convert
                       end = Ok x) \/
            match Object_toString host w with
            | Some x => Ok x
            | None => @cannot_convert string
            end = cannot_convert).
  { intros w. destruct (Object_toString host w); [left; eexists |]; auto. }
  induction v as [v Hv | l Hl] using value_elements_ind.
  - destruct v as [| | b | n | s | | l | c props | o | o | t | src | n];
      try (left; eexists; reflexivity); try apply Hhost.
    + exfalso. apply (Hv l). reflexivity.
    + cbn [ToString]. destruct c; try apply Hhost.
      destruct (own_conversion props); [apply Hhost |].
      destruct (get_prop props "toString");
        [right; reflexivity | left; eexists; reflexivity].
  - cbn [ToString]. generalize ""%string as sep.
    induction Hl as [| e r He Hr IHr]; intros sep.
    + left. eexists. reflexivity.
    + cbn [join].
      assert (He' : (exists x, match e with
                              | VUndefined | VNull => Ok ""%string
                              | _ => ToString host e
                              end = Ok x) \/
                    match e with
                    | VUndefined | VNull => Ok ""%string
                    | _ => ToString host e
                    end = cannot_convert).
      { destruct e; try exact He; left; eexists; reflexivity. }
      destruct He' as [[x Hx] | Hx]; rewrite Hx; cbn [obind cannot_convert];
        [| right; reflexivity].
      destruct (IHr ","%string) as [[y Hy] | Hy]; rewrite Hy;
        cbn [obind cannot_convert]; [left; eexists | right]; reflexivity.
Qed.

Lemma ToString_no_framing_error (host : Host) (v : value) :
  no_framing_error (ToString host v).
Proof.
  destruct (ToString_cases host v) as [[x ->] | ->].
  - apply Ok_no_framing_error.
  - apply TypeError_no_framing_error.
Qed.

Lemma ToString_settled (host : Host) (v : value) : settled (ToString host v).
Proof.
  destruct (ToString_cases host v) as [[x ->] | ->]; discriminate.
Qed.

Lemma Object_put_no_framing_error (res : list (string * value)) (name : string)
      (val : value) :
  no_framing_error (Object_put res name val).
Proof.
  unfold Object_put. destruct (String.eqb name "__proto__");
    [| apply Ok_no_framing_error].
  destruct val; try apply Ok_no_framing_error;
    intros e [He | He]; discriminate He.
Qed.

Lemma Object_put_settled (res : list (string * value)) (name : string)
      (val : value) :
  settled (Object_put res name val).
Proof.
  unfold settled, Object_put. destruct (String.eqb name "__proto__");
    [| discriminate].
  destruct val; discriminate.
Qed.

Section Descent.

Variable host : Host.
Variable parser : Parser.

Lemma Unallocated_no_framing_error (num : value) :
  no_framing_error (Unallocated host num).
Proof.
  unfold Unallocated.
  destruct num; try apply Error_no_framing_error.
  match goal with |- context [if ?c then _ else _] => destruct c end;
    [apply Error_no_framing_error | apply Ok_no_framing_error].
Qed.

Lemma _unpackSmallNumber_no_framing_error (ai : Z) (buf : option (list Z)) :
  no_framing_error (_unpackSmallNumber host ai buf).
Proof.
  unfold _unpackSmallNumber.
  repeat match goal with
         | |- no_framing_error (if ?c then _ else _) => destruct c
         | |- no_framing_error (obind _ _) => apply obind_no_framing_error
         | |- no_framing_error (Unallocated _ _) => apply Unallocated_no_framing_error
         | |- no_framing_error (readUIntBE _ _ _) => apply readUIntBE_no_framing_error
         | |- no_framing_error (Ok _) => apply Ok_no_framing_error
         | |- no_framing_error Pending => apply Pending_no_framing_error
         | |- no_framing_error (match buf with _ => _ end) => destruct buf
         | |- forall _, _ => intros
         end;
    intros e [He | He]; try discriminate He;
    injection He as <-; intros [a Ha]; discriminate Ha.
Qed.

(** The equations of the parsing functions. *)
Lemma _unpack_eq (fuel : nat) (bs : BufferStream.t) (tagged : bool) :
  _unpack host parser (S fuel) bs tagged =
  match BufferStream.wait 1 bs with
  | None => Pending
  | Some (buf, bs) =>
      let octet := octet_at buf 0 in
      let mt := js_shr octet 5 in
      let ai := js_and octet 0x1f in
      let additionalBytes := ai - 28 in
      if 0 <=? additionalBytes then
        match BufferStream.wait (js_shl 1 additionalBytes) bs with
        | None => Pending
        | Some (buf, bs) =>
            if mt =? 6 then
              obind (_unpackSmallNumber host ai (Some buf)) (fun d => Ok (d, bs))
            else
              obind (_unpackInt ai buf) (fun num =>
              _getVal host parser fuel mt num bs tagged)
        end
      else
        _getVal host parser fuel mt ai bs tagged
  end.
Proof. reflexivity. Qed.

Lemma _getVal_eq (fuel : nat) (mt num : Z) (bs : BufferStream.t) (tagged : bool) :
  _getVal host parser (S fuel) mt num bs tagged =
  if mt =? 0 then Ok ((VNumber (Int num), None), bs)
  else if mt =? 1 then Ok ((VNumber (Int (round53 (-1 - num))), None), bs)
  else if mt =? 2 then
    match BufferStream.wait num bs with
    | None => Pending
    | Some (buf, bs) => Ok ((VBuffer buf, None), bs)
    end
  else if mt =? 3 then
    match BufferStream.wait num bs with
    | None => Pending
    | Some (buf, bs) => Ok ((VString (Buffer_toString buf), None), bs)
    end
  else if mt =? 4 then _unpackArray host parser fuel bs num []
  else if mt =? 5 then _unpackMap host parser fuel bs num []
  else if mt =? 6 then
    obind (_unpackSmallNumber host num None) (fun d => Ok (d, bs))
  else if mt =? 7 then
    if tagged then CbError (Error "Tag must not follow a tag")
    else _unpackSemanticTag host parser fuel num bs
  else Throw (AssertionError "Invalid state.  Can't get here.").
Proof. reflexivity. Qed.

Lemma _unpackSemanticTag_eq (fuel : nat) (tag : Z) (bs : BufferStream.t) :
  _unpackSemanticTag host parser (S fuel) tag bs =
  obind (_unpack host parser fuel bs true) (fun '((obj, _), bs) =>
  match semanticTags parser !! tag with
  | Some f => obind (f tag obj) (fun d => Ok (d, bs))
  | None => Ok ((obj, Some tag), bs)
  end).
Proof. reflexivity. Qed.

Lemma _unpackArray_eq (fuel : nat) (bs : BufferStream.t) (left : Z)
      (res : list value) :
  _unpackArray host parser (S fuel) bs left res =
  if left =? 0 then Ok ((VArray res, None), bs)
  else
    obind (_unpack host parser fuel bs false) (fun '((obj, _), bs) =>
    _unpackArray host parser fuel bs (round53 (left - 1)) (res ++ [obj])).
Proof. reflexivity. Qed.

Lemma _unpackMap_eq (fuel : nat) (bs : BufferStream.t) (left : Z)
      (res : list (string * value)) :
  _unpackMap host parser (S fuel) bs left res =
  if left =? 0 then Ok ((VObject CObject res, None), bs)
  else
    obind (_unpack host parser fuel bs false) (fun '((key, _), bs) =>
    obind (_unpack host parser fuel bs false) (fun '((val, _), bs) =>
    obind (ToString host key) (fun name =>
    obind (Object_put res name val) (fun res =>
    _unpackMap host parser fuel bs (round53 (left - 1)) res)))).
Proof. reflexivity. Qed.

End Descent.

Section Fuel.

Variable host : Host.
Variable parser : Parser.

(** More fuel does not change an outcome that was reached. *)
Lemma fuel_step (f : nat) :
  (forall bs t, settled (_unpack host parser f bs t) ->
     _unpack host parser (S f) bs t = _unpack host parser f bs t) /\
  (forall mt num bs t, settled (_getVal host parser f mt num bs t) ->
     _getVal host parser (S f) mt num bs t = _getVal host parser f mt num bs t) /\
  (forall tag bs, settled (_unpackSemanticTag host parser f tag bs) ->
     _unpackSemanticTag host parser (S f) tag bs =
     _unpackSemanticTag host parser f tag bs) /\
  (forall bs left res, settled (_unpackArray host parser f bs left res) ->
     _unpackArray host parser (S f) bs left res =
     _unpackArray host parser f bs left res) /\
  (forall bs left res, settled (_unpackMap host parser f bs left res) ->
     _unpackMap host parser (S f) bs left res =
     _unpackMap host parser f bs left res).
Proof.
  induction f as [| f (IHu & IHg & IHt & IHa & IHm)].
  { repeat split; intros; exfalso; match goal with H : settled _ |- _ => apply H end;
      reflexivity. }
  split; [| split; [| split; [| split]]].
  - intros bs t Hs. rewrite (_unpack_eq _ _ (S f)). rewrite (_unpack_eq _ _ f) in Hs |- *.
    destruct (BufferStream.wait 1 bs) as [[buf bs1] |]; [| reflexivity].
    cbv zeta in Hs |- *.
    destruct (0 <=? js_and (octet_at buf 0) 31 - 28); [| apply IHg, Hs].
    destruct (BufferStream.wait _ bs1) as [[buf2 bs2] |]; [| reflexivity].
    destruct (js_shr (octet_at buf 0) 5 =? 6); [reflexivity |].
    destruct (_unpackInt _ buf2) as [num | | | | |]; try reflexivity.
    cbn [obind] in Hs |- *. apply IHg, Hs.
  - intros mt num bs t Hs. rewrite (_getVal_eq _ _ (S f)).
    rewrite (_getVal_eq _ _ f) in Hs |- *.
    repeat match goal with
           | |- (if ?c then _ else _) = _ => destruct c; try reflexivity
           end.
    + apply IHa, Hs.
    + apply IHm, Hs.
    + apply IHt, Hs.
  - intros tag bs Hs. rewrite (_unpackSemanticTag_eq _ _ (S f)).
    rewrite (_unpackSemanticTag_eq _ _ f) in Hs |- *.
    rewrite IHu by (exact (obind_settled _ _ Hs)). reflexivity.
  - intros bs left res Hs. rewrite (_unpackArray_eq _ _ (S f)).
    rewrite (_unpackArray_eq _ _ f) in Hs |- *.
    destruct (left =? 0); [reflexivity |].
    rewrite IHu by (exact (obind_settled _ _ Hs)).
    destruct (_unpack host parser f bs false) as [[[obj tg] bs1] | | | | |];
      try reflexivity.
    cbn [obind] in Hs |- *. apply IHa, Hs.
  - intros bs left res Hs. rewrite (_unpackMap_eq _ _ (S f)).
    rewrite (_unpackMap_eq _ _ f) in Hs |- *.
    destruct (left =? 0); [reflexivity |].
    rewrite IHu by (exact (obind_settled _ _ Hs)).
    destruct (_unpack host parser f bs false) as [[[key tg] bs1] | | | | |];
      try reflexivity.
    cbn [obind] in Hs |- *.
    rewrite IHu by (exact (obind_settled _ _ Hs)).
    destruct (_unpack host parser f bs1 false) as [[[val tg'] bs2] | | | | |];
      try reflexivity.
    cbn [obind] in Hs |- *.
    destruct (ToString host key) as [name | | | | |]; try reflexivity.
    cbn [obind] in Hs |- *.
    destruct (Object_put res name val) as [res' | | | | |]; try reflexivity.
    cbn [obind] in Hs |- *. apply IHm, Hs.
Qed.

Lemma _unpack_more_fuel (f k : nat) (bs : BufferStream.t) (t : bool) :
  settled (_unpack host parser f bs t) ->
  _unpack host parser (k + f) bs t = _unpack host parser f bs t.
Proof.
  intros Hs. induction k as [| k IH]; [reflexivity |].
  cbn [Nat.add]. rewrite <- IH.
  apply (proj1 (fuel_step (k + f))). rewrite IH. exact Hs.
Qed.

Lemma _unpack_Ok_more_fuel (f k : nat) (bs : BufferStream.t) (t : bool)
      (r : parsed) :
  _unpack host parser f bs t = Ok r ->
  _unpack host parser (k + f) bs t = Ok r.
Proof.
  intros H. rewrite _unpack_more_fuel; [exact H |].
  unfold settled. rewrite H. discriminate.
Qed.

End Fuel.

Section FramingError.

Variable host : Host.
Variable parser : Parser.

(** The decoders of the registry are the caller's: they are taken not to
    raise the framing error themselves. *)
Hypothesis decoders_no_framing_error :
  forall tag fn obj,
    semanticTags parser !! tag = Some fn -> no_framing_error (fn tag obj).

Lemma descent_no_framing_error (f : nat) :
  (forall bs t, no_framing_error (_unpack host parser f bs t)) /\
  (forall mt num bs t, no_framing_error (_getVal host parser f mt num bs t)) /\
  (forall tag bs, no_framing_error (_unpackSemanticTag host parser f tag bs)) /\
  (forall bs left res, no_framing_error (_unpackArray host parser f bs left res)) /\
  (forall bs left res, no_framing_error (_unpackMap host parser f bs left res)).
Proof.
  induction f as [| f (IHu & IHg & IHt & IHa & IHm)].
  { repeat split; intros; apply OutOfFuel_no_framing_error. }
  split; [| split; [| split; [| split]]].
  - intros bs t. rewrite _unpack_eq.
    destruct (BufferStream.wait 1 bs) as [[buf bs1] |];
      [| apply Pending_no_framing_error].
    cbv zeta.
    pose proof (additional_info_range (octet_at buf 0)) as Hai.
    destruct (Z.leb_spec 0 (js_and (octet_at buf 0) 31 - 28)); [| apply IHg].
    destruct (BufferStream.wait _ bs1) as [[buf2 bs2] |];
      [| apply Pending_no_framing_error].
    destruct (js_shr (octet_at buf 0) 5 =? 6).
    + apply obind_no_framing_error;
        [apply _unpackSmallNumber_no_framing_error |].
      intros d _. apply Ok_no_framing_error.
    + apply obind_no_framing_error; [apply _unpackInt_handled; lia |].
      intros num _. apply IHg.
  - intros mt num bs t. rewrite _getVal_eq.
    repeat match goal with
           | |- no_framing_error (if ?c then _ else _) => destruct c
           | |- no_framing_error (match ?w with _ => _ end) =>
               destruct w as [[? ?] |]
           end;
      try apply Ok_no_framing_error; try apply Pending_no_framing_error;
      try apply NotModelled_no_framing_error;
      try apply Error_no_framing_error;
      try apply IHa; try apply IHm; try apply IHt.
    + apply obind_no_framing_error;
        [apply _unpackSmallNumber_no_framing_error |].
      intros d _. apply Ok_no_framing_error.
    + intros e [He | He]; try discriminate He.
      injection He as <-. intros [ai Hai]. discriminate Hai.
  - intros tag bs. rewrite _unpackSemanticTag_eq.
    apply obind_no_framing_error; [apply IHu |].
    intros [[obj tg] bs1] _.
    destruct (semanticTags parser !! tag) as [fn |] eqn:Hfn;
      [| apply Ok_no_framing_error].
    apply obind_no_framing_error;
      [apply (decoders_no_framing_error tag fn obj Hfn) |].
    intros d _. apply Ok_no_framing_error.
  - intros bs left res. rewrite _unpackArray_eq.
    destruct (left =? 0); [apply Ok_no_framing_error |].
    apply obind_no_framing_error; [apply IHu |].
    intros [[obj tg] bs1] _. apply IHa.
  - intros bs left res. rewrite _unpackMap_eq.
    destruct (left =? 0); [apply Ok_no_framing_error |].
    apply obind_no_framing_error; [apply IHu |].
    intros [[key tg] bs1] _.
    apply obind_no_framing_error; [apply IHu |].
    intros [[val tg'] bs2] _.
    apply obind_no_framing_error; [apply ToString_no_framing_error |].
    intros name _.
    apply obind_no_framing_error; [apply Object_put_no_framing_error |].
    intros res' _. apply IHm.
Qed.

End FramingError.

Lemma default_decoders_no_framing_error (host : Host) tag fn obj :
  semanticTags (new_Parser host []) !! tag = Some fn ->
  no_framing_error (fn tag obj).
Proof.
  cbn [new_Parser fold_left semanticTags]. unfold default_semanticTags.
  intros H.
  apply lookup_insert_Some in H. destruct H as [[_ <-] | [_ H]].
  { unfold _unpackDate.
    destruct obj; try apply Ok_no_framing_error; apply Error_no_framing_error. }
  apply lookup_insert_Some in H. destruct H as [[_ <-] | [_ H]].
  { unfold _unpackUri.
    destruct obj; try apply Error_no_framing_error.
    destruct (url_parse host s) as [props | n]; [apply Ok_no_framing_error |].
    intros e [He | He]; try discriminate He.
    injection He as <-. intros [ai Hai]. destruct n; discriminate Hai. }
  apply lookup_insert_Some in H. destruct H as [[_ <-] | [_ H]].
  { unfold _unpackRegex.
    destruct obj; try apply Error_no_framing_error.
    destruct (RegExp_compile host s) as [source | n];
      [apply Ok_no_framing_error |].
    intros e [He | He]; try discriminate He.
    injection He as <-. intros [ai Hai]. destruct n; discriminate Hai. }
  rewrite lookup_empty in H. discriminate H.
Qed.

(** C9.  The framing error cannot be reached.  The additional
    information [byte & 0x1f] of every initial byte is in [0, 31];
    [_unpackInt] handles each of 28, 29, 30 and 31, and where [_unpack]
    calls it, under [ai - 28 >= 0], it does not fail; so, the decoders of
    the registry not raising the error themselves, no input makes the
    parser fail with "Invalid additional info", and [unpack], with the
    default registry, never does. *)
Theorem framing_error_unreachable (host : Host) (parser : Parser)
        (fuel : nat) (bs : BufferStream.t) (tagged : bool) :
  (forall tag fn obj,
     semanticTags parser !! tag = Some fn -> no_framing_error (fn tag obj)) ->
  (forall octet, 0 <= js_and octet 0x1f <= 31) /\
  (forall ai buf, 28 <= ai <= 31 -> no_framing_error (_unpackInt ai buf)) /\
  (forall octet buf,
     0 <= js_and octet 0x1f - 28 ->
     no_framing_error (_unpackInt (js_and octet 0x1f) buf)) /\
  no_framing_error (_unpack host parser fuel bs tagged) /\
  no_framing_error (unpack host bs).
Proof.
  intros Hdec.
  split; [exact additional_info_range |].
  split; [exact _unpackInt_handled |].
  split.
  { intros octet buf Hge. apply _unpackInt_handled.
    pose proof (additional_info_range octet). lia. }
  split; [apply (descent_no_framing_error host parser Hdec fuel) |].
  unfold unpack, Parser_unpack. cbn [Z.eqb].
  apply obind_no_framing_error.
  - apply (descent_no_framing_error host (new_Parser host [])
             (default_decoders_no_framing_error host)).
  - intros [d rest] _. apply Ok_no_framing_error.
Qed.

Lemma framing_error_unreachable_witness :
  no_framing_error
    (_unpack plain_host (new_Parser plain_host []) 3 [0x1c] false) /\
  no_framing_error (unpack plain_host [0x1f; 0; 0; 0; 0; 0; 0; 0; 1]).
Proof.
  pose proof (framing_error_unreachable plain_host (new_Parser plain_host [])
                3 [0x1c] false
                (default_decoders_no_framing_error plain_host)) as [_ [_ [_ [H _]]]].
  pose proof (framing_error_unreachable plain_host (new_Parser plain_host [])
                0 [0x1f; 0; 0; 0; 0; 0; 0; 0; 1] false
                (default_decoders_no_framing_error plain_host)) as [_ [_ [_ [_ H']]]].
  split; assumption.
Defined.

(* ================================================================== *)
(** * Properties of the parser: tags and maps *)
(* ================================================================== *)

Section TagsAndMaps.

Variable host : Host.
Variable parser : Parser.

Lemma _unpackSemanticTag_apply_tag (fuel : nat) (tag : Z) (bs : BufferStream.t) :
  _unpackSemanticTag host parser (S fuel) tag bs =
  obind (_unpack host parser fuel bs true) (fun '((obj, _), bs) =>
  obind (apply_tag parser tag obj) (fun d => Ok (d, bs))).
Proof.
  rewrite _unpackSemanticTag_eq. unfold apply_tag.
  destruct (_unpack host parser fuel bs true) as [[[obj tg] bs1] | | | | |];
    try reflexivity.
  cbn [obind]. destruct (semanticTags parser !! tag); reflexivity.
Qed.

(** A tag head read while the tagged flag is up. *)
Lemma _unpack_tag_tagged (fuel : nat) (t : Z) (h rest : list Z) :
  head 7 t h ->
  _unpack host parser (S (S fuel)) (h ++ rest) true =
  CbError (Error "Tag must not follow a tag").
Proof.
  intros Hh. rewrite (_unpack_head host parser (S fuel) 7 t h rest true)
    by (lia || assumption).
  reflexivity.
Qed.

(** A tag head read while the flag is down: the next item is read with
    the flag up, and the tag is applied to it. *)
Lemma _unpack_tag (fuel : nat) (t : Z) (h rest : list Z) :
  head 7 t h ->
  _unpack host parser (S (S (S fuel))) (h ++ rest) false =
  obind (_unpack host parser fuel rest true) (fun '((obj, _), bs) =>
  obind (apply_tag parser t obj) (fun d => Ok (d, bs))).
Proof.
  intros Hh. rewrite (_unpack_head host parser (S (S fuel)) 7 t h rest false)
    by (lia || assumption).
  rewrite _getVal_eq. cbn [Z.eqb Pos.eqb].
  apply _unpackSemanticTag_apply_tag.
Qed.

(** The first elements of an array: [_unpackArray] reads each with the
    tagged flag down and goes on with the rest. *)
Lemma _unpackArray_prefix (f k : nat) (bs bs1 : BufferStream.t) (vs : list value) :
  decodes_items host parser f bs vs bs1 -> (f <= k)%nat ->
  forall (left : Z) (res : list value),
    Z.of_nat (List.length vs) <= left < 2^53 ->
    _unpackArray host parser (List.length vs + k) bs left res =
    _unpackArray host parser k bs1 (left - Z.of_nat (List.length vs)) (res ++ vs).
Proof.
  intros Hd Hk.
  induction Hd as [bs | bs bs1 bs2 v tv vs Hv Hrest IH]; intros left res Hleft.
  - cbn [List.length Nat.add]. rewrite Z.sub_0_r, app_nil_r. reflexivity.
  - cbn [List.length] in Hleft |- *. cbn [Nat.add]. rewrite _unpackArray_eq.
    destruct (Z.eqb_spec left 0); [lia |].
    replace (List.length vs + k)%nat with ((List.length vs + k - f) + f)%nat by lia.
    rewrite (_unpack_Ok_more_fuel host parser f _ _ _ _ Hv). cbn [obind].
    replace ((List.length vs + k - f) + f)%nat with (List.length vs + k)%nat by lia.
    rewrite round53_small by lia.
    rewrite IH by lia. rewrite <- app_assoc. cbn [app].
    f_equal. lia.
Qed.

(** The first pairs of a map: [_unpackMap] reads the key and the value
    of each with the tagged flag down, assigns, and goes on with the
    rest. *)
Lemma _unpackMap_prefix (f k : nat) (bs bs1 : BufferStream.t)
      (kvs : list (value * value)) :
  decodes_pairs host parser f bs kvs bs1 -> (f <= k)%nat ->
  forall (left : Z) (res : list (string * value)),
    Z.of_nat (List.length kvs) <= left < 2^53 ->
    _unpackMap host parser (List.length kvs + k) bs left res =
    obind (put_pairs host kvs res) (fun res1 =>
    _unpackMap host parser k bs1 (left - Z.of_nat (List.length kvs)) res1).
Proof.
  intros Hd Hk.
  induction Hd as [bs | bs bs1 bs2 bs3 key val tk tv kvs Hkey Hval Hrest IH];
    intros left res Hleft.
  - cbn [List.length Nat.add put_pairs obind]. rewrite Z.sub_0_r. reflexivity.
  - cbn [List.length] in Hleft |- *. cbn [Nat.add]. rewrite _unpackMap_eq.
    destruct (Z.eqb_spec left 0); [lia |].
    replace (List.length kvs + k)%nat with ((List.length kvs + k - f) + f)%nat by lia.
    rewrite (_unpack_Ok_more_fuel host parser f _ _ _ _ Hkey). cbn [obind].
    rewrite (_unpack_Ok_more_fuel host parser f _ _ _ _ Hval). cbn [obind].
    replace ((List.length kvs + k - f) + f)%nat with (List.length kvs + k)%nat by lia.
    cbn [put_pairs].
    destruct (ToString host key) as [name | | | | |]; try reflexivity.
    cbn [obind].
    destruct (Object_put res name val) as [res' | | | | |]; try reflexivity.
    cbn [obind].
    rewrite round53_small by lia.
    rewrite IH by lia.
    replace (left - 1 - Z.of_nat (List.length kvs))
      with (left - Z.of_nat (S (List.length kvs))) by lia.
    reflexivity.
Qed.

(** C5.  A tag that immediately follows a tag makes the decoding fail
    with "Tag must not follow a tag".  A tag on an element of an array, or
    on a value of a map, under a tag is accepted, wherever the element or
    the pair stands and however many there are: the flag is passed down
    one level only and the decoding of the array or of the map reads every
    one of its items with the flag down, so that the outcome is that of
    the two tags applied in turn. *)
Theorem tag_must_not_follow_tag (t1 t2 : Z) (h1 h2 rest : list Z) (fuel : nat) :
  head 7 t1 h1 -> head 7 t2 h2 ->
  _unpack host parser (5 + fuel) (h1 ++ h2 ++ rest) false =
    CbError (Error "Tag must not follow a tag") /\
  Parser_unpack host parser (h1 ++ h2 ++ rest) 0 =
    CbError (Error "Tag must not follow a tag") /\
  (forall (ha before item after : list Z) (pre post : list value)
          (v : value) (tg : option Z),
     head 4 (Z.of_nat (List.length pre + 1 + List.length post)) ha ->
     Z.of_nat (List.length pre + 1 + List.length post) < 2^53 ->
     decodes_items host parser fuel (before ++ h2 ++ item ++ after ++ rest) pre
                   (h2 ++ item ++ after ++ rest) ->
     _unpack host parser fuel (item ++ after ++ rest) true =
       Ok ((v, tg), after ++ rest) ->
     decodes_items host parser fuel (after ++ rest) post rest ->
     _unpack host parser (9 + (List.length pre + List.length post) + fuel)
             (h1 ++ ha ++ before ++ h2 ++ item ++ after ++ rest) false =
     obind (apply_tag parser t2 v) (fun e =>
     obind (apply_tag parser t1 (VArray (pre ++ fst e :: post))) (fun d =>
     Ok (d, rest)))) /\
  (forall (hm before keyb item after : list Z) (pre post : list (value * value))
          (k v : value) (tk tg : option Z),
     head 5 (Z.of_nat (List.length pre + 1 + List.length post)) hm ->
     Z.of_nat (List.length pre + 1 + List.length post) < 2^53 ->
     decodes_pairs host parser fuel
                   (before ++ keyb ++ h2 ++ item ++ after ++ rest) pre
                   (keyb ++ h2 ++ item ++ after ++ rest) ->
     _unpack host parser fuel (keyb ++ h2 ++ item ++ after ++ rest) false =
       Ok ((k, tk), h2 ++ item ++ after ++ rest) ->
     _unpack host parser fuel (item ++ after ++ rest) true =
       Ok ((v, tg), after ++ rest) ->
     decodes_pairs host parser fuel (after ++ rest) post rest ->
     _unpack host parser (9 + (List.length pre + List.length post) + fuel)
             (h1 ++ hm ++ before ++ keyb ++ h2 ++ item ++ after ++ rest) false =
     obind (put_pairs host pre []) (fun res =>
     obind (apply_tag parser t2 v) (fun e =>
     obind (put_pairs host ((k, fst e) :: post) res) (fun props =>
     obind (apply_tag parser t1 (VObject CObject props)) (fun d =>
     Ok (d, rest)))))).
Proof.
  intros H1 H2.
  assert (Hfail : forall k,
    _unpack host parser (5 + k) (h1 ++ h2 ++ rest) false =
    CbError (Error "Tag must not follow a tag")).
  { intros k. cbn [Nat.add]. rewrite (_unpack_tag _ t1 h1) by assumption.
    rewrite (_unpack_tag_tagged _ t2 h2) by assumption. reflexivity. }
  split; [apply Hfail |]. split; [| split].
  - unfold Parser_unpack. cbn [Z.eqb].
    assert (Hlen : (2 <= List.length (h1 ++ h2 ++ rest))%nat).
    { rewrite !length_app.
      destruct H1, H2; cbn [List.length]; lia. }
    replace (unpack_fuel (h1 ++ h2 ++ rest))
      with (5 + (unpack_fuel (h1 ++ h2 ++ rest) - 5))%nat
      by (unfold unpack_fuel; lia).
    rewrite Hfail. reflexivity.
  - intros ha before item after pre post v tg Ha Hn Hpre Hitem Hpost.
    replace (9 + (List.length pre + List.length post) + fuel)%nat
      with (S (S (S (S (S (List.length pre
              + S (S (S (S (List.length post + fuel)))))))))) by lia.
    rewrite (_unpack_tag _ t1 h1) by assumption.
    rewrite (_unpack_head host parser _ 4 _ ha _ true) by (lia || eassumption).
    rewrite _getVal_eq. cbn [Z.eqb Pos.eqb].
    rewrite (_unpackArray_prefix fuel _ _ _ pre Hpre) by lia.
    rewrite _unpackArray_eq.
    destruct (Z.eqb_spec (Z.of_nat (List.length pre + 1 + List.length post)
                          - Z.of_nat (List.length pre)) 0); [lia |].
    rewrite (_unpack_tag _ t2 h2) by assumption.
    rewrite (_unpack_Ok_more_fuel host parser fuel _ _ _ _ Hitem). cbn [obind].
    destruct (apply_tag parser t2 v) as [[e te] | | | | |]; try reflexivity.
    cbn [obind fst].
    rewrite round53_small by lia.
    replace (S (S (S (List.length post + fuel))))
      with (List.length post + S (S (S fuel)))%nat by lia.
    rewrite (_unpackArray_prefix fuel _ _ _ post Hpost) by lia.
    rewrite _unpackArray_eq.
    destruct (Z.eqb_spec (Z.of_nat (List.length pre + 1 + List.length post)
                          - Z.of_nat (List.length pre) - 1
                          - Z.of_nat (List.length post)) 0); [| lia].
    cbn [app obind]. rewrite <- !app_assoc. cbn [app].
    destruct (apply_tag parser t1 (VArray (pre ++ e :: post))); reflexivity.
  - intros hm before keyb item after pre post k v tk tg Hm Hn Hpre Hkey Hitem Hpost.
    replace (9 + (List.length pre + List.length post) + fuel)%nat
      with (S (S (S (S (S (List.length pre
              + S (S (S (S (List.length post + fuel)))))))))) by lia.
    rewrite (_unpack_tag _ t1 h1) by assumption.
    rewrite (_unpack_head host parser _ 5 _ hm _ true) by (lia || eassumption).
    rewrite _getVal_eq. cbn [Z.eqb Pos.eqb].
    rewrite (_unpackMap_prefix fuel _ _ _ pre Hpre) by lia.
    destruct (put_pairs host pre []) as [res | | | | |]; try reflexivity.
    cbn [obind].
    rewrite _unpackMap_eq.
    destruct (Z.eqb_spec (Z.of_nat (List.length pre + 1 + List.length post)
                          - Z.of_nat (List.length pre)) 0); [lia |].
    replace (S (S (S (List.length post + fuel))))
      with ((List.length post + 3) + fuel)%nat at 1 by lia.
    rewrite (_unpack_Ok_more_fuel host parser fuel _ _ _ _ Hkey). cbn [obind].
    rewrite (_unpack_tag _ t2 h2) by assumption.
    rewrite (_unpack_Ok_more_fuel host parser fuel _ _ _ _ Hitem). cbn [obind].
    destruct (apply_tag parser t2 v) as [[e te] | | | | |]; try reflexivity.
    cbn [obind fst put_pairs].
    destruct (ToString host k) as [name | | | | |]; try reflexivity.
    cbn [obind].
    destruct (Object_put res name e) as [res' | | | | |]; try reflexivity.
    cbn [obind].
    rewrite round53_small by lia.
    replace (S (S (S (List.length post + fuel))))
      with (List.length post + S (S (S fuel)))%nat by lia.
    rewrite (_unpackMap_prefix fuel _ _ _ post Hpost) by lia.
    destruct (put_pairs host post res') as [props | | | | |]; try reflexivity.
    cbn [obind].
    rewrite _unpackMap_eq.
    destruct (Z.eqb_spec (Z.of_nat (List.length pre + 1 + List.length post)
                          - Z.of_nat (List.length pre) - 1
                          - Z.of_nat (List.length post)) 0); [| lia].
    cbn [obind].
    destruct (apply_tag parser t1 (VObject CObject props)); reflexivity.
Qed.

(** A map is decoded by the assignments [res[key] = val] of its pairs,
    in the order of the stream. *)
Lemma _unpackMap_put_pairs (f : nat) (bs bs' : BufferStream.t)
      (kvs : list (value * value)) :
  decodes_pairs host parser f bs kvs bs' ->
  Z.of_nat (List.length kvs) < 2^53 ->
  forall res props,
    put_pairs host kvs res = Ok props ->
    _unpackMap host parser (S (List.length kvs) + f) bs
               (Z.of_nat (List.length kvs)) res =
    Ok ((VObject CObject props, None), bs').
Proof.
  induction 1 as [bs | bs bs1 bs2 bs3 key val tk tv kvs Hk Hv Hrest IH];
    intros Hlen res props Hput.
  - cbn [List.length Nat.add]. rewrite _unpackMap_eq.
    cbn in Hput. injection Hput as <-. reflexivity.
  - cbn [List.length] in Hlen |- *.
    change (S (S (List.length kvs)) + f)%nat
      with (S (S (List.length kvs) + f))%nat.
    rewrite _unpackMap_eq.
    destruct (Z.eqb_spec (Z.of_nat (S (List.length kvs))) 0); [lia |].
    rewrite (_unpack_Ok_more_fuel host parser f _ _ _ _ Hk). cbn [obind].
    rewrite (_unpack_Ok_more_fuel host parser f _ _ _ _ Hv). cbn [obind].
    cbn [put_pairs] in Hput.
    destruct (ToString host key) as [name | | | | |]; try discriminate Hput.
    cbn [obind] in Hput |- *.
    destruct (Object_put res name val) as [res' | | | | |]; try discriminate Hput.
    cbn [obind] in Hput |- *.
    rewrite round53_small by lia.
    replace (Z.of_nat (S (List.length kvs)) - 1)
      with (Z.of_nat (List.length kvs)) by lia.
    apply IH; [lia | exact Hput].
Qed.

Lemma get_set_prop (props : list (string * value)) (key : string) (val : value) :
  get_prop (set_prop props key val) key = Some val.
Proof.
  induction props as [| [k v] rest IH]; cbn [set_prop get_prop].
  - rewrite String.eqb_refl. reflexivity.
  - destruct (String.eqb k key) eqn:E; cbn [get_prop]; rewrite E;
      [reflexivity | exact IH].
Qed.

Lemma get_set_prop_other (props : list (string * value)) (key key' : string)
      (val : value) :
  key <> key' ->
  get_prop (set_prop props key val) key' = get_prop props key'.
Proof.
  intros Hne.
  induction props as [| [k v] rest IH]; cbn [set_prop get_prop].
  - destruct (String.eqb_spec key key'); [contradiction | reflexivity].
  - destruct (String.eqb_spec k key) as [-> | Hk]; cbn [get_prop].
    + destruct (String.eqb_spec key key'); [contradiction | reflexivity].
    + destruct (String.eqb k key'); [reflexivity | exact IH].
Qed.

Lemma Object_put_named (res : list (string * value)) (name : string) (val : value) :
  name <> "__proto__"%string ->
  Object_put res name val = Ok (set_prop res name val).
Proof.
  intros Hn. unfold Object_put.
  destruct (String.eqb_spec name "__proto__"); [contradiction | reflexivity].
Qed.

(** Pairs whose keys have other strings leave the property [name] as it
    is. *)
Lemma put_pairs_other (kvs : list (value * value)) (names : list string)
      (name : string) :
  named host kvs names -> ~ In name names ->
  forall res props,
    put_pairs host kvs res = Ok props ->
    get_prop props name = get_prop res name.
Proof.
  revert names.
  induction kvs as [| [key val] kvs IH]; intros [| n names] Hn Hnot res props Hput;
    cbn in Hn; try contradiction.
  - cbn in Hput. injection Hput as <-. reflexivity.
  - destruct Hn as (Hs & Hp & Hn). cbn [put_pairs] in Hput.
    rewrite Hs in Hput. cbn [obind] in Hput.
    rewrite Object_put_named in Hput by assumption. cbn [obind] in Hput.
    rewrite (IH names Hn) with (res := set_prop res n val) (props := props).
    + apply get_set_prop_other. intros ->. apply Hnot. left. reflexivity.
    + intros Hin. apply Hnot. right. exact Hin.
    + exact Hput.
Qed.

(** Of the pairs whose keys have one string, other than [__proto__], the
    last one gives the property its value. *)
Lemma last_pair_wins (kvs1 kvs2 : list (value * value)) (names1 names2 : list string)
      (key val : value) (name : string) (res props : list (string * value)) :
  named host kvs1 names1 ->
  named host ((key, val) :: kvs2) (name :: names2) ->
  ~ In name names2 ->
  put_pairs host (kvs1 ++ (key, val) :: kvs2) res = Ok props ->
  get_prop props name = Some val.
Proof.
  intros H1 H2 Hlast. revert names1 H1 res.
  induction kvs1 as [| [k v] kvs1 IH]; intros [| n1 names1] H1 res Hput;
    cbn in H1; try contradiction.
  - cbn in H2. destruct H2 as (Hs & Hp & H2).
    cbn [app put_pairs] in Hput. rewrite Hs in Hput. cbn [obind] in Hput.
    rewrite Object_put_named in Hput by assumption. cbn [obind] in Hput.
    rewrite (put_pairs_other kvs2 names2 name H2 Hlast _ _ Hput).
    apply get_set_prop.
  - destruct H1 as (Hs & Hp & H1).
    cbn [app put_pairs] in Hput. rewrite Hs in Hput. cbn [obind] in Hput.
    rewrite Object_put_named in Hput by assumption. cbn [obind] in Hput.
    exact (IH names1 H1 _ Hput).
Qed.

(** C10, on the code.  A map whose only key is the text [__proto__]
    (bytes [a1 69 5f 5f 70 72 6f 74 6f 5f 5f 01]) is decoded to an object
    without properties: the assignment [res["__proto__"] = 1] goes to
    the accessor inherited from [Object.prototype] and the pair is lost.
    Of two pairs with that key neither value is kept; and no assignment
    to that name stores its value. *)
Theorem proto_key_is_not_inserted :
  unpack plain_host [0xa1; 0x69; 0x5f; 0x5f; 0x70; 0x72; 0x6f; 0x74; 0x6f;
                     0x5f; 0x5f; 0x01]
    = Ok (VObject CObject [], None) /\
  unpack plain_host [0xa2; 0x69; 0x5f; 0x5f; 0x70; 0x72; 0x6f; 0x74; 0x6f;
                     0x5f; 0x5f; 0x01;
                     0x69; 0x5f; 0x5f; 0x70; 0x72; 0x6f; 0x74; 0x6f;
                     0x5f; 0x5f; 0x02]
    = Ok (VObject CObject [], None) /\
  (forall res val props,
     Object_put res "__proto__" val = Ok props -> props = res).
Proof.
  split; [vm_compute; reflexivity |].
  split; [vm_compute; reflexivity |].
  intros res val props. unfold Object_put. cbn [String.eqb Ascii.eqb Bool.eqb].
  destruct val; intros H; try discriminate H; injection H as <-; reflexivity.
Qed.

End TagsAndMaps.

(* ================================================================== *)
(** * The fuel of [unpack] is enough *)
(* ================================================================== *)

Lemma wait_length (n : Z) (bs buf bs' : list Z) :
  BufferStream.wait n bs = Some (buf, bs') ->
  0 <= n /\ Z.of_nat (List.length bs') = Z.of_nat (List.length bs) - n.
Proof.
  unfold BufferStream.wait, BufferStream.length.
  destruct (Z.leb_spec 0 n); [| discriminate].
  destruct (Z.leb_spec n (Z.of_nat (List.length bs))); [| discriminate].
  cbn [andb]. intros Heq. injection Heq as _ <-.
  rewrite length_skipn. lia.
Qed.

Lemma obind_settled_intro {A B : Type} (o : outcome A) (k : A -> outcome B) :
  settled o -> (forall a, o = Ok a -> settled (k a)) -> settled (obind o k).
Proof.
  unfold settled. intros Ho Hk. destruct o; cbn; try congruence.
  apply Hk. reflexivity.
Qed.

Lemma readUIntBE_settled (w off : nat) (buf : list Z) :
  settled (readUIntBE w off buf).
Proof.
  unfold settled, readUIntBE.
  destruct (off + w <=? List.length buf)%nat; discriminate.
Qed.

Lemma _unpackInt_settled (ai : Z) (buf : list Z) : settled (_unpackInt ai buf).
Proof.
  unfold _unpackInt.
  repeat match goal with
         | |- settled (if ?c then _ else _) => destruct c
         | |- settled (readUIntBE _ _ _) => apply readUIntBE_settled
         | |- settled (obind _ _) => apply obind_settled_intro; [| intros ? _]
         end; unfold settled; discriminate.
Qed.

Lemma Unallocated_settled (host : Host) (num : value) :
  settled (Unallocated host num).
Proof.
  unfold settled, Unallocated. destruct num; try discriminate.
  match goal with |- context [if ?c then _ else _] => destruct c end;
    discriminate.
Qed.

Lemma _unpackSmallNumber_settled (host : Host) (ai : Z) (buf : option (list Z)) :
  settled (_unpackSmallNumber host ai buf).
Proof.
  unfold _unpackSmallNumber.
  repeat match goal with
         | |- settled (if ?c then _ else _) => destruct c
         | |- settled (match buf with _ => _ end) => destruct buf
         | |- settled (Unallocated _ _) => apply Unallocated_settled
         | |- settled (readUIntBE _ _ _) => apply readUIntBE_settled
         | |- settled (obind _ _) => apply obind_settled_intro; [| intros ? _]
         end; unfold settled; discriminate.
Qed.

Section EnoughFuel.

Variable host : Host.
Variable parser : Parser.

(** Each item takes at least its initial byte from the stream. *)
Lemma descent_consumes (f : nat) :
  (forall bs t r bs', _unpack host parser f bs t = Ok (r, bs') ->
     (List.length bs' < List.length bs)%nat) /\
  (forall mt num bs t r bs', _getVal host parser f mt num bs t = Ok (r, bs') ->
     (List.length bs' <= List.length bs)%nat) /\
  (forall tag bs r bs', _unpackSemanticTag host parser f tag bs = Ok (r, bs') ->
     (List.length bs' < List.length bs)%nat) /\
  (forall bs left res r bs', _unpackArray host parser f bs left res = Ok (r, bs') ->
     (List.length bs' <= List.length bs)%nat) /\
  (forall bs left res r bs', _unpackMap host parser f bs left res = Ok (r, bs') ->
     (List.length bs' <= List.length bs)%nat).
Proof.
  induction f as [| f (IHu & IHg & IHt & IHa & IHm)].
  { repeat split; intros; discriminate. }
  split; [| split; [| split; [| split]]].
  - intros bs t r bs'. rewrite _unpack_eq.
    destruct (BufferStream.wait 1 bs) as [[buf bs1] |] eqn:Hw; [| discriminate].
    apply wait_length in Hw. cbv zeta.
    destruct (0 <=? js_and (octet_at buf 0) 31 - 28).
    + destruct (BufferStream.wait _ bs1) as [[buf2 bs2] |] eqn:Hw2;
        [| discriminate].
      apply wait_length in Hw2.
      destruct (js_shr (octet_at buf 0) 5 =? 6).
      * destruct (_unpackSmallNumber host _ _); try discriminate.
        cbn [obind]. intros H. injection H as _ <-. lia.
      * destruct (_unpackInt _ buf2) as [num | | | | |]; try discriminate.
        cbn [obind]. intros H. apply IHg in H. lia.
    + intros H. apply IHg in H. lia.
  - intros mt num bs t r bs'. rewrite _getVal_eq.
    repeat match goal with
           | |- (if ?c then _ else _) = _ -> _ => destruct c
           end;
      try (intros H; injection H as _ <-; lia);
      try discriminate; try apply IHa; try apply IHm.
    + destruct (BufferStream.wait num bs) as [[buf bs1] |] eqn:Hw;
        [| discriminate].
      apply wait_length in Hw. intros H. injection H as _ <-. lia.
    + destruct (BufferStream.wait num bs) as [[buf bs1] |] eqn:Hw;
        [| discriminate].
      apply wait_length in Hw.
      intros H. injection H as _ <-. lia.
    + destruct (_unpackSmallNumber host num None); try discriminate.
      cbn [obind]. intros H. injection H as _ <-. lia.
    + intros H. apply IHt in H. lia.
  - intros tag bs r bs'. rewrite _unpackSemanticTag_eq.
    destruct (_unpack host parser f bs true) as [[[obj tg] bs1] | | | | |] eqn:Hu;
      try discriminate.
    apply IHu in Hu. cbn [obind].
    destruct (semanticTags parser !! tag) as [fn |].
    + destruct (fn tag obj); try discriminate.
      cbn [obind]. intros H. injection H as _ <-. exact Hu.
    + intros H. injection H as _ <-. exact Hu.
  - intros bs left res r bs'. rewrite _unpackArray_eq.
    destruct (left =? 0); [intros H; injection H as _ <-; lia |].
    destruct (_unpack host parser f bs false) as [[[obj tg] bs1] | | | | |] eqn:Hu;
      try discriminate.
    apply IHu in Hu. cbn [obind]. intros H. apply IHa in H. lia.
  - intros bs left res r bs'. rewrite _unpackMap_eq.
    destruct (left =? 0); [intros H; injection H as _ <-; lia |].
    destruct (_unpack host parser f bs false) as [[[key tg] bs1] | | | | |] eqn:Hu;
      try discriminate.
    apply IHu in Hu. cbn [obind].
    destruct (_unpack host parser f bs1 false) as [[[val tg'] bs2] | | | | |] eqn:Hv;
      try discriminate.
    apply IHu in Hv. cbn [obind].
    destruct (ToString host key) as [name | | | | |]; try discriminate.
    cbn [obind].
    destruct (Object_put res name val) as [res' | | | | |]; try discriminate.
    cbn [obind]. intros H. apply IHm in H. lia.
Qed.

(** The decoders of the registry are functions of the caller: they are
    taken to return. *)
Hypothesis decoders_settled :
  forall tag fn obj, semanticTags parser !! tag = Some fn -> settled (fn tag obj).

Lemma descent_enough_fuel (n : nat) (bs : BufferStream.t) :
  (List.length bs <= n)%nat ->
  (forall f t, (4 * n + 1 <= f)%nat -> settled (_unpack host parser f bs t)) /\
  (forall f mt num t, (4 * n + 4 <= f)%nat ->
     settled (_getVal host parser f mt num bs t)) /\
  (forall f tag, (4 * n + 2 <= f)%nat ->
     settled (_unpackSemanticTag host parser f tag bs)) /\
  (forall f left res, (4 * n + 3 <= f)%nat ->
     settled (_unpackArray host parser f bs left res)) /\
  (forall f left res, (4 * n + 3 <= f)%nat ->
     settled (_unpackMap host parser f bs left res)).
Proof.
  revert bs. induction n as [n IH] using lt_wf_ind. intros bs Hlen.
  assert (HU : forall f t, (4 * n + 1 <= f)%nat ->
                 settled (_unpack host parser f bs t)).
  { intros [| f] t Hf; [lia |]. rewrite _unpack_eq.
    destruct (BufferStream.wait 1 bs) as [[buf bs1] |] eqn:Hw; [| discriminate].
    apply wait_length in Hw. cbv zeta.
    destruct (0 <=? js_and (octet_at buf 0) 31 - 28).
    - destruct (BufferStream.wait _ bs1) as [[buf2 bs2] |] eqn:Hw2;
        [| discriminate].
      apply wait_length in Hw2.
      destruct (js_shr (octet_at buf 0) 5 =? 6).
      + apply obind_settled_intro; [apply _unpackSmallNumber_settled |].
        intros d _. discriminate.
      + apply obind_settled_intro; [apply _unpackInt_settled |].
        intros num _.
        destruct (IH (n - 1)%nat ltac:(lia) bs2 ltac:(lia)) as (_ & HG & _).
        apply HG. lia.
    - destruct (IH (n - 1)%nat ltac:(lia) bs1 ltac:(lia)) as (_ & HG & _).
      apply HG. lia. }
  assert (HT : forall f tag, (4 * n + 2 <= f)%nat ->
                 settled (_unpackSemanticTag host parser f tag bs)).
  { intros [| f] tag Hf; [lia |]. rewrite _unpackSemanticTag_eq.
    apply obind_settled_intro; [apply HU; lia |].
    intros [[obj tg] bs1] _.
    destruct (semanticTags parser !! tag) as [fn |] eqn:Hfn; [| discriminate].
    apply obind_settled_intro; [apply (decoders_settled tag fn obj Hfn) |].
    intros d _. discriminate. }
  assert (HA : forall f left res, (4 * n + 3 <= f)%nat ->
                 settled (_unpackArray host parser f bs left res)).
  { intros [| f] left res Hf; [lia |]. rewrite _unpackArray_eq.
    destruct (left =? 0); [discriminate |].
    apply obind_settled_intro; [apply HU; lia |].
    intros [[obj tg] bs1] Hu.
    apply (proj1 (descent_consumes f)) in Hu.
    destruct (IH (n - 1)%nat ltac:(lia) bs1 ltac:(lia)) as (_ & _ & _ & HA & _).
    apply HA. lia. }
  assert (HM : forall f left res, (4 * n + 3 <= f)%nat ->
                 settled (_unpackMap host parser f bs left res)).
  { intros [| f] left res Hf; [lia |]. rewrite _unpackMap_eq.
    destruct (left =? 0); [discriminate |].
    apply obind_settled_intro; [apply HU; lia |].
    intros [[key tg] bs1] Hu.
    apply (proj1 (descent_consumes f)) in Hu.
    destruct (IH (n - 1)%nat ltac:(lia) bs1 ltac:(lia)) as (HU1 & _).
    apply obind_settled_intro; [apply HU1; lia |].
    intros [[val tg'] bs2] Hv.
    apply (proj1 (descent_consumes f)) in Hv.
    apply obind_settled_intro; [apply ToString_settled |].
    intros name _.
    apply obind_settled_intro; [apply Object_put_settled |].
    intros res' _.
    destruct (IH (n - 1)%nat ltac:(lia) bs2 ltac:(lia)) as (_ & _ & _ & _ & HM).
    apply HM. lia. }
  split; [exact HU |]. split; [| split; [exact HT | split; [exact HA | exact HM]]].
  intros [| f] mt num t Hf; [lia |]. rewrite _getVal_eq.
  repeat match goal with
         | |- settled (if ?c then _ else _) => destruct c
         | |- settled (match ?w with _ => _ end) => destruct w as [[? ?] |]
         end;
    try discriminate.
  - apply HA. lia.
  - apply HM. lia.
  - apply obind_settled_intro; [apply _unpackSmallNumber_settled |].
    intros d _. discriminate.
  - apply HT. lia.
Qed.

(** [unpack_fuel] is enough: on no input does [parser.unpack] stop for
    want of fuel. *)
Lemma _unpack_enough_fuel (buf : list Z) (offset : Z) :
  settled (Parser_unpack host parser buf offset).
Proof.
  unfold Parser_unpack.
  set (bs := if offset =? 0 then buf else Buffer_slice buf offset).
  apply obind_settled_intro.
  - apply (descent_enough_fuel (List.length bs) bs (Nat.le_refl _)).
    unfold unpack_fuel. lia.
  - intros [d rest] _. discriminate.
Qed.

End EnoughFuel.

Lemma default_decoders_settled (host : Host) tag fn obj :
  semanticTags (new_Parser host []) !! tag = Some fn -> settled (fn tag obj).
Proof.
  cbn [new_Parser fold_left semanticTags]. unfold default_semanticTags.
  intros H.
  apply lookup_insert_Some in H. destruct H as [[_ <-] | [_ H]].
  { unfold _unpackDate. destruct obj; discriminate. }
  apply lookup_insert_Some in H. destruct H as [[_ <-] | [_ H]].
  { unfold _unpackUri. destruct obj; try discriminate.
    destruct (url_parse host s); discriminate. }
  apply lookup_insert_Some in H. destruct H as [[_ <-] | [_ H]].
  { unfold _unpackRegex. destruct obj; try discriminate.
    destruct (RegExp_compile host s); discriminate. }
  rewrite lookup_empty in H. discriminate H.
Qed.

(** [exports.unpack] reaches an outcome on every input. *)
Lemma unpack_settled (host : Host) (input : list Z) :
  settled (unpack host input).
Proof.
  apply _unpack_enough_fuel. apply default_decoders_settled.
Qed.

(* ================================================================== *)
(** * Instances and the scenarios of the specification *)
(* ================================================================== *)

Lemma packInt_framing_witness :
  _packInt 255 0 [] = (Ok tt, [0x1c; 0xff]).
Proof.
  destruct (packInt_framing 0 255 [] ltac:(lia) ltac:(lia)) as [_ [H _]].
  apply H. lia.
Defined.

Lemma tag_must_not_follow_tag_witness :
  unpack plain_host [0xe0; 0xe0] = CbError (Error "Tag must not follow a tag") /\
  _unpack plain_host (new_Parser plain_host []) 13
          [0xe1; 0x83; 0x05; 0xe2; 0x06; 0x07] false =
    Ok ((VArray [VNumber (Int 5); VNumber (Int 6); VNumber (Int 7)], Some 1), []) /\
  _unpack plain_host (new_Parser plain_host []) 13
          [0xe1; 0xa3; 0x61; 0x61; 0x05; 0x61; 0x62; 0xe2; 0x06;
           0x61; 0x63; 0x07] false =
    Ok ((VObject CObject [("a"%string, VNumber (Int 5));
                          ("b"%string, VNumber (Int 6));
                          ("c"%string, VNumber (Int 7))], Some 1), []).
Proof.
  destruct (tag_must_not_follow_tag plain_host (new_Parser plain_host [])
              1 2 [0xe1] [0xe2] [] 2
              (head_inline 7 1 ltac:(lia)) (head_inline 7 2 ltac:(lia)))
    as [_ [_ [Harray Hmap]]].
  split.
  { apply (tag_must_not_follow_tag plain_host (new_Parser plain_host [])
             0 0 [0xe0] [0xe0] [] 2
             (head_inline 7 0 ltac:(lia)) (head_inline 7 0 ltac:(lia))). }
  split.
  - apply (Harray [0x83] [0x05] [0x06] [0x07]
             [VNumber (Int 5)] [VNumber (Int 7)] (VNumber (Int 6)) None
             (head_inline 4 3 ltac:(lia))).
    + cbn; lia.
    + eapply decodes_item; [reflexivity | apply decodes_no_item].
    + reflexivity.
    + eapply decodes_item; [reflexivity | apply decodes_no_item].
  - apply (Hmap [0xa3] [0x61; 0x61; 0x05] [0x61; 0x62] [0x06] [0x61; 0x63; 0x07]
             [(VString "a", VNumber (Int 5))] [(VString "c", VNumber (Int 7))]
             (VString "b") (VNumber (Int 6)) None None
             (head_inline 5 3 ltac:(lia))).
    + cbn; lia.
    + eapply decodes_pair; [reflexivity | reflexivity | apply decodes_no_pair].
    + reflexivity.
    + reflexivity.
    + eapply decodes_pair; [reflexivity | reflexivity | apply decodes_no_pair].
Defined.

(** The integer 1 and the text "1" have one string: the later pair gives
    the property its value. *)
Example keys_1_and_text_1 :
  ToString plain_host (VNumber (Int 1)) = ToString plain_host (VString "1") /\
  _unpackMap plain_host (new_Parser plain_host []) 5
             [0x01; 0x0a; 0x61; 0x31; 0x0b] 2 [] =
    Ok ((VObject CObject [("1"%string, VNumber (Int 11))], None), []).
Proof.
  split; [reflexivity |].
  assert (Hd : decodes_pairs plain_host (new_Parser plain_host []) 2
                 [0x01; 0x0a; 0x61; 0x31; 0x0b]
                 [(VNumber (Int 1), VNumber (Int 10));
                  (VString "1", VNumber (Int 11))] []).
  { eapply decodes_pair; [reflexivity | reflexivity |].
    eapply decodes_pair; [reflexivity | reflexivity |].
    apply decodes_no_pair. }
  apply (_unpackMap_put_pairs plain_host (new_Parser plain_host []) 2 _ _ _ Hd);
    [cbn; lia | reflexivity].
Qed.

(** The concrete scenarios of section 8. *)
Example scenario_encode :
  pack 2 (VNumber (Int 0)) = Ok [0x00] /\
  pack 2 (VNumber (Int 255)) = Ok [0x1c; 0xff] /\
  pack 2 (VNumber (Int (-1))) = Ok [0x20] /\
  pack 2 (VString "a") = Ok [0x61; 0x61] /\
  pack 3 (VArray [VNumber (Int 1); VNumber (Int 2)]) = Ok [0x82; 0x01; 0x02] /\
  pack 3 (VObject CObject [("a"%string, VNumber (Int 1))])
    = Ok [0xa1; 0x61; 0x61; 0x01].
Proof. repeat split; vm_compute; reflexivity. Qed.

Example scenario_decode :
  unpack plain_host [0x00] = Ok (VNumber (Int 0), None) /\
  unpack plain_host [0x1c; 0xff] = Ok (VNumber (Int 255), None) /\
  unpack plain_host [0x20] = Ok (VNumber (Int (-1)), None) /\
  unpack plain_host [0x61; 0x61] = Ok (VString "a", None) /\
  unpack plain_host [0x82; 0x01; 0x02]
    = Ok (VArray [VNumber (Int 1); VNumber (Int 2)], None) /\
  unpack plain_host [0xa1; 0x61; 0x61; 0x01]
    = Ok (VObject CObject [("a"%string, VNumber (Int 1))], None).
Proof. repeat split; vm_compute; reflexivity. Qed.

(** A map whose keys are the integer 1 and the text "1", and a tag on a
    value of a map under a tag. *)
Example scenario_composites :
  unpack plain_host [0xa2; 0x01; 0x0a; 0x61; 0x31; 0x0b]
    = Ok (VObject CObject [("1"%string, VNumber (Int 11))], None) /\
  unpack plain_host [0xe0; 0x81; 0xe0; 0x00]
    = Ok (VArray [VNumber (Int 0)], Some 0) /\
  unpack plain_host [0xe0; 0xa1; 0x61; 0x61; 0xe0; 0x00]
    = Ok (VObject CObject [("a"%string, VNumber (Int 0))], Some 0) /\
  unpack plain_host [0xe0; 0xfc; 0x05; 0x00]
    = CbError (Error "Tag must not follow a tag").
Proof. repeat split; vm_compute; reflexivity. Qed.

(** Numbers given as doubles: an integral double is its integer. *)
Example scenario_doubles :
  pack 1 (VNumber (Frac 3%float)) = Ok [0x03] /\
  pack 1 (VNumber (Frac (-1)%float)) = Ok [0x20] /\
  pack 1 (VNumber (Frac 1.5%float)) = Ok [0xdf; 0x3f; 0xf8; 0; 0; 0; 0; 0; 0] /\
  pack 1 (VNumber NegZero) = Ok [0x00] /\
  Unallocated plain_host (VNumber (Frac 3%float)) = Ok (VUnallocated (Frac 3%float)) /\
  Unallocated plain_host (VNumber NegZero) = Ok (VUnallocated NegZero) /\
  Unallocated plain_host (VNumber (Frac 0.5%float)) =
    Throw (Error "num must be a small positive integer: ?") /\
  Unallocated plain_host (VString "5") =
    Throw (Error "Invalid Unallocated type: string").
Proof. repeat split; vm_compute; reflexivity. Qed.

(* ================================================================== *)
(** * Round trips *)
(* ================================================================== *)

Lemma string_of_octets_of_string (s : string) :
  string_of_octets (octets_of_string s) = s.
Proof.
  unfold string_of_octets, octets_of_string.
  induction s as [| c s IH]; [reflexivity |].
  cbn [list_ascii_of_string map string_of_list_ascii]. rewrite IH. f_equal.
  pose proof (N_ascii_bounded c) as Hc.
  rewrite Z.mod_small by lia. rewrite N2Z.id. apply ascii_N_embedding.
Qed.

(** Well-formed UTF-8 is decoded to itself. *)
Lemma utf8_decode_valid (l : list Z) :
  utf8_valid l = true -> utf8_decode l = l.
Proof.
  remember (List.length l) as n eqn:Hn. revert l Hn.
  induction n as [n IH] using lt_wf_ind. intros l Hn Hv.
  assert (IH' : forall r, (List.length r < List.length l)%nat ->
                          utf8_valid r = true -> utf8_decode r = r).
  { intros r Hr Hr'. apply (IH (List.length r)); [lia | reflexivity | exact Hr']. }
  clear IH Hn n.
  destruct l as [| a r1]; [reflexivity |].
  cbn [utf8_valid utf8_decode] in Hv |- *. cbv zeta.
  destruct ((0 <=? a) && (a <=? 0x7f)) eqn:H1.
  { rewrite IH'; [reflexivity | cbn; lia | exact Hv]. }
  destruct r1 as [| b r2]; [discriminate Hv |].
  destruct ((0xc2 <=? a) && (a <=? 0xdf)) eqn:H2.
  { apply andb_prop in Hv. destruct Hv as [Hb Hv]. rewrite Hb.
    rewrite IH'; [reflexivity | cbn; lia | exact Hv]. }
  destruct r2 as [| c r3]; [discriminate Hv |].
  destruct (a =? 0xe0) eqn:He0.
  { apply Z.eqb_eq in He0. subst a. cbn [Z.leb Z.compare Pos.compare Pos.compare_cont andb Z.eqb Pos.eqb].
    apply andb_prop in Hv. destruct Hv as [Hv Hr].
    apply andb_prop in Hv. destruct Hv as [Hb Hc].
    rewrite Hb, Hc. rewrite IH'; [reflexivity | cbn; lia | exact Hr]. }
  destruct (a =? 0xed) eqn:Hed.
  { apply Z.eqb_eq in Hed. subst a. cbn [Z.leb Z.compare Pos.compare Pos.compare_cont andb Z.eqb Pos.eqb].
    apply andb_prop in Hv. destruct Hv as [Hv Hr].
    apply andb_prop in Hv. destruct Hv as [Hb Hc].
    rewrite Hb, Hc. rewrite IH'; [reflexivity | cbn; lia | exact Hr]. }
  destruct ((0xe1 <=? a) && (a <=? 0xef)) eqn:H3.
  { assert (H3' : (0xe0 <=? a) && (a <=? 0xef) = true) by lia.
    rewrite H3'.
    apply andb_prop in Hv. destruct Hv as [Hv Hr].
    apply andb_prop in Hv. destruct Hv as [Hb Hc].
    rewrite Hb, Hc. rewrite IH'; [reflexivity | cbn; lia | exact Hr]. }
  assert (H3' : (0xe0 <=? a) && (a <=? 0xef) = false) by lia.
  rewrite H3'.
  destruct r3 as [| d r4]; [discriminate Hv |].
  destruct (a =? 0xf0) eqn:Hf0.
  { apply Z.eqb_eq in Hf0. subst a. cbn [Z.leb Z.compare Pos.compare Pos.compare_cont andb Z.eqb Pos.eqb].
    apply andb_prop in Hv. destruct Hv as [Hv Hr].
    apply andb_prop in Hv. destruct Hv as [Hv Hd].
    apply andb_prop in Hv. destruct Hv as [Hb Hc].
    rewrite Hb, Hc, Hd. rewrite IH'; [reflexivity | cbn; lia | exact Hr]. }
  destruct (a =? 0xf4) eqn:Hf4.
  { apply Z.eqb_eq in Hf4. subst a. cbn [Z.leb Z.compare Pos.compare Pos.compare_cont andb Z.eqb Pos.eqb].
    apply andb_prop in Hv. destruct Hv as [Hv Hr].
    apply andb_prop in Hv. destruct Hv as [Hv Hd].
    apply andb_prop in Hv. destruct Hv as [Hb Hc].
    rewrite Hb, Hc, Hd. rewrite IH'; [reflexivity | cbn; lia | exact Hr]. }
  destruct ((0xf1 <=? a) && (a <=? 0xf3)) eqn:H4; [| discriminate Hv].
  assert (H4' : (0xf0 <=? a) && (a <=? 0xf4) = true) by lia.
  rewrite H4'.
  apply andb_prop in Hv. destruct Hv as [Hv Hr].
  apply andb_prop in Hv. destruct Hv as [Hv Hd].
  apply andb_prop in Hv. destruct Hv as [Hb Hc].
  rewrite Hb, Hc, Hd. rewrite IH'; [reflexivity | cbn; lia | exact Hr].
Qed.

Lemma Buffer_toString_octets_of_string (s : string) :
  utf8_valid (octets_of_string s) = true ->
  Buffer_toString (octets_of_string s) = s.
Proof.
  intros Hu. unfold Buffer_toString. rewrite (utf8_decode_valid _ Hu).
  apply string_of_octets_of_string.
Qed.

Lemma length_octets_of_string (s : string) :
  List.length (octets_of_string s) = String.length s.
Proof.
  unfold octets_of_string. rewrite length_map.
  induction s as [| c s IH]; [reflexivity |].
  cbn [list_ascii_of_string List.length String.length]. rewrite IH. reflexivity.
Qed.

Lemma Unallocated_octet (host : Host) (n : Z) :
  0 <= n <= 255 ->
  Unallocated host (VNumber (Int n)) = Ok (VUnallocated (Int n)).
Proof.
  intros Hn. unfold Unallocated, number_ltb, strict_eq, ToInt32. cbn [norm].
  destruct (Z.ltb_spec n 0); [lia |].
  destruct (Z.ltb_spec 255 n); [lia |].
  rewrite to_int32_small by lia. rewrite Z.eqb_refl. reflexivity.
Qed.

Section MoreFuel.

Variable host : Host.
Variable parser : Parser.

Lemma _unpackArray_Ok_more_fuel (f k : nat) (bs : BufferStream.t) (left : Z)
      (res : list value) (r : parsed) :
  _unpackArray host parser f bs left res = Ok r ->
  _unpackArray host parser (k + f) bs left res = Ok r.
Proof.
  intros H. induction k as [| k IH]; [exact H |].
  cbn [Nat.add].
  rewrite (proj1 (proj2 (proj2 (proj2 (fuel_step host parser (k + f)))))).
  - exact IH.
  - unfold settled. rewrite IH. discriminate.
Qed.

Lemma _unpackMap_Ok_more_fuel (f k : nat) (bs : BufferStream.t) (left : Z)
      (res : list (string * value)) (r : parsed) :
  _unpackMap host parser f bs left res = Ok r ->
  _unpackMap host parser (k + f) bs left res = Ok r.
Proof.
  intros H. induction k as [| k IH]; [exact H |].
  cbn [Nat.add].
  rewrite (proj2 (proj2 (proj2 (proj2 (fuel_step host parser (k + f)))))).
  - exact IH.
  - unfold settled. rewrite IH. discriminate.
Qed.

(** Two amounts of fuel that both reach an outcome reach the same one. *)
Lemma _unpack_fuel_agree (f1 f2 : nat) (bs : BufferStream.t) (t : bool)
      (r : parsed) :
  _unpack host parser f1 bs t = Ok r ->
  settled (_unpack host parser f2 bs t) ->
  _unpack host parser f2 bs t = Ok r.
Proof.
  intros H1 H2. destruct (Nat.le_ge_cases f1 f2) as [Hle | Hle].
  - replace f2 with ((f2 - f1) + f1)%nat by lia.
    apply _unpack_Ok_more_fuel. exact H1.
  - rewrite <- (_unpack_more_fuel host parser f2 (f1 - f2) bs t H2).
    replace ((f1 - f2) + f2)%nat with f1 by lia. exact H1.
Qed.

Hypothesis decoders_settled :
  forall tag fn obj, semanticTags parser !! tag = Some fn -> settled (fn tag obj).

(** What [_unpack] reads with some fuel, [parser.unpack] delivers. *)
Lemma Parser_unpack_reads (f : nat) (bs rest : list Z) (d : decoded) :
  _unpack host parser f bs false = Ok (d, rest) ->
  Parser_unpack host parser bs 0 = Ok d.
Proof.
  intros H. unfold Parser_unpack. cbn [Z.eqb].
  rewrite (_unpack_fuel_agree f (unpack_fuel bs) bs false (d, rest) H).
  - reflexivity.
  - apply (descent_enough_fuel host parser decoders_settled
             (List.length bs) bs (Nat.le_refl _)).
    unfold unpack_fuel. lia.
Qed.

End MoreFuel.

Section Reading.

Variable host : Host.
Variable parser : Parser.

Lemma reads_integer (i : Z) :
  - 2^31 <= i <= 2^31 - 1 ->
  reads_as host parser (if 0 <=? i then framed 0 i else framed 1 (- i - 1))
           (VNumber (Int i)).
Proof.
  intros Hi rest t. exists 2%nat.
  destruct (Z.leb_spec 0 i).
  - rewrite _unpack_framed by lia. reflexivity.
  - rewrite _unpack_framed by lia. cbn [_getVal Z.eqb].
    replace (-1 - (- i - 1)) with i by lia.
    rewrite round53_small by lia. reflexivity.
Qed.

Lemma reads_constant (ai : Z) (v : value) :
  24 <= ai <= 27 ->
  _unpackSmallNumber host ai None = Ok (v, None) ->
  reads_as host parser [initial_byte 6 ai] v.
Proof.
  intros Hai Hv rest t. exists 2%nat. cbn [app].
  rewrite _unpack_immediate by lia. rewrite _getVal_eq. cbn [Z.eqb Pos.eqb].
  rewrite Hv. reflexivity.
Qed.

Lemma reads_text (s : string) :
  utf8_valid (octets_of_string s) = true ->
  Z.of_nat (String.length s) <= 0x7fffffff ->
  reads_as host parser
           (framed 3 (Z.of_nat (String.length s)) ++ octets_of_string s)
           (VString s).
Proof.
  intros Hu Hl rest t. exists 2%nat. rewrite <- app_assoc.
  rewrite _unpack_framed by lia. rewrite _getVal_eq. cbn [Z.eqb Pos.eqb].
  rewrite <- length_octets_of_string, wait_app.
  rewrite (Buffer_toString_octets_of_string _ Hu). reflexivity.
Qed.

Lemma reads_bytes (octets : list Z) :
  Z.of_nat (List.length octets) <= 0x7fffffff ->
  reads_as host parser (framed 2 (Z.of_nat (List.length octets)) ++ octets)
           (VBuffer octets).
Proof.
  intros Hl rest t. exists 2%nat. rewrite <- app_assoc.
  rewrite _unpack_framed by lia. rewrite _getVal_eq. cbn [Z.eqb Pos.eqb].
  rewrite wait_app. reflexivity.
Qed.

Lemma reads_simple (n : Z) :
  0 <= n <= 23 \/ 28 <= n <= 255 ->
  reads_as host parser (framed 6 n) (VUnallocated (Int n)).
Proof.
  intros Hn rest t. exists 2%nat. unfold framed.
  destruct (Z.leb_spec n 0x1b).
  - cbn [app]. rewrite _unpack_immediate by lia.
    rewrite _getVal_eq. cbn [Z.eqb Pos.eqb]. unfold _unpackSmallNumber.
    destruct (Z.leb_spec n 23); [| lia].
    rewrite Unallocated_octet by lia. reflexivity.
  - destruct (Z.leb_spec n 0xff); [| lia].
    cbn [app]. rewrite _unpack_eq, wait_1. cbn [octet_at nth].
    destruct (initial_byte_fields 6 0x1c) as [-> ->]; [lia | lia |].
    cbn [Z.sub Z.leb Z.compare Z.opp Z.add Z.pos_sub Pos.compare Z.eqb Pos.eqb].
    change (js_shl 1 (28 - 28)) with 1. cbv zeta.
    change (0 <=? 28 - 28) with true. cbv iota.
    rewrite wait_1. unfold _unpackSmallNumber.
    cbn [Z.leb Z.compare Pos.compare Pos.compare_cont Z.eqb Pos.eqb].
    rewrite Unallocated_octet by lia. reflexivity.
Qed.

(** The elements of an array, one after the other. *)
Lemma _unpackArray_reads (bl : list (list Z)) (elems : list value) :
  Forall2 (reads_as host parser) bl elems ->
  Z.of_nat (List.length elems) < 2^53 ->
  forall rest res, exists f,
    _unpackArray host parser f (concat bl ++ rest)
                 (Z.of_nat (List.length elems)) res =
    Ok ((VArray (res ++ elems), None), rest).
Proof.
  induction 1 as [| bytes e bl elems He _ IH]; intros Hlen rest res.
  - exists 1%nat. rewrite _unpackArray_eq. cbn [List.length]. cbn [concat app].
    rewrite app_nil_r. reflexivity.
  - cbn [List.length] in Hlen.
    destruct (He (concat bl ++ rest) false) as [f1 H1].
    destruct (IH ltac:(lia) rest (res ++ [e])) as [f2 H2].
    exists (S (f2 + f1)). rewrite _unpackArray_eq. cbn [List.length].
    destruct (Z.eqb_spec (Z.of_nat (S (List.length elems))) 0); [lia |].
    cbn [concat]. rewrite <- app_assoc.
    rewrite (_unpack_Ok_more_fuel host parser f1 f2 _ _ _ H1). cbn [obind].
    rewrite round53_small by lia.
    replace (Z.of_nat (S (List.length elems)) - 1)
      with (Z.of_nat (List.length elems)) by lia.
    replace (f2 + f1)%nat with (f1 + f2)%nat by lia.
    rewrite (_unpackArray_Ok_more_fuel host parser f2 f1 _ _ _ _ H2).
    rewrite <- app_assoc. reflexivity.
Qed.

(** The pairs of a map, key then value, one after the other; the keys
    are texts. *)
Lemma _unpackMap_reads (bl : list (list Z * list Z))
      (props : list (string * value)) :
  Forall2 (fun b kv => reads_as host parser (fst b) (VString (fst kv)) /\
                       reads_as host parser (snd b) (snd kv) /\
                       fst kv <> "__proto__"%string) bl props ->
  Z.of_nat (List.length props) < 2^53 ->
  forall rest res, exists f,
    _unpackMap host parser f
               (concat (map (fun b => fst b ++ snd b) bl) ++ rest)
               (Z.of_nat (List.length props)) res =
    Ok ((VObject CObject
           (fold_left (fun r kv => set_prop r (fst kv) (snd kv)) props res),
         None), rest).
Proof.
  induction 1 as [| [kb vb] [k v] bl props (Hk & Hv & Hp) _ IH];
    intros Hlen rest res.
  - exists 1%nat. rewrite _unpackMap_eq. reflexivity.
  - cbn [List.length fst snd] in *.
    set (tail := concat (map (fun b => fst b ++ snd b) bl) ++ rest).
    destruct (Hk (vb ++ tail) false) as [f1 H1].
    destruct (Hv tail false) as [f2 H2].
    destruct (IH ltac:(lia) rest (set_prop res k v)) as [f3 H3]. fold tail in H3.
    exists (S (f1 + f2 + f3)). rewrite _unpackMap_eq.
    destruct (Z.eqb_spec (Z.of_nat (S (List.length props))) 0); [lia |].
    cbn [map concat fst snd]. rewrite <- !app_assoc. fold tail.
    replace (f1 + f2 + f3)%nat with ((f2 + f3) + f1)%nat at 1 by lia.
    rewrite (_unpack_Ok_more_fuel host parser f1 _ _ _ _ H1). cbn [obind].
    replace (f1 + f2 + f3)%nat with ((f1 + f3) + f2)%nat at 1 by lia.
    rewrite (_unpack_Ok_more_fuel host parser f2 _ _ _ _ H2). cbn [obind ToString].
    rewrite Object_put_named by assumption. cbn [obind].
    rewrite round53_small by lia.
    replace (Z.of_nat (S (List.length props)) - 1)
      with (Z.of_nat (List.length props)) by lia.
    replace (f1 + f2 + f3)%nat with ((f1 + f2) + f3)%nat by lia.
    rewrite (_unpackMap_Ok_more_fuel host parser f3 _ _ _ _ _ H3).
    reflexivity.
Qed.

End Reading.

(* ================================================================== *)
(** * Items that are cut short *)
(* ================================================================== *)

Lemma wait_short (n : Z) (q : list Z) :
  Z.of_nat (List.length q) < n -> BufferStream.wait n q = None.
Proof.
  intros H. unfold BufferStream.wait, BufferStream.length.
  destruct (Z.leb_spec 0 n); [| reflexivity].
  destruct (Z.leb_spec n (Z.of_nat (List.length q))); [lia | reflexivity].
Qed.

Lemma length_be_bytes (w : nat) (v : Z) :
  List.length (BufferStream.be_bytes w v) = w.
Proof.
  unfold BufferStream.be_bytes. rewrite length_map, length_rev, length_seq.
  reflexivity.
Qed.

Lemma js_shl_1 (ai : Z) :
  28 <= ai <= 31 -> js_shl 1 (ai - 28) = 2^(ai - 28).
Proof.
  intros H.
  assert (ai = 28 \/ ai = 29 \/ ai = 30 \/ ai = 31) as [-> | [-> | [-> | ->]]]
    by lia; reflexivity.
Qed.

(** Where a list is cut, with respect to its two parts. *)
Lemma prefix_split (a b q s : list Z) :
  a ++ b = q ++ s -> s <> [] ->
  (exists l, l <> [] /\ a = q ++ l) \/ (exists l, q = a ++ l /\ b = l ++ s).
Proof.
  intros Heq Hs. apply app_eq_app in Heq.
  destruct Heq as [l [[H1 H2] | [H1 H2]]].
  - destruct l as [| x l].
    + right. exists []. rewrite app_nil_r in H1. subst. split.
      * rewrite app_nil_r. reflexivity.
      * reflexivity.
    + left. exists (x :: l). split; [discriminate | exact H1].
  - right. exists l. split; assumption.
Qed.

Lemma awaits_obind {A B : Type} (o : outcome A) (k : A -> outcome B) :
  awaits o -> awaits (obind o k).
Proof. intros [-> | ->]; [left | right]; reflexivity. Qed.

Section CutShort.

Variable host : Host.
Variable parser : Parser.

Lemma _unpack_nothing (f : nat) (t : bool) :
  awaits (_unpack host parser f [] t).
Proof.
  destruct f; [right; reflexivity | left].
  rewrite _unpack_eq, wait_nil by discriminate. reflexivity.
Qed.

(** What is read from the bytes of an item, with any fuel. *)
Lemma reads_with_any_fuel (bytes : list Z) (v : value) (f : nat)
      (rest : list Z) (t : bool) :
  reads_as host parser bytes v ->
  _unpack host parser f (bytes ++ rest) t = Ok ((v, None), rest) \/
  _unpack host parser f (bytes ++ rest) t = OutOfFuel.
Proof.
  intros H. destruct (H rest t) as [f1 H1].
  destruct (_unpack host parser f (bytes ++ rest) t) eqn:E;
    try (right; reflexivity); left; rewrite <- E;
    apply (_unpack_fuel_agree host parser f1 f _ _ _ H1);
    unfold settled; rewrite E; discriminate.
Qed.

Lemma _unpack_short_operand (f : nat) (mt ai : Z) (q : list Z) (t : bool) :
  0 <= mt < 8 -> 28 <= ai < 32 -> Z.of_nat (List.length q) < 2^(ai - 28) ->
  awaits (_unpack host parser f (initial_byte mt ai :: q) t).
Proof.
  intros Hmt Hai Hq. destruct f; [right; reflexivity | left].
  rewrite _unpack_eq, wait_1. cbn [octet_at nth].
  destruct (initial_byte_fields mt ai) as [-> ->]; [lia | lia |].
  cbv zeta. destruct (Z.leb_spec 0 (ai - 28)); [| lia].
  rewrite js_shl_1 by lia. rewrite wait_short by exact Hq. reflexivity.
Qed.

Lemma starves_head (mt n : Z) :
  0 <= mt < 8 -> 0 <= n <= 0x7fffffff -> starves host parser (framed mt n).
Proof.
  intros Hmt Hn p s f t Heq Hs.
  destruct p as [| o q]; [apply _unpack_nothing |].
  assert (Hlen : forall (operand : list Z),
            operand = q ++ s -> (List.length q < List.length operand)%nat).
  { intros operand ->. rewrite length_app.
    destruct s; [contradiction | cbn [List.length]; lia]. }
  unfold framed in Heq.
  destruct (Z.leb_spec n 0x1b).
  { injection Heq as _ Heq. specialize (Hlen _ Heq). cbn in Hlen. lia. }
  destruct (Z.leb_spec n 0xff).
  { injection Heq as <- Heq. specialize (Hlen _ Heq).
    apply _unpack_short_operand; [lia | lia |].
    cbn [List.length] in Hlen. change (2^(28 - 28)) with 1. lia. }
  destruct (Z.leb_spec n 0xffff).
  { injection Heq as <- Heq. specialize (Hlen _ Heq).
    rewrite length_be_bytes in Hlen.
    apply _unpack_short_operand; [lia | lia |].
    change (2^(29 - 28)) with 2. lia. }
  injection Heq as <- Heq. specialize (Hlen _ Heq).
  rewrite length_be_bytes in Hlen.
  apply _unpack_short_operand; [lia | lia |].
  change (2^(30 - 28)) with 4. lia.
Qed.

Lemma starves_single (o : Z) : starves host parser [o].
Proof.
  intros p s f t Heq Hs.
  destruct p as [| o' q]; [apply _unpack_nothing |].
  injection Heq as _ Heq. destruct q; [| discriminate Heq].
  cbn in Heq. subst s. contradiction.
Qed.

(** A text or a byte string that stops short of its length. *)
Lemma starves_payload (mt : Z) (payload : list Z) :
  mt = 2 \/ mt = 3 ->
  Z.of_nat (List.length payload) <= 0x7fffffff ->
  starves host parser (framed mt (Z.of_nat (List.length payload)) ++ payload).
Proof.
  intros Hmt Hl p s f t Heq Hs.
  destruct (prefix_split _ _ _ _ Heq Hs) as [(l & Hne & Hh) | (l & -> & Hp)].
  { apply (starves_head mt (Z.of_nat (List.length payload)) ltac:(lia) ltac:(lia)
             p l f t Hh Hne). }
  assert (Hshort : Z.of_nat (List.length l) < Z.of_nat (List.length payload)).
  { rewrite Hp, length_app. destruct s; [contradiction | cbn [List.length]; lia]. }
  destruct f as [| f]; [right; reflexivity |].
  rewrite _unpack_framed by lia.
  destruct f as [| f]; [right; reflexivity | left].
  rewrite _getVal_eq.
  destruct Hmt as [-> | ->]; cbn [Z.eqb Pos.eqb];
    rewrite wait_short by exact Hshort; reflexivity.
Qed.

(** An array that stops short of its elements. *)
Lemma _unpackArray_starves (bl : list (list Z)) (elems : list value) :
  Forall2 (item host parser) bl elems ->
  Z.of_nat (List.length elems) < 2^53 ->
  forall q s f res, concat bl = q ++ s -> s <> [] ->
    awaits (_unpackArray host parser f q (Z.of_nat (List.length elems)) res).
Proof.
  induction 1 as [| bytes e bl elems [Hr Hst] _ IH]; intros Hlen q s f res Heq Hs.
  { cbn in Heq. destruct q; [| discriminate Heq]. cbn in Heq. subst s.
    contradiction. }
  cbn [List.length] in Hlen.
  destruct f as [| f]; [right; reflexivity |].
  rewrite _unpackArray_eq. cbn [List.length].
  destruct (Z.eqb_spec (Z.of_nat (S (List.length elems))) 0); [lia |].
  cbn [concat] in Heq.
  destruct (prefix_split _ _ _ _ Heq Hs) as [(l & Hne & Hh) | (l & -> & Hp)].
  { apply awaits_obind. exact (Hst q l f false Hh Hne). }
  destruct (reads_with_any_fuel bytes e f l false Hr) as [-> | ->];
    [| right; reflexivity].
  cbn [obind]. rewrite round53_small by lia.
  replace (Z.of_nat (S (List.length elems)) - 1)
    with (Z.of_nat (List.length elems)) by lia.
  apply (IH ltac:(lia) l s f (res ++ [e]) Hp Hs).
Qed.

(** A map that stops short of its pairs. *)
Lemma _unpackMap_starves (bl : list (list Z * list Z))
      (props : list (string * value)) :
  Forall2 (fun b kv => item host parser (fst b) (VString (fst kv)) /\
                       item host parser (snd b) (snd kv) /\
                       fst kv <> "__proto__"%string) bl props ->
  Z.of_nat (List.length props) < 2^53 ->
  forall q s f res,
    concat (map (fun b => fst b ++ snd b) bl) = q ++ s -> s <> [] ->
    awaits (_unpackMap host parser f q (Z.of_nat (List.length props)) res).
Proof.
  induction 1 as [| [kb vb] [k v] bl props ([Hkr Hks] & [Hvr Hvs] & Hp) _ IH];
    intros Hlen q s f res Heq Hs.
  { cbn in Heq. destruct q; [| discriminate Heq]. cbn in Heq. subst s.
    contradiction. }
  cbn [List.length fst snd] in *.
  destruct f as [| f]; [right; reflexivity |].
  rewrite _unpackMap_eq.
  destruct (Z.eqb_spec (Z.of_nat (S (List.length props))) 0); [lia |].
  cbn [map concat fst snd] in Heq. rewrite <- app_assoc in Heq.
  destruct (prefix_split _ _ _ _ Heq Hs) as [(l & Hne & Hh) | (l & -> & Hrest)].
  { apply awaits_obind. exact (Hks q l f false Hh Hne). }
  destruct (reads_with_any_fuel kb (VString k) f l false Hkr) as [-> | ->];
    [| right; reflexivity].
  cbn [obind].
  destruct (prefix_split _ _ _ _ Hrest Hs) as [(l' & Hne & Hh) | (l' & -> & Htail)].
  { apply awaits_obind. exact (Hvs l l' f false Hh Hne). }
  destruct (reads_with_any_fuel vb v f l' false Hvr) as [-> | ->];
    [| right; reflexivity].
  cbn [obind ToString]. rewrite Object_put_named by assumption. cbn [obind].
  rewrite round53_small by lia.
  replace (Z.of_nat (S (List.length props)) - 1)
    with (Z.of_nat (List.length props)) by lia.
  apply (IH ltac:(lia) l' s f (set_prop res k v) Htail Hs).
Qed.

(** An array or a map whose head is whole. *)
Lemma starves_composite (mt : Z) (n : Z) (body : list Z) :
  mt = 4 \/ mt = 5 -> 0 <= n <= 0x7fffffff ->
  (forall q s f,
     body = q ++ s -> s <> [] ->
     awaits (if mt =? 4 then _unpackArray host parser f q n []
             else _unpackMap host parser f q n [])) ->
  starves host parser (framed mt n ++ body).
Proof.
  intros Hmt Hn Hbody p s f t Heq Hs.
  destruct (prefix_split _ _ _ _ Heq Hs) as [(l & Hne & Hh) | (l & -> & Hp)].
  { apply (starves_head mt n ltac:(lia) Hn p l f t Hh Hne). }
  destruct f as [| f]; [right; reflexivity |].
  rewrite _unpack_framed by lia.
  destruct f as [| f]; [right; reflexivity |].
  rewrite _getVal_eq. specialize (Hbody l s f Hp Hs).
  destruct Hmt as [-> | ->]; exact Hbody.
Qed.

End CutShort.

(* ================================================================== *)
(** * The generator and the parser, one after the other *)
(* ================================================================== *)

Lemma _packObject_default_array (gen : value -> Gen unit) (elems : list value) :
  _packObject (new_Generator []) gen (VArray elems) = _packArray gen (VArray elems).
Proof. reflexivity. Qed.

Lemma _packObject_default_bytes (gen : value -> Gen unit) (octets : list Z) :
  _packObject (new_Generator []) gen (VBuffer octets) =
  _packBuffer gen (VBuffer octets).
Proof. reflexivity. Qed.

Lemma _packObject_default_simple (gen : value -> Gen unit) (n : number) :
  _packObject (new_Generator []) gen (VUnallocated n) =
  Unallocated_pack gen (VUnallocated n).
Proof. reflexivity. Qed.

Lemma _packObject_default_literal (gen : value -> Gen unit)
      (props : list (string * value)) :
  _packObject (new_Generator []) gen (VObject CObject props) =
  (_packInt (Z.of_nat (List.length (Object_keys (VObject CObject props)))) 5 ;;;
   gforeach (fun key => gen (VString key) ;;;
                        gen (Object_get (VObject CObject props) key))
            (Object_keys (VObject CObject props)))%gen.
Proof. reflexivity. Qed.

(** Names that are no array indices are listed in the order of their
    creation. *)
Lemma ordered_keys_no_index (keys : list string) :
  forallb (fun k => match array_index k with Some _ => false | None => true end)
          keys = true ->
  ordered_keys keys = keys.
Proof.
  intros H. unfold ordered_keys.
  assert (Ho : omap array_index keys = []).
  { induction keys as [| k keys IH]; [reflexivity |].
    cbn [forallb] in H. apply andb_true_iff in H. destruct H as [Hk H].
    cbn. destruct (array_index k); [discriminate |]. apply IH, H. }
  rewrite Ho. cbn [fold_right map app].
  induction keys as [| k keys IH]; [reflexivity |].
  cbn [forallb] in H. apply andb_true_iff in H. destruct H as [Hk H].
  cbn [List.filter]. rewrite Hk. f_equal. apply IH.
  - exact H.
  - clear -H. induction keys as [| k' keys IH]; [reflexivity |].
    cbn [forallb] in H. apply andb_true_iff in H. destruct H as [Hk H].
    cbn. destruct (array_index k'); [discriminate |]. apply IH, H.
Qed.

Lemma distinct_not_in (l1 l2 : list string) (k : string) :
  distinct (l1 ++ k :: l2) = true -> ~ In k l1.
Proof.
  induction l1 as [| a l1 IH]; intros H; [intros [] |].
  cbn [app distinct] in H. apply andb_true_iff in H. destruct H as [Ha H].
  intros [-> | Hin]; [| exact (IH H Hin)].
  apply negb_true_iff in Ha.
  assert (Hex : existsb (String.eqb k) (l1 ++ k :: l2) = true).
  { apply existsb_exists. exists k. split; [| apply String.eqb_refl].
    apply in_or_app. right. left. reflexivity. }
  congruence.
Qed.

Lemma distinct_tail (l1 l2 : list string) :
  distinct (l1 ++ l2) = true -> distinct l2 = true.
Proof.
  induction l1 as [| a l1 IH]; intros H; [exact H |].
  cbn [app distinct] in H. apply andb_true_iff in H. apply IH, H.
Qed.

Lemma get_prop_distinct (props : list (string * value)) (k : string) (v : value) :
  distinct (map fst props) = true -> In (k, v) props ->
  get_prop props k = Some v.
Proof.
  induction props as [| [k0 v0] props IH]; intros Hd Hin; [destruct Hin |].
  cbn [map fst distinct] in Hd. apply andb_true_iff in Hd. destruct Hd as [H0 Hd].
  cbn [get_prop]. destruct Hin as [Heq | Hin].
  - injection Heq as -> ->. rewrite String.eqb_refl. reflexivity.
  - destruct (String.eqb_spec k0 k) as [-> | Hne]; [| exact (IH Hd Hin)].
    apply negb_true_iff in H0.
    assert (Hex : existsb (String.eqb k) (map fst props) = true).
    { apply existsb_exists. exists k. split; [| apply String.eqb_refl].
      apply (in_map fst) in Hin. exact Hin. }
    congruence.
Qed.

Lemma set_prop_fresh (res : list (string * value)) (k : string) (v : value) :
  ~ In k (map fst res) -> set_prop res k v = res ++ [(k, v)].
Proof.
  induction res as [| [k0 v0] res IH]; intros Hn; [reflexivity |].
  cbn [set_prop app]. destruct (String.eqb_spec k0 k) as [-> | Hne].
  - exfalso. apply Hn. left. reflexivity.
  - f_equal. apply IH. intros Hin. apply Hn. right. exact Hin.
Qed.

(** Assignments to names that differ come one after the other. *)
Lemma set_props_distinct (props res : list (string * value)) :
  distinct (map fst (res ++ props)) = true ->
  fold_left (fun r kv => set_prop r (fst kv) (snd kv)) props res = res ++ props.
Proof.
  revert res. induction props as [| [k v] props IH]; intros res Hd.
  - cbn. rewrite app_nil_r. reflexivity.
  - cbn [fold_left fst snd]. rewrite set_prop_fresh.
    + rewrite IH; rewrite <- app_assoc; [reflexivity | exact Hd].
    + rewrite map_app in Hd. cbn [map fst] in Hd.
      exact (distinct_not_in _ _ _ Hd).
Qed.

Lemma depth_element (e : value) (elems : list value) :
  In e elems ->
  (depth e <= fold_right (fun e d => Nat.max (depth e) d) O elems)%nat.
Proof.
  induction elems as [| a elems IH]; intros Hin; [destruct Hin |].
  cbn [fold_right]. destruct Hin as [-> | Hin]; [lia |].
  specialize (IH Hin). lia.
Qed.

Lemma depth_property (k : string) (x : value) (props : list (string * value)) :
  In (k, x) props ->
  (depth x <= fold_right (fun '(_, x) d => Nat.max (depth x) d) O props)%nat.
Proof.
  induction props as [| [k0 x0] props IH]; intros Hin; [destruct Hin |].
  cbn [fold_right]. destruct Hin as [Heq | Hin].
  - injection Heq as -> ->. lia.
  - specialize (IH Hin). lia.
Qed.

Section RoundTrip.

Variable host : Host.
Variable parser : Parser.

Lemma gforeach_items (gen : value -> Gen unit) (elems : list value) :
  (forall e, In e elems -> writes_item host parser gen e) ->
  forall b, exists bl,
    gforeach gen elems b = (Ok tt, b ++ concat bl) /\
    Forall2 (item host parser) bl elems.
Proof.
  induction elems as [| e elems IH]; intros H b.
  - exists []. cbn. rewrite app_nil_r. split; [reflexivity | constructor].
  - destruct (H e ltac:(left; reflexivity) b) as (bytes & Hw & Hr).
    destruct (IH (fun e' Hin => H e' (or_intror Hin)) (b ++ bytes))
      as (bl & Hws & Hrs).
    exists (bytes :: bl). cbn [gforeach concat]. unfold gbind.
    rewrite Hw, Hws, <- app_assoc. split; [reflexivity |].
    constructor; assumption.
Qed.

Lemma gforeach_pair_items (gen : value -> Gen unit) (get : string -> value)
      (props : list (string * value)) :
  (forall k v, In (k, v) props ->
     get k = v /\ k <> "__proto__"%string /\
     writes_item host parser gen (VString k) /\ writes_item host parser gen v) ->
  forall b, exists bl,
    gforeach (fun key => gen (VString key) ;;; gen (get key))%gen
             (map fst props) b =
    (Ok tt, b ++ concat (map (fun b => fst b ++ snd b) bl)) /\
    Forall2 (fun b kv => item host parser (fst b) (VString (fst kv)) /\
                         item host parser (snd b) (snd kv) /\
                         fst kv <> "__proto__"%string) bl props.
Proof.
  induction props as [| [k v] props IH]; intros H b.
  - exists []. cbn. rewrite app_nil_r. split; [reflexivity | constructor].
  - destruct (H k v ltac:(left; reflexivity)) as (Hg & Hp & Hk & Hv).
    destruct (Hk b) as (kb & Hkw & Hkr).
    destruct (Hv (b ++ kb)) as (vb & Hvw & Hvr).
    destruct (IH (fun k' v' Hin => H k' v' (or_intror Hin)) ((b ++ kb) ++ vb))
      as (bl & Hws & Hrs).
    exists ((kb, vb) :: bl). cbn [map fst snd gforeach concat]. unfold gbind.
    rewrite Hkw, Hg, Hvw. unfold gbind in Hws. rewrite Hws.
    rewrite <- !app_assoc. split; [reflexivity |].
    constructor; [| assumption]. cbn [fst snd]. auto.
Qed.

(** What [unsafePack] writes for a plain value is the bytes of one item,
    read as the value. *)
Lemma unsafePack_item (fuel : nat) (v : value) :
  plain v = true -> (depth v < fuel)%nat ->
  writes_item host parser (unsafePack fuel (new_Generator [])) v.
Proof.
  revert v. induction fuel as [| fuel IH]; intros v Hp Hd b; [lia |].
  destruct v as [| | bo | n | s | | elems | cls props | octets | octets | t | src | n];
    cbn [plain] in Hp; try discriminate Hp; cbn [unsafePack].
  - exists [initial_byte 6 27]. split; [reflexivity |].
    split; [| apply starves_single].
    apply reads_constant; [lia | reflexivity].
  - exists [initial_byte 6 26]. split; [reflexivity |].
    split; [| apply starves_single].
    apply reads_constant; [lia | reflexivity].
  - destruct bo.
    + exists [initial_byte 6 25]. split; [reflexivity |].
      split; [| apply starves_single].
      apply reads_constant; [lia | reflexivity].
    + exists [initial_byte 6 24]. split; [reflexivity |].
      split; [| apply starves_single].
      apply reads_constant; [lia | reflexivity].
  - destruct n as [i | |]; try discriminate Hp.
    apply andb_true_iff in Hp. destruct Hp as [Hlo Hhi].
    apply Z.leb_le in Hlo, Hhi.
    exists (if 0 <=? i then framed 0 i else framed 1 (- i - 1)).
    split; [| split; [apply reads_integer; lia |]].
    + rewrite _packNumber_int32 by lia.
      destruct (Z.leb_spec 0 i); apply _packInt_framed; lia.
    + destruct (Z.leb_spec 0 i); apply starves_head; lia.
  - apply andb_true_iff in Hp. destruct Hp as [Hu Hl]. apply Z.leb_le in Hl.
    exists (framed 3 (Z.of_nat (String.length s)) ++ octets_of_string s).
    split; [| split; [apply reads_text; assumption |]].
    + unfold gbind. rewrite _packInt_framed by lia.
      unfold gwrite, BufferStream.append. rewrite <- app_assoc. reflexivity.
    + rewrite <- length_octets_of_string.
      apply starves_payload; [right; reflexivity |].
      rewrite length_octets_of_string. exact Hl.
  - apply andb_true_iff in Hp. destruct Hp as [Hl He]. apply Z.leb_le in Hl.
    rewrite _packObject_default_array. cbn [_packArray]. unfold gbind.
    rewrite _packInt_framed by lia.
    destruct (gforeach_items (unsafePack fuel (new_Generator [])) elems)
      with (b := b ++ framed 4 (Z.of_nat (List.length elems)))
      as (bl & Hw & Hr).
    { intros e Hin. apply IH.
      - rewrite forallb_forall in He. apply He, Hin.
      - cbn [depth] in Hd. pose proof (depth_element e elems Hin). lia. }
    exists (framed 4 (Z.of_nat (List.length elems)) ++ concat bl).
    rewrite Hw, <- app_assoc. split; [reflexivity |]. split.
    + intros rest tg.
      assert (Hr' : Forall2 (reads_as host parser) bl elems).
      { eapply Forall2_impl; [exact Hr |]. intros x y Hxy. exact (proj1 Hxy). }
      destruct (_unpackArray_reads host parser bl elems Hr' ltac:(lia) rest [])
        as [f Hf].
      exists (S (S f)). rewrite <- app_assoc.
      rewrite _unpack_framed by lia. rewrite _getVal_eq. cbn [Z.eqb Pos.eqb].
      exact Hf.
    + apply starves_composite; [left; reflexivity | lia |].
      intros q s f Hq Hs. cbn [Z.eqb Pos.eqb].
      apply (_unpackArray_starves host parser bl elems Hr ltac:(lia) q s f [] Hq Hs).
  - destruct cls; try discriminate Hp.
    apply andb_true_iff in Hp. destruct Hp as [Hp He].
    apply andb_true_iff in Hp. destruct Hp as [Hl Hdis]. apply Z.leb_le in Hl.
    rewrite forallb_forall in He.
    rewrite _packObject_default_literal. cbn [Object_keys].
    rewrite ordered_keys_no_index.
    2:{ apply forallb_forall. intros k Hin. apply in_map_iff in Hin.
        destruct Hin as [[k' x] [<- Hin]]. specialize (He _ Hin).
        cbn [fst]. cbv beta iota in He. unfold plain_key in He.
        destruct (array_index k'); [| reflexivity].
        rewrite andb_false_r in He. cbn in He. discriminate He. }
    rewrite length_map. unfold gbind at 1. rewrite _packInt_framed by lia.
    destruct (gforeach_pair_items (unsafePack fuel (new_Generator []))
                (Object_get (VObject CObject props)) props)
      with (b := b ++ framed 5 (Z.of_nat (List.length props)))
      as (bl & Hw & Hr).
    { intros k x Hin. specialize (He _ Hin). cbv beta iota in He.
      apply andb_true_iff in He. destruct He as [Hk Hx].
      unfold plain_key in Hk.
      apply andb_true_iff in Hk. destruct Hk as [Hk Hlen].
      apply andb_true_iff in Hk. destruct Hk as [Hk Hutf].
      apply andb_true_iff in Hk. destruct Hk as [Hproto _].
      cbn [depth] in Hd. pose proof (depth_property k x props Hin).
      split; [| split; [| split]].
      - cbn [Object_get]. rewrite (get_prop_distinct props k x Hdis Hin).
        reflexivity.
      - intros ->. discriminate Hproto.
      - apply IH; [| cbn [depth]; lia].
        cbn [plain]. rewrite Hutf, Hlen. reflexivity.
      - apply IH; [exact Hx | lia]. }
    exists (framed 5 (Z.of_nat (List.length props))
            ++ concat (map (fun b => fst b ++ snd b) bl)).
    rewrite Hw, <- app_assoc. split; [reflexivity |]. split.
    + intros rest tg.
      assert (Hr' : Forall2 (fun b kv =>
                       reads_as host parser (fst b) (VString (fst kv)) /\
                       reads_as host parser (snd b) (snd kv) /\
                       fst kv <> "__proto__"%string) bl props).
      { eapply Forall2_impl; [exact Hr |].
        intros x y (H1 & H2 & H3). exact (conj (proj1 H1) (conj (proj1 H2) H3)). }
      destruct (_unpackMap_reads host parser bl props Hr' ltac:(lia) rest [])
        as [f Hf].
      exists (S (S f)). rewrite <- app_assoc.
      rewrite _unpack_framed by lia. rewrite _getVal_eq. cbn [Z.eqb Pos.eqb].
      rewrite Hf. rewrite set_props_distinct by exact Hdis. reflexivity.
    + apply starves_composite; [right; reflexivity | lia |].
      intros q s f Hq Hs. cbn [Z.eqb Pos.eqb].
      apply (_unpackMap_starves host parser bl props Hr ltac:(lia) q s f [] Hq Hs).
  - apply Z.leb_le in Hp.
    rewrite _packObject_default_bytes. cbn [_packBuffer]. unfold gbind.
    rewrite _packInt_framed by lia.
    exists (framed 2 (Z.of_nat (List.length octets)) ++ octets).
    split; [| split; [apply reads_bytes; lia |]].
    + unfold gwrite, BufferStream.append. rewrite <- app_assoc. reflexivity.
    + apply starves_payload; [left; reflexivity | lia].
  - destruct n as [n | |]; try discriminate Hp.
    assert (Hn : 0 <= n <= 23 \/ 28 <= n <= 255).
    { apply orb_true_iff in Hp.
      destruct Hp as [Hp | Hp]; apply andb_true_iff in Hp; destruct Hp as [H1 H2];
        apply Z.leb_le in H1, H2; lia. }
    rewrite _packObject_default_simple. cbn [Unallocated_pack ToInt32 norm].
    rewrite to_int32_small by lia.
    exists (framed 6 n). split; [apply _packInt_framed; lia |].
    split; [apply reads_simple; exact Hn | apply starves_head; lia].
Qed.

End RoundTrip.

(** X1.  Round trip.  A plain value, nested less deep than the fuel, is
    written by [pack]; and [unpack] reads it back from the bytes, whatever
    follows them. *)
Theorem plain_round_trip (host : Host) (fuel : nat) (v : value) (rest : list Z) :
  plain v = true -> (depth v < fuel)%nat ->
  exists bytes,
    pack fuel v = Ok bytes /\
    unpack host (bytes ++ rest) = Ok (v, None).
Proof.
  intros Hp Hd.
  destruct (unsafePack_item host (new_Parser host []) fuel v Hp Hd [])
    as (bytes & Hw & [Hr _]).
  exists bytes. split.
  - unfold pack, Generator_pack, BufferStream.empty. rewrite Hw. reflexivity.
  - destruct (Hr rest false) as [f Hf].
    exact (Parser_unpack_reads host (new_Parser host [])
             (default_decoders_settled host) f _ _ _ Hf).
Qed.

Lemma plain_round_trip_witness :
  exists bytes,
    pack 3 (VArray [VNumber (Int (-70000)); VString "a";
                    VObject CObject [("k"%string, VBuffer [1; 2]);
                                     ("u"%string, VUnallocated (Int 200))];
                    VNull]) = Ok bytes /\
    unpack plain_host (bytes ++ [0xff])
    = Ok (VArray [VNumber (Int (-70000)); VString "a";
                  VObject CObject [("k"%string, VBuffer [1; 2]);
                                   ("u"%string, VUnallocated (Int 200))];
                  VNull], None).
Proof.
  apply (plain_round_trip plain_host 3 _ [0xff]); [reflexivity | cbn; lia].
Defined.

(** X2.  Items cut short.  When the bytes that [pack] writes for a plain
    value stop short of their end, [unpack] does not call back: neither
    with a value nor with an error. *)
Theorem cut_short_is_awaited (host : Host) (fuel : nat) (v : value)
        (p s : list Z) :
  plain v = true -> (depth v < fuel)%nat ->
  pack fuel v = Ok (p ++ s) -> s <> [] ->
  unpack host p = Pending.
Proof.
  intros Hp Hd Hpack Hs.
  destruct (unsafePack_item host (new_Parser host []) fuel v Hp Hd [])
    as (bytes & Hw & [_ Hst]).
  unfold pack, Generator_pack, BufferStream.empty in Hpack.
  rewrite Hw in Hpack. cbn [app BufferStream.flatten] in Hpack.
  injection Hpack as ->.
  unfold unpack, Parser_unpack. cbn [Z.eqb].
  pose proof (proj1 (descent_enough_fuel host (new_Parser host [])
                       (default_decoders_settled host)
                       (List.length p) p (Nat.le_refl _))
                (unpack_fuel p) false ltac:(unfold unpack_fuel; lia)) as Hset.
  destruct (Hst p s (unpack_fuel p) false eq_refl Hs) as [E | E].
  - rewrite E. reflexivity.
  - destruct (Hset E).
Qed.

Lemma cut_short_is_awaited_witness :
  unpack plain_host [0x82; 0x01; 0x62; 0x68] = Pending.
Proof.
  apply (cut_short_is_awaited plain_host 2
           (VArray [VNumber (Int 1); VString "hi"])
           [0x82; 0x01; 0x62; 0x68] [0x69]);
    [reflexivity | cbn; lia | reflexivity | discriminate].
Defined.

(* ================================================================== *)
(** * Bytes that come after an item *)
(* ================================================================== *)

Lemma wait_followed_by (n : Z) (bs buf bs1 extra : list Z) :
  BufferStream.wait n bs = Some (buf, bs1) ->
  BufferStream.wait n (bs ++ extra) = Some (buf, bs1 ++ extra).
Proof.
  unfold BufferStream.wait, BufferStream.length.
  destruct (Z.leb_spec 0 n); [| discriminate].
  destruct (Z.leb_spec n (Z.of_nat (List.length bs))); [| discriminate].
  cbn [andb]. intros Heq. injection Heq as <- <-.
  rewrite length_app.
  destruct (Z.leb_spec n (Z.of_nat (List.length bs + List.length extra))); [| lia].
  cbn [andb].
  rewrite firstn_app, skipn_app.
  replace (Z.to_nat n - List.length bs)%nat with O by lia.
  cbn [firstn skipn]. rewrite app_nil_r. reflexivity.
Qed.

Section FollowedBy.

Variable host : Host.
Variable parser : Parser.
Variable extra : list Z.

(** An outcome other than waiting for bytes stays when bytes are added
    after the input: they are left in the stream. *)
Lemma descent_followed_by (f : nat) :
  (forall bs t, _unpack host parser f bs t <> Pending ->
     _unpack host parser f (bs ++ extra) t =
     followed_by extra (_unpack host parser f bs t)) /\
  (forall mt num bs t, _getVal host parser f mt num bs t <> Pending ->
     _getVal host parser f mt num (bs ++ extra) t =
     followed_by extra (_getVal host parser f mt num bs t)) /\
  (forall tag bs, _unpackSemanticTag host parser f tag bs <> Pending ->
     _unpackSemanticTag host parser f tag (bs ++ extra) =
     followed_by extra (_unpackSemanticTag host parser f tag bs)) /\
  (forall bs left res, _unpackArray host parser f bs left res <> Pending ->
     _unpackArray host parser f (bs ++ extra) left res =
     followed_by extra (_unpackArray host parser f bs left res)) /\
  (forall bs left res, _unpackMap host parser f bs left res <> Pending ->
     _unpackMap host parser f (bs ++ extra) left res =
     followed_by extra (_unpackMap host parser f bs left res)).
Proof.
  induction f as [| f (IHu & IHg & IHt & IHa & IHm)].
  { repeat split; intros; reflexivity. }
  assert (IHu' : forall bs t o, _unpack host parser f bs t = o -> o <> Pending ->
            _unpack host parser f (bs ++ extra) t = followed_by extra o).
  { intros bs t o <- Ho. apply IHu, Ho. }
  split; [| split; [| split; [| split]]].
  - intros bs t. rewrite !_unpack_eq.
    destruct (BufferStream.wait 1 bs) as [[buf bs1] |] eqn:Hw;
      [| intros H; contradiction].
    rewrite (wait_followed_by _ _ _ _ extra Hw). cbv zeta.
    destruct (0 <=? js_and (octet_at buf 0) 31 - 28); [| apply IHg].
    destruct (BufferStream.wait _ bs1) as [[buf2 bs2] |] eqn:Hw2;
      [| intros H; contradiction].
    rewrite (wait_followed_by _ _ _ _ extra Hw2).
    destruct (js_shr (octet_at buf 0) 5 =? 6).
    + destruct (_unpackSmallNumber host _ _); reflexivity.
    + destruct (_unpackInt _ buf2) as [num | | | | |]; try reflexivity.
      cbn [obind]. apply IHg.
  - intros mt num bs t. rewrite !_getVal_eq.
    repeat match goal with
           | |- (if ?c then _ else _) <> _ -> _ => destruct c
           end;
      try reflexivity; try apply IHa; try apply IHm; try apply IHt.
    + destruct (BufferStream.wait num bs) as [[buf bs1] |] eqn:Hw;
        [| intros H; contradiction].
      rewrite (wait_followed_by _ _ _ _ extra Hw). reflexivity.
    + destruct (BufferStream.wait num bs) as [[buf bs1] |] eqn:Hw;
        [| intros H; contradiction].
      rewrite (wait_followed_by _ _ _ _ extra Hw). reflexivity.
    + destruct (_unpackSmallNumber host num None); reflexivity.
  - intros tag bs. rewrite !_unpackSemanticTag_eq.
    destruct (_unpack host parser f bs true) as [[[obj tg] bs1] | | | | |] eqn:Hu;
      intros H; try (contradiction H; reflexivity);
      rewrite (IHu' _ _ _ Hu) by discriminate; try reflexivity.
    cbn [followed_by obind].
    destruct (semanticTags parser !! tag) as [fn |]; [| reflexivity].
    destruct (fn tag obj); reflexivity.
  - intros bs left res. rewrite !_unpackArray_eq.
    destruct (left =? 0); [reflexivity |].
    destruct (_unpack host parser f bs false) as [[[obj tg] bs1] | | | | |] eqn:Hu;
      intros H; try (contradiction H; reflexivity);
      rewrite (IHu' _ _ _ Hu) by discriminate; try reflexivity.
    cbn [followed_by obind] in H |- *. apply IHa, H.
  - intros bs left res. rewrite !_unpackMap_eq.
    destruct (left =? 0); [reflexivity |].
    destruct (_unpack host parser f bs false) as [[[key tg] bs1] | | | | |] eqn:Hu;
      intros H; try (contradiction H; reflexivity);
      rewrite (IHu' _ _ _ Hu) by discriminate; try reflexivity.
    cbn [followed_by obind] in H |- *.
    destruct (_unpack host parser f bs1 false) as [[[val tg'] bs2] | | | | |] eqn:Hv;
      try (contradiction H; reflexivity);
      rewrite (IHu' _ _ _ Hv) by discriminate; try reflexivity.
    cbn [followed_by obind] in H |- *.
    destruct (ToString host key) as [name | | | | |]; try reflexivity.
    cbn [obind] in H |- *.
    destruct (Object_put res name val) as [res' | | | | |]; try reflexivity.
    cbn [obind] in H |- *. apply IHm, H.
Qed.

End FollowedBy.

(** X3.  Bytes after the input.  When a parsing function calls back with
    an item, calls back with an error or throws, on an input, it does the
    same on the input followed by more bytes, and leaves these in the
    stream after what it left; [unpack] gives the same item, the same
    error, the same exception: those of the first item.  (A map that
    gives [__proto__] an object, an array or [null] is where the model
    stops: there it gives none of the three, and the theorem says
    nothing.) *)
Theorem unpack_ignores_what_follows (host : Host) (input extra : list Z) :
  (forall parser f tagged d rest,
     _unpack host parser f input tagged = Ok (d, rest) ->
     _unpack host parser f (input ++ extra) tagged = Ok (d, rest ++ extra)) /\
  (forall parser f tagged e,
     (_unpack host parser f input tagged = CbError e ->
      _unpack host parser f (input ++ extra) tagged = CbError e) /\
     (_unpack host parser f input tagged = Throw e ->
      _unpack host parser f (input ++ extra) tagged = Throw e)) /\
  (forall d, unpack host input = Ok d -> unpack host (input ++ extra) = Ok d) /\
  (forall e,
     (unpack host input = CbError e -> unpack host (input ++ extra) = CbError e) /\
     (unpack host input = Throw e -> unpack host (input ++ extra) = Throw e)).
Proof.
  assert (Hgen : forall parser f tagged,
            _unpack host parser f input tagged <> Pending ->
            _unpack host parser f (input ++ extra) tagged =
            followed_by extra (_unpack host parser f input tagged)).
  { intros parser f tagged. apply (descent_followed_by host parser extra f). }
  assert (Hun : unpack host input <> Pending ->
                unpack host (input ++ extra) = unpack host input).
  { unfold unpack, Parser_unpack. cbn [Z.eqb]. intros H.
    set (p := new_Parser host []) in *.
    assert (Hs : settled (_unpack host p (unpack_fuel input) input false)).
    { apply (descent_enough_fuel host p (default_decoders_settled host)
               (List.length input) input (Nat.le_refl _)).
      unfold unpack_fuel. lia. }
    assert (Hn : _unpack host p (unpack_fuel input) input false <> Pending).
    { intros E. rewrite E in H. apply H. reflexivity. }
    pose proof (Hgen p (unpack_fuel input) false Hn) as He.
    replace (unpack_fuel (input ++ extra))
      with (4 * List.length extra + unpack_fuel input)%nat
      by (unfold unpack_fuel; rewrite length_app; lia).
    rewrite _unpack_more_fuel.
    - rewrite He.
      destruct (_unpack host p (unpack_fuel input) input false) as [[d r] | | | | |];
        reflexivity.
    - rewrite He. unfold settled in *.
      destruct (_unpack host p (unpack_fuel input) input false) as [[d r] | | | | |];
        cbn [followed_by]; congruence. }
  split; [| split; [| split]].
  - intros parser f tagged d rest H. rewrite Hgen by (rewrite H; discriminate).
    rewrite H. reflexivity.
  - intros parser f tagged e. split; intros H;
      (rewrite Hgen by (rewrite H; discriminate)); rewrite H; reflexivity.
  - intros d H. rewrite Hun by (rewrite H; discriminate). exact H.
  - intros e. split; intros H;
      (rewrite Hun by (rewrite H; discriminate)); exact H.
Qed.

Lemma unpack_ignores_what_follows_witness :
  _unpack plain_host (new_Parser plain_host []) 8 ([0x82; 0x01; 0x02] ++ [0x03]) false
  = Ok ((VArray [VNumber (Int 1); VNumber (Int 2)], None), [] ++ [0x03]) /\
  unpack plain_host ([0xe0; 0xe0] ++ [0x00]) =
    CbError (Error "Tag must not follow a tag").
Proof.
  destruct (unpack_ignores_what_follows plain_host [0x82; 0x01; 0x02] [0x03])
    as [H1 _].
  destruct (unpack_ignores_what_follows plain_host [0xe0; 0xe0] [0x00])
    as (_ & _ & _ & H2).
  split.
  - apply H1. reflexivity.
  - apply H2. reflexivity.
Defined.

(* ================================================================== *)
(** * What the parser raises on a stream of octets *)
(* ================================================================== *)

Lemma wait_octets (n : Z) (bs buf bs1 : list Z) :
  BufferStream.wait n bs = Some (buf, bs1) ->
  Forall is_octet bs ->
  Forall is_octet buf /\ Forall is_octet bs1 /\ List.length buf = Z.to_nat n.
Proof.
  unfold BufferStream.wait, BufferStream.length.
  destruct (Z.leb_spec 0 n); [| discriminate].
  destruct (Z.leb_spec n (Z.of_nat (List.length bs))); [| discriminate].
  cbn [andb]. intros Heq Hb. injection Heq as <- <-.
  rewrite <- (firstn_skipn (Z.to_nat n) bs) in Hb.
  apply Forall_app in Hb. destruct Hb as [H1 H2].
  split; [exact H1 |]. split; [exact H2 |].
  rewrite length_firstn. lia.
Qed.

Lemma octet_at_octet (buf : list Z) (k : nat) :
  Forall is_octet buf -> is_octet (octet_at buf k).
Proof.
  intros H. unfold octet_at. revert k.
  induction H as [| o buf Ho _ IH]; intros [| k]; cbn [nth];
    try (unfold is_octet; lia); [exact Ho | apply IH].
Qed.

Lemma major_type_range (o : Z) : is_octet o -> 0 <= js_shr o 5 < 8.
Proof.
  unfold is_octet, js_shr. intros Ho.
  rewrite to_int32_small by lia. change (5 mod 32) with 5.
  rewrite Z.shiftr_div_pow2 by lia. change (2^5) with 32.
  split; [apply Z.div_pos; lia | apply Z.div_lt_upper_bound; lia].
Qed.

Lemma readUIntBE_in_range (w off : nat) (buf : list Z) :
  (off + w <= List.length buf)%nat ->
  exists v, readUIntBE w off buf = Ok v.
Proof.
  intros H. unfold readUIntBE.
  destruct (Nat.leb_spec (off + w) (List.length buf)); [| lia].
  eexists. reflexivity.
Qed.

(** With the octets that its additional information announces,
    [_unpackInt] returns. *)
Lemma _unpackInt_announced (ai : Z) (buf : list Z) :
  28 <= ai <= 31 -> Z.of_nat (List.length buf) = 2^(ai - 28) ->
  exists num, _unpackInt ai buf = Ok num.
Proof.
  intros Hai Hlen. unfold _unpackInt.
  assert (ai = 28 \/ ai = 29 \/ ai = 30 \/ ai = 31) as [-> | [-> | [-> | ->]]]
    by lia; cbn [Z.eqb Pos.eqb].
  - apply readUIntBE_in_range. change (2^(28 - 28)) with 1 in Hlen. lia.
  - apply readUIntBE_in_range. change (2^(29 - 28)) with 2 in Hlen. lia.
  - apply readUIntBE_in_range. change (2^(30 - 28)) with 4 in Hlen. lia.
  - change (2^(31 - 28)) with 8 in Hlen.
    destruct (readUIntBE_in_range 4 0 buf) as [f ->]; [lia |].
    destruct (readUIntBE_in_range 4 4 buf) as [g ->]; [lia |].
    eexists. reflexivity.
Qed.

(** In the simple and float space, the octets that the additional
    information announces give a value. *)
Lemma _unpackSmallNumber_announced (host : Host) (ai : Z) (buf : list Z) :
  28 <= ai <= 31 -> Z.of_nat (List.length buf) = 2^(ai - 28) ->
  Forall is_octet buf ->
  exists d, _unpackSmallNumber host ai (Some buf) = Ok d.
Proof.
  intros Hai Hlen Hoct. unfold _unpackSmallNumber.
  assert (ai = 28 \/ ai = 29 \/ ai = 30 \/ ai = 31) as [-> | [-> | [-> | ->]]]
    by lia; cbn [Z.eqb Pos.eqb Z.leb Z.compare Pos.compare Pos.compare_cont].
  - destruct Hoct as [| o buf Ho _]; [discriminate Hlen |].
    unfold is_octet in Ho. rewrite Unallocated_octet by lia.
    eexists. reflexivity.
  - eexists. reflexivity.
  - change (2^(30 - 28)) with 4 in Hlen.
    destruct (readUIntBE_in_range 4 0 buf) as [w ->]; [lia |].
    eexists. reflexivity.
  - change (2^(31 - 28)) with 8 in Hlen.
    destruct (readUIntBE_in_range 8 0 buf) as [w ->]; [lia |].
    eexists. reflexivity.
Qed.

Lemma _unpackSmallNumber_inline (host : Host) (ai : Z) :
  0 <= ai < 28 ->
  exists d, _unpackSmallNumber host ai None = Ok d.
Proof.
  intros Hai. unfold _unpackSmallNumber.
  destruct (Z.leb_spec ai 23).
  { rewrite Unallocated_octet by lia. eexists. reflexivity. }
  assert (ai = 24 \/ ai = 25 \/ ai = 26 \/ ai = 27) as [-> | [-> | [-> | ->]]]
    by lia; eexists; reflexivity.
Qed.

Lemma raises_weaken (T E T' E' : exn -> Prop) {A : Type} (o : outcome A) :
  (forall e, T e -> T' e) -> (forall e, E e -> E' e) ->
  raises T E o -> raises T' E' o.
Proof.
  intros HT HE [Ht He]. split; intros e H; [apply HT, Ht | apply HE, He]; exact H.
Qed.

Lemma raises_silent (T E : exn -> Prop) {A : Type} (o : outcome A) :
  (forall e, o <> Throw e) -> (forall e, o <> CbError e) -> raises T E o.
Proof.
  intros Ht He. split; intros e H; [destruct (Ht e H) | destruct (He e H)].
Qed.

Lemma ToString_raises (host : Host) (E : exn -> Prop) (v : value) :
  raises key_conversion_failure E (ToString host v).
Proof.
  destruct (ToString_cases host v) as [[x Hx] | Hx]; rewrite Hx.
  - apply raises_silent; discriminate.
  - split; intros e He; [| discriminate He].
    unfold cannot_convert in He. injection He as <-. reflexivity.
Qed.

Lemma Object_put_raises (T E : exn -> Prop) (res : list (string * value))
      (name : string) (val : value) :
  raises T E (Object_put res name val).
Proof.
  apply raises_silent; intros e He; unfold Object_put in He;
    (destruct (String.eqb name "__proto__"); [| discriminate He]);
    destruct val; discriminate He.
Qed.

Section OctetStreams.

Variable host : Host.
Variable parser : Parser.

(** What the decoders of the registry, which are the caller's, raise. *)
Variables T E : exn -> Prop.

Hypothesis decoders_raise :
  forall tag fn obj,
    semanticTags parser !! tag = Some fn -> raises T E (fn tag obj).

Lemma sound_outcome_bind (o : outcome parsed) (k : parsed -> outcome parsed) :
  sound_outcome (parser_throws T) (parser_errors E) o ->
  (forall r bs', o = Ok (r, bs') -> Forall is_octet bs' ->
                 sound_outcome (parser_throws T) (parser_errors E) (k (r, bs'))) ->
  sound_outcome (parser_throws T) (parser_errors E) (obind o k).
Proof.
  intros [[Ht He] Ho] Hk.
  destruct o as [[r bs'] | e | e | | |]; cbn [obind];
    try (split; [apply raises_silent; discriminate
                | intros r' b' H'; discriminate H']).
  - apply Hk; [reflexivity |]. apply (Ho r bs'). reflexivity.
  - split; [| intros r' b' H'; discriminate H'].
    split; intros e' H'; [discriminate H' |].
    injection H' as <-. apply He. reflexivity.
  - split; [| intros r' b' H'; discriminate H'].
    split; intros e' H'; [| discriminate H'].
    injection H' as <-. apply Ht. reflexivity.
Qed.

Lemma sound_outcome_bind_value {A : Type} (o : outcome A)
      (k : A -> outcome parsed) :
  raises (parser_throws T) (parser_errors E) o ->
  (forall a, o = Ok a -> sound_outcome (parser_throws T) (parser_errors E) (k a)) ->
  sound_outcome (parser_throws T) (parser_errors E) (obind o k).
Proof.
  intros [Ht He] Hk.
  destruct o as [a | e | e | | |]; cbn [obind];
    try (split; [apply raises_silent; discriminate
                | intros r' b' H'; discriminate H']).
  - apply Hk. reflexivity.
  - split; [| intros r' b' H'; discriminate H'].
    split; intros e' H'; [discriminate H' |].
    injection H' as <-. apply He. reflexivity.
  - split; [| intros r' b' H'; discriminate H'].
    split; intros e' H'; [| discriminate H'].
    injection H' as <-. apply Ht. reflexivity.
Qed.

Lemma sound_outcome_Ok (d : decoded) (bs : list Z) :
  Forall is_octet bs -> sound_outcome (parser_throws T) (parser_errors E) (Ok (d, bs)).
Proof.
  intros H. split; [apply raises_silent; discriminate |].
  intros r bs' He. injection He as _ <-. exact H.
Qed.

Lemma sound_outcome_silent (o : outcome parsed) :
  (forall e, o <> Throw e) -> (forall e, o <> CbError e) ->
  (forall p, o <> Ok p) -> sound_outcome (parser_throws T) (parser_errors E) o.
Proof.
  intros Ht He Hk. split; [apply raises_silent; assumption |].
  intros r bs' H. destruct (Hk _ H).
Qed.

Lemma descent_sound (f : nat) :
  (forall bs t, Forall is_octet bs ->
     sound_outcome (parser_throws T) (parser_errors E) (_unpack host parser f bs t)) /\
  (forall mt num bs t,
     0 <= mt < 8 -> (mt = 6 -> 0 <= num < 28) -> Forall is_octet bs ->
     sound_outcome (parser_throws T) (parser_errors E) (_getVal host parser f mt num bs t)) /\
  (forall tag bs, Forall is_octet bs ->
     sound_outcome (parser_throws T) (parser_errors E) (_unpackSemanticTag host parser f tag bs)) /\
  (forall bs left res, Forall is_octet bs ->
     sound_outcome (parser_throws T) (parser_errors E) (_unpackArray host parser f bs left res)) /\
  (forall bs left res, Forall is_octet bs ->
     sound_outcome (parser_throws T) (parser_errors E) (_unpackMap host parser f bs left res)).
Proof.
  induction f as [| f (IHu & IHg & IHt & IHa & IHm)].
  { repeat split; intros; discriminate. }
  split; [| split; [| split; [| split]]].
  - intros bs t Hb. rewrite _unpack_eq.
    destruct (BufferStream.wait 1 bs) as [[buf bs1] |] eqn:Hw;
      [| apply sound_outcome_silent; discriminate].
    destruct (wait_octets _ _ _ _ Hw Hb) as (Hbuf & Hb1 & _). cbv zeta.
    pose proof (octet_at_octet buf 0 Hbuf) as Ho.
    pose proof (major_type_range _ Ho) as Hmt.
    pose proof (additional_info_range (octet_at buf 0)) as Hai.
    destruct (Z.leb_spec 0 (js_and (octet_at buf 0) 31 - 28)).
    + destruct (BufferStream.wait _ bs1) as [[buf2 bs2] |] eqn:Hw2;
        [| apply sound_outcome_silent; discriminate].
      destruct (wait_octets _ _ _ _ Hw2 Hb1) as (Hbuf2 & Hb2 & Hlen).
      rewrite js_shl_1 in Hlen by lia.
      assert (Hlen' : Z.of_nat (List.length buf2) =
                      2^(js_and (octet_at buf 0) 31 - 28)).
      { rewrite Hlen. apply Z2Nat.id. apply Z.pow_nonneg. lia. }
      destruct (Z.eqb_spec (js_shr (octet_at buf 0) 5) 6) as [E6 | N6].
      * destruct (_unpackSmallNumber_announced host (js_and (octet_at buf 0) 31) buf2
                    ltac:(lia) Hlen' Hbuf2)
          as [d ->].
        cbn [obind]. apply sound_outcome_Ok, Hb2.
      * destruct (_unpackInt_announced (js_and (octet_at buf 0) 31) buf2
                    ltac:(lia) Hlen') as [num ->].
        cbn [obind]. apply IHg; [lia | intros E0; contradiction | exact Hb2].
    + apply IHg; [lia | intros _; lia | exact Hb1].
  - intros mt num bs t Hmt H6 Hb. rewrite _getVal_eq.
    destruct (Z.eqb_spec mt 0); [apply sound_outcome_Ok, Hb |].
    destruct (Z.eqb_spec mt 1); [apply sound_outcome_Ok, Hb |].
    destruct (Z.eqb_spec mt 2).
    { destruct (BufferStream.wait num bs) as [[buf bs1] |] eqn:Hw;
        [| apply sound_outcome_silent; discriminate].
      destruct (wait_octets _ _ _ _ Hw Hb) as (_ & Hb1 & _).
      apply sound_outcome_Ok, Hb1. }
    destruct (Z.eqb_spec mt 3).
    { destruct (BufferStream.wait num bs) as [[buf bs1] |] eqn:Hw;
        [| apply sound_outcome_silent; discriminate].
      destruct (wait_octets _ _ _ _ Hw Hb) as (_ & Hb1 & _).
      apply sound_outcome_Ok, Hb1. }
    destruct (Z.eqb_spec mt 4); [apply IHa, Hb |].
    destruct (Z.eqb_spec mt 5); [apply IHm, Hb |].
    destruct (Z.eqb_spec mt 6) as [E6 | N6].
    { destruct (_unpackSmallNumber_inline host num (H6 E6)) as [d ->].
      cbn [obind]. apply sound_outcome_Ok, Hb. }
    destruct (Z.eqb_spec mt 7); [| lia].
    destruct t; [| apply IHt, Hb].
    split; [| intros r' b' H'; discriminate H'].
    split; intros e' H'; [discriminate H' |].
    injection H' as <-. left. reflexivity.
  - intros tag bs Hb. rewrite _unpackSemanticTag_eq.
    apply sound_outcome_bind; [apply IHu, Hb |].
    intros [obj tg] bs1 _ Hb1.
    destruct (semanticTags parser !! tag) as [fn |] eqn:Hfn;
      [| apply sound_outcome_Ok, Hb1].
    apply sound_outcome_bind_value.
    + apply (raises_weaken T E); [intros e; right; assumption ..|].
      apply (decoders_raise tag fn obj Hfn).
    + intros d _. apply sound_outcome_Ok, Hb1.
  - intros bs left res Hb. rewrite _unpackArray_eq.
    destruct (left =? 0); [apply sound_outcome_Ok, Hb |].
    apply sound_outcome_bind; [apply IHu, Hb |].
    intros [obj tg] bs1 _ Hb1. apply IHa, Hb1.
  - intros bs left res Hb. rewrite _unpackMap_eq.
    destruct (left =? 0); [apply sound_outcome_Ok, Hb |].
    apply sound_outcome_bind; [apply IHu, Hb |].
    intros [key tg] bs1 _ Hb1.
    apply sound_outcome_bind; [apply IHu, Hb1 |].
    intros [val tg'] bs2 _ Hb2.
    apply sound_outcome_bind_value.
    { apply (raises_weaken key_conversion_failure (parser_errors E));
        [intros e; left; assumption | auto |]. apply ToString_raises. }
    intros name _.
    apply sound_outcome_bind_value; [apply Object_put_raises |].
    intros res' _. apply IHm, Hb2.
Qed.

End OctetStreams.

Lemma default_decoders_raise (host : Host) tag fn obj :
  semanticTags (new_Parser host []) !! tag = Some fn ->
  raises platform_exception unsupported_type (fn tag obj).
Proof.
  cbn [new_Parser fold_left semanticTags]. unfold default_semanticTags.
  intros H.
  apply lookup_insert_Some in H. destruct H as [[_ <-] | [_ H]].
  { unfold _unpackDate. split; intros e He; destruct obj; try discriminate He;
      injection He as <-; exists "date"%string; eexists;
      (split; [cbn; auto | reflexivity]). }
  apply lookup_insert_Some in H. destruct H as [[_ <-] | [_ H]].
  { unfold _unpackUri. split; intros e He; destruct obj; try discriminate He;
      try (destruct (url_parse host s); try discriminate He);
      injection He as <-;
      first [ eexists; reflexivity
            | exists "Uri"%string; eexists; split; [cbn; auto | reflexivity] ]. }
  apply lookup_insert_Some in H. destruct H as [[_ <-] | [_ H]].
  { unfold _unpackRegex. split; intros e He; destruct obj; try discriminate He;
      try (destruct (RegExp_compile host s); try discriminate He);
      injection He as <-;
      first [ eexists; reflexivity
            | exists "RegExp"%string; eexists; split; [cbn; auto 6 | reflexivity] ]. }
  rewrite lookup_empty in H. discriminate H.
Qed.

(** X4.  What the parser raises on octets.  On a stream of octets the
    parsing functions throw one exception of their own, the TypeError of a
    map's key that converts to no property name, and give the callback
    one error of their own, "Tag must not follow a tag"; what else they
    raise, the decoders of the registry raised.  No assertion fails
    ("Invalid additional info", "Invalid state"), no read leaves its
    buffer, no [Unallocated] is rejected.  With the default registry,
    [unpack] throws that TypeError, what [new RegExp] throws or what
    [url.parse] throws, and its errors are that of the tag and the three
    "Unsupported ... type" of the default decoders.  (A map that
    gives [__proto__] an object, an array or [null] is where the model
    stops: of it, the theorem says nothing.) *)
Theorem unpack_raises_on_octets (host : Host) (parser : Parser)
        (T E : exn -> Prop) (fuel : nat) (bs : list Z) (tagged : bool) :
  Forall is_octet bs ->
  ((forall tag fn obj,
      semanticTags parser !! tag = Some fn -> raises T E (fn tag obj)) ->
   raises (parser_throws T) (parser_errors E)
          (_unpack host parser fuel bs tagged)) /\
  raises (parser_throws platform_exception) (parser_errors unsupported_type)
         (unpack host bs).
Proof.
  intros Hb. split.
  - intros Hdec. apply (descent_sound host parser T E Hdec fuel), Hb.
  - unfold unpack, Parser_unpack. cbn [Z.eqb].
    pose proof (proj1 (descent_sound host (new_Parser host []) _ _
                         (default_decoders_raise host)
                         (unpack_fuel bs)) bs false Hb) as [[Ht He] _].
    destruct (_unpack host (new_Parser host []) (unpack_fuel bs) bs false)
      as [[d r] | e' | e' | | |]; cbn [obind];
      try (apply raises_silent; discriminate).
    + split; intros e H; [discriminate H |].
      injection H as <-. apply He. reflexivity.
    + split; intros e H; [| discriminate H].
      injection H as <-. apply Ht. reflexivity.
Qed.

Lemma unpack_raises_on_octets_witness :
  unpack plain_host [0xa1; 0xa1; 0x61; 0x61; 0x00; 0x00] =
    Ok (VObject CObject [("[object Object]"%string, VNumber (Int 0))], None) /\
  unpack plain_host [0xa1; 0xa1; 0x68; 0x74; 0x6f; 0x53; 0x74; 0x72; 0x69; 0x6e;
                     0x67; 0x00; 0x00] =
    Throw (TypeError "Cannot convert object to primitive value") /\
  (key_conversion_failure (TypeError "Cannot convert object to primitive value") \/
   platform_exception (TypeError "Cannot convert object to primitive value")).
Proof.
  split; [reflexivity |]. split; [reflexivity |].
  apply (unpack_raises_on_octets plain_host (new_Parser plain_host [])
           (fun _ => False) (fun _ => False) 0
           [0xa1; 0xa1; 0x68; 0x74; 0x6f; 0x53; 0x74; 0x72; 0x69; 0x6e;
            0x67; 0x00; 0x00] false).
  - repeat constructor; unfold is_octet; lia.
  - reflexivity.
Defined.

(* ================================================================== *)
(** * Packing into a buffer of the caller's *)
(* ================================================================== *)

Lemma appends_gwrite_some (w : BufferStream.t -> option BufferStream.t)
      (x : list Z) :
  (forall b, w b = Some (b ++ x)) -> appends (gwrite w).
Proof. intros H b. unfold gwrite. rewrite (H b), (H []). reflexivity. Qed.

Lemma appends_gwrite_none (w : BufferStream.t -> option BufferStream.t) :
  (forall b, w b = None) -> appends (gwrite w).
Proof.
  intros H b. unfold gwrite. rewrite (H b), (H []). cbn. rewrite app_nil_r.
  reflexivity.
Qed.

Lemma appends_writeUInt (width : nat) (v : Z) :
  appends (gwrite (BufferStream.writeUInt width v)).
Proof.
  destruct ((0 <=? v) && (v <? 2^(8 * Z.of_nat width))) eqn:E.
  - apply (appends_gwrite_some _ (BufferStream.be_bytes width v)).
    intros b. unfold BufferStream.writeUInt. rewrite E. reflexivity.
  - apply appends_gwrite_none.
    intros b. unfold BufferStream.writeUInt. rewrite E. reflexivity.
Qed.

Lemma appends_append (octets : list Z) :
  appends (gwrite (BufferStream.append octets)).
Proof. apply (appends_gwrite_some _ octets). reflexivity. Qed.

Lemma appends_gthrow (e : exn) : appends (gthrow e).
Proof. intros b. cbn. rewrite app_nil_r. reflexivity. Qed.

Lemma appends_wrong_receiver : appends wrong_receiver.
Proof. intros b. cbn. rewrite app_nil_r. reflexivity. Qed.

Lemma appends_gbind (m : Gen unit) (k : unit -> Gen unit) :
  appends m -> (forall a, appends (k a)) -> appends (gbind m k).
Proof.
  intros Hm Hk b. unfold gbind. rewrite (Hm b).
  destruct (m []) as [o x]. cbn [fst snd].
  destruct o as [a | e | e | | |]; try reflexivity.
  rewrite (Hk a (b ++ x)), (Hk a x). cbn [fst snd].
  rewrite app_assoc. reflexivity.
Qed.

Lemma appends_gforeach {A : Type} (f : A -> Gen unit) (l : list A) :
  (forall x, appends (f x)) -> appends (gforeach f l).
Proof.
  intros H. induction l as [| x l IH]; cbn [gforeach].
  - intros b. cbn. rewrite app_nil_r. reflexivity.
  - apply appends_gbind; [apply H | intros _; exact IH].
Qed.

Lemma appends__packInt (i mt : Z) : appends (_packInt i mt).
Proof.
  unfold _packInt.
  repeat match goal with
         | |- appends (if ?c then _ else _) => destruct c
         | |- appends (gbind _ _) => apply appends_gbind; [| intros _]
         | |- appends (gwrite (BufferStream.writeUInt8 _)) => apply appends_writeUInt
         | |- appends (gwrite (BufferStream.writeUInt16BE _)) => apply appends_writeUInt
         | |- appends (gwrite (BufferStream.writeUInt32BE _)) => apply appends_writeUInt
         | |- appends (gthrow _) => apply appends_gthrow
         end.
Qed.

Lemma appends__packNumber (obj : number) : appends (_packNumber obj).
Proof.
  unfold _packNumber.
  destruct (negb (isNaN obj) && strict_eq obj (Int (ToInt32 obj))).
  - destruct (number_geb obj (Int 0)); apply appends__packInt.
  - apply appends_gbind; [apply appends_writeUInt | intros _].
    apply (appends_gwrite_some _
             (BufferStream.be_bytes 8 (bits_of_float (to_float obj)))).
    reflexivity.
Qed.

(** The packers of the default registry only append. *)
Lemma default_packers_appending (type : ctor) (fn : packer) :
  In (type, fn) (semanticTypes (new_Generator [])) -> appending fn.
Proof.
  cbn. intros H gen Hgen obj.
  repeat (destruct H as [H | H]; [injection H as _ <- | ]); try destruct H.
  - destruct obj; try apply appends_wrong_receiver. cbn [_packArray].
    apply appends_gbind; [apply appends__packInt | intros _].
    apply appends_gforeach, Hgen.
  - unfold _packDate.
    apply appends_gbind; [apply appends_writeUInt | intros _].
    destruct obj; try apply appends_wrong_receiver. apply Hgen.
  - destruct obj; try apply appends_wrong_receiver. cbn [_packBuffer].
    apply appends_gbind; [apply appends__packInt | intros _].
    apply appends_append.
  - destruct obj; try apply appends_wrong_receiver. cbn [_packBufferStream].
    apply appends_gbind; [apply appends__packInt | intros _].
    apply appends_append.
  - unfold _packRegexp.
    apply appends_gbind; [apply appends_writeUInt | intros _].
    destruct obj; try apply appends_wrong_receiver. apply Hgen.
  - destruct obj; try apply appends_wrong_receiver. cbn [Unallocated_pack].
    apply appends__packInt.
Qed.

Section Appending.

Variable g : Generator.

Hypothesis packers_appending :
  forall type fn, In (type, fn) (semanticTypes g) -> appending fn.

Lemma appends__packObject (gen : value -> Gen unit) (obj : value) :
  (forall v, appends (gen v)) -> appends (_packObject g gen obj).
Proof.
  intros Hgen. unfold _packObject.
  destruct (List.find (fun tf => instanceof obj (fst tf)) (semanticTypes g))
    as [[type fn] |] eqn:Hf.
  - apply find_some in Hf. destruct Hf as [Hin _].
    apply (packers_appending type fn Hin gen Hgen).
  - apply appends_gbind; [apply appends__packInt | intros _].
    apply appends_gforeach. intros key.
    apply appends_gbind; [apply Hgen | intros _; apply Hgen].
Qed.

Lemma appends_unsafePack (fuel : nat) (obj : value) :
  appends (unsafePack fuel g obj).
Proof.
  revert obj. induction fuel as [| fuel IH]; intros obj.
  { intros b. cbn. rewrite app_nil_r. reflexivity. }
  destruct obj; cbn [unsafePack];
    try (apply appends__packObject; exact IH);
    try apply appends_writeUInt.
  - apply appends__packNumber.
  - apply appends_gbind; [apply appends__packInt | intros _].
    apply appends_append.
  - apply appends_gthrow.
Qed.

End Appending.

(** X5.  Packing into a buffer of the caller's.  The packers of the registry
    only appending, [pack(obj, bufs)] leaves in [bufs] what it held,
    followed by what is written into an empty buffer, with the same
    outcome: by the bytes that [pack(obj)] returns, when it returns. *)
Theorem pack_into_appends (g : Generator) (fuel : nat) (obj : value)
        (bufs : BufferStream.t) :
  (forall type fn, In (type, fn) (semanticTypes g) -> appending fn) ->
  Generator_pack_into fuel g obj bufs =
    (fst (Generator_pack_into fuel g obj []),
     bufs ++ snd (Generator_pack_into fuel g obj [])) /\
  (forall bytes, Generator_pack fuel g obj = Ok bytes ->
                 Generator_pack_into fuel g obj bufs = (Ok tt, bufs ++ bytes)).
Proof.
  intros Hg. pose proof (appends_unsafePack g Hg fuel obj bufs) as H.
  split; [exact H |].
  intros bytes Hb. unfold Generator_pack_into. rewrite H.
  unfold Generator_pack, BufferStream.empty, BufferStream.flatten in Hb.
  destruct (unsafePack fuel g obj []) as [o out].
  destruct o as [[] | | | | |]; try discriminate Hb.
  injection Hb as ->. reflexivity.
Qed.

Lemma pack_into_appends_witness :
  pack_into 2 (VArray [VNumber (Int 1); VFunction]) [0x00; 0x01] =
  (Throw (Error "Unknown type: function"), [0x00; 0x01; 0x82; 0x01]).
Proof.
  unfold pack_into.
  rewrite (proj1 (pack_into_appends (new_Generator []) 2
                    (VArray [VNumber (Int 1); VFunction]) [0x00; 0x01]
                    default_packers_appending)).
  reflexivity.
Defined.

(* ================================================================== *)
(** * Simple values, byte strings of a stream, heads of integers *)
(* ================================================================== *)

(** X6.  Simple values.  [Unallocated.pack] writes the simple value [n] of
    0..255 as a head of major type 6; it is read back as [n], except for
    24, 25, 26 and 27, whose byte is that of [false], [true], [null] and
    [undefined]. *)
Theorem simple_value_round_trip (host : Host) (fuel : nat) (n : Z) (rest : list Z) :
  0 <= n <= 255 ->
  pack (S fuel) (VUnallocated (Int n)) = Ok (framed 6 n) /\
  unpack host (framed 6 n ++ rest) = Ok (simple_value_read n, None).
Proof.
  intros Hn. split.
  { unfold pack, Generator_pack. cbn [unsafePack].
    rewrite _packObject_default_simple. cbn [Unallocated_pack ToInt32 norm].
    rewrite to_int32_small by lia. rewrite _packInt_framed by lia. reflexivity. }
  assert (Hr : reads_as host (new_Parser host []) (framed 6 n)
                        (simple_value_read n)).
  { unfold simple_value_read.
    destruct (Z.eqb_spec n 24) as [-> | N24];
      [apply reads_constant; [lia | reflexivity] |].
    destruct (Z.eqb_spec n 25) as [-> | N25];
      [apply reads_constant; [lia | reflexivity] |].
    destruct (Z.eqb_spec n 26) as [-> | N26];
      [apply reads_constant; [lia | reflexivity] |].
    destruct (Z.eqb_spec n 27) as [-> | N27];
      [apply reads_constant; [lia | reflexivity] |].
    apply reads_simple. lia. }
  destruct (Hr rest false) as [f Hf].
  exact (Parser_unpack_reads host (new_Parser host [])
           (default_decoders_settled host) f _ _ _ Hf).
Qed.

Lemma simple_value_round_trip_witness :
  pack 1 (VUnallocated (Int 25)) = Ok (framed 6 25) /\
  unpack plain_host (framed 6 25 ++ []) = Ok (VBoolean true, None).
Proof. apply (simple_value_round_trip plain_host 0 25 []). lia. Defined.

(** X7.  Byte strings of a [BufferStream].  A [BufferStream] is written as
    the [Buffer] of its bytes is, and is read back as that [Buffer]. *)
Theorem BufferStream_as_Buffer (host : Host) (fuel : nat) (octets rest : list Z) :
  Z.of_nat (List.length octets) <= 0x7fffffff ->
  exists bytes,
    pack (S fuel) (VBufferStream octets) = Ok bytes /\
    pack (S fuel) (VBuffer octets) = Ok bytes /\
    unpack host (bytes ++ rest) = Ok (VBuffer octets, None).
Proof.
  intros Hl. exists (framed 2 (Z.of_nat (List.length octets)) ++ octets).
  assert (Hw : forall b,
            (_packInt (Z.of_nat (List.length octets)) 2 ;;;
             gwrite (BufferStream.append octets))%gen b =
            (Ok tt, b ++ framed 2 (Z.of_nat (List.length octets)) ++ octets)).
  { intros b. unfold gbind. rewrite _packInt_framed by lia.
    unfold gwrite, BufferStream.append. rewrite <- app_assoc. reflexivity. }
  split; [| split].
  - unfold pack, Generator_pack. cbn [unsafePack].
    change (_packObject (new_Generator []) (unsafePack fuel (new_Generator []))
              (VBufferStream octets))
      with (_packInt (Z.of_nat (List.length octets)) 2 ;;;
            gwrite (BufferStream.append octets))%gen.
    rewrite Hw. reflexivity.
  - unfold pack, Generator_pack. cbn [unsafePack].
    rewrite _packObject_default_bytes. cbn [_packBuffer].
    rewrite Hw. reflexivity.
  - destruct (reads_bytes host (new_Parser host []) octets Hl rest false)
      as [f Hf].
    exact (Parser_unpack_reads host (new_Parser host [])
             (default_decoders_settled host) f _ _ _ Hf).
Qed.

Lemma BufferStream_as_Buffer_witness :
  exists bytes,
    pack 1 (VBufferStream [1; 2; 3]) = Ok bytes /\
    pack 1 (VBuffer [1; 2; 3]) = Ok bytes /\
    unpack plain_host (bytes ++ [0xff]) = Ok (VBuffer [1; 2; 3], None).
Proof. apply (BufferStream_as_Buffer plain_host 0 [1; 2; 3] [0xff]). cbn. lia. Defined.

(** X8.  Heads of integers.  Whatever the width of its operand, a head of
    major type 0 with operand [n] is read as [n], and one of major type 1
    as [-1 - n], rounded to a double; an operand of eight octets is itself
    the double nearest to their big-endian value. *)
Theorem integer_heads (host : Host) (n : Z) (h rest : list Z) :
  (head 0 n h -> unpack host (h ++ rest) = Ok (VNumber (Int n), None)) /\
  (head 1 n h ->
   unpack host (h ++ rest) = Ok (VNumber (Int (round53 (-1 - n))), None)).
Proof.
  split; intros Hh.
  - apply (Parser_unpack_reads host (new_Parser host [])
             (default_decoders_settled host) 2 _ rest).
    rewrite (_unpack_head host _ 1 0 n h rest false) by (lia || assumption).
    reflexivity.
  - apply (Parser_unpack_reads host (new_Parser host [])
             (default_decoders_settled host) 2 _ rest).
    rewrite (_unpack_head host _ 1 1 n h rest false) by (lia || assumption).
    reflexivity.
Qed.

Lemma integer_heads_witness :
  unpack plain_host ([0x1f; 0; 0x20; 0; 0; 0; 0; 0; 1] ++ [])
    = Ok (VNumber (Int (2^53)), None) /\
  unpack plain_host ([0x3d; 0; 5] ++ [0xff]) = Ok (VNumber (Int (-6)), None).
Proof.
  assert (H0 : head 0 (2^53) [0x1f; 0; 0x20; 0; 0; 0; 0; 0; 1]).
  { apply (head_operand 0 31 [0; 0x20; 0; 0; 0; 0; 0; 1]);
      [lia | reflexivity | repeat constructor; unfold is_octet; lia]. }
  assert (H1 : head 1 5 [0x3d; 0; 5]).
  { apply (head_operand 1 29 [0; 5]);
      [lia | reflexivity | repeat constructor; unfold is_octet; lia]. }
  split.
  - apply (integer_heads plain_host (2^53) _ []). exact H0.
  - apply (integer_heads plain_host 5 _ [0xff]). exact H1.
Defined.

(* ================================================================== *)
(** * The offset of [parser.unpack] *)
(* ================================================================== *)

Lemma Buffer_slice_app (pre bs : list Z) :
  Buffer_slice (pre ++ bs) (Z.of_nat (List.length pre)) = bs.
Proof.
  unfold Buffer_slice. rewrite length_app.
  destruct (Z.ltb_spec (Z.of_nat (List.length pre)) 0); [lia |].
  rewrite Z.min_l by lia. rewrite Nat2Z.id.
  rewrite skipn_app, Nat.sub_diag, skipn_all. reflexivity.
Qed.

Lemma Buffer_slice_from_end (pre bs : list Z) :
  bs <> [] ->
  Buffer_slice (pre ++ bs) (- Z.of_nat (List.length bs)) = bs.
Proof.
  intros Hne. unfold Buffer_slice. rewrite length_app.
  assert (0 < List.length bs)%nat by (destruct bs; [contradiction | cbn; lia]).
  destruct (Z.ltb_spec (- Z.of_nat (List.length bs)) 0); [| lia].
  rewrite Z.max_l by lia.
  replace (Z.to_nat (Z.of_nat (List.length pre + List.length bs)
                     + - Z.of_nat (List.length bs)))
    with (List.length pre) by lia.
  rewrite skipn_app, Nat.sub_diag, skipn_all. reflexivity.
Qed.

(** X9.  The offset.  [parser.unpack(buf, offset, cb)] reads the item that
    starts [offset] bytes into [buf]; a negative offset counts from the
    end of [buf]; past the end, nothing is left to read and the callback
    is not called. *)
Theorem Parser_unpack_offset (host : Host) (parser : Parser) (pre bs : list Z) :
  Parser_unpack host parser (pre ++ bs) (Z.of_nat (List.length pre)) =
    Parser_unpack host parser bs 0 /\
  (bs <> [] ->
   Parser_unpack host parser (pre ++ bs) (- Z.of_nat (List.length bs)) =
     Parser_unpack host parser bs 0) /\
  (forall offset, Z.of_nat (List.length bs) <= offset -> offset <> 0 ->
     Parser_unpack host parser bs offset = Pending).
Proof.
  split; [| split].
  - unfold Parser_unpack. cbn [Z.eqb].
    destruct (Z.eqb_spec (Z.of_nat (List.length pre)) 0) as [E | N].
    + destruct pre; [reflexivity | discriminate E].
    + rewrite Buffer_slice_app. reflexivity.
  - intros Hne. unfold Parser_unpack. cbn [Z.eqb].
    destruct (Z.eqb_spec (- Z.of_nat (List.length bs)) 0) as [E | N].
    + destruct bs; [contradiction | cbn in E; lia].
    + rewrite Buffer_slice_from_end by assumption. reflexivity.
  - intros offset Hge Hnz. unfold Parser_unpack.
    destruct (Z.eqb_spec offset 0); [contradiction |].
    assert (Hs : Buffer_slice bs offset = []).
    { unfold Buffer_slice.
      destruct (Z.ltb_spec offset 0); [lia |].
      rewrite Z.min_r by lia. rewrite Nat2Z.id. apply skipn_all. }
    rewrite Hs. reflexivity.
Qed.

Lemma Parser_unpack_offset_witness :
  Parser_unpack plain_host (new_Parser plain_host []) ([0xff; 0xff] ++ [0x05]) (-1)
  = Parser_unpack plain_host (new_Parser plain_host []) [0x05] 0.
Proof.
  apply (Parser_unpack_offset plain_host (new_Parser plain_host [])
           [0xff; 0xff] [0x05]).
  discriminate.
Defined.

(* ================================================================== *)
(** * The registries at work *)
(* ================================================================== *)

Lemma find_app_none {A : Type} (f : A -> bool) (l1 l2 : list A) :
  List.find f l1 = None -> List.find f (l1 ++ l2) = List.find f l2.
Proof.
  induction l1 as [| a l1 IH]; intros H; [reflexivity |].
  cbn [app List.find] in *. destruct (f a); [discriminate H | apply IH, H].
Qed.

Lemma find_app_some {A : Type} (f : A -> bool) (l1 l2 : list A) (x : A) :
  List.find f l1 = Some x -> List.find f (l1 ++ l2) = Some x.
Proof.
  induction l1 as [| a l1 IH]; intros H; [discriminate H |].
  cbn [app List.find] in *. destruct (f a); [exact H | apply IH, H].
Qed.

(** The entry that [_packObject] takes after [addSemanticType], for an
    instance of the type that no entry of another type claims. *)
Lemma find_replace_packer (obj : value) (type : ctor) (fn : packer)
      (l : list (ctor * packer)) :
  instanceof obj type = true ->
  (forall t p, In (t, p) l -> instanceof obj t = true -> t = type) ->
  match replace_packer type fn l with
  | Some (_, l') =>
      List.find (fun tf => instanceof obj (fst tf)) l' = Some (type, fn)
  | None => List.find (fun tf => instanceof obj (fst tf)) l = None
  end.
Proof.
  intros Hi. induction l as [| [t p] l IH]; intros Hu; [reflexivity |].
  cbn [replace_packer].
  destruct (bool_decide (t = type)) eqn:Et.
  - apply bool_decide_eq_true_1 in Et. subst t.
    cbn [List.find fst]. rewrite Hi. reflexivity.
  - assert (Hn : instanceof obj t = false).
    { destruct (instanceof obj t) eqn:E; [| reflexivity].
      apply bool_decide_eq_false_1 in Et.
      destruct (Et (Hu t p ltac:(left; reflexivity) E)). }
    specialize (IH (fun t' p' Hin => Hu t' p' (or_intror Hin))).
    destruct (replace_packer type fn l) as [[old l'] |].
    + cbn [List.find fst]. rewrite Hn. exact IH.
    + cbn [List.find fst]. rewrite Hn. exact IH.
Qed.

(** Values that are no instances of the type see the registry as it
    was. *)
Lemma find_replace_packer_other (obj : value) (type : ctor) (fn : packer)
      (l : list (ctor * packer)) :
  instanceof obj type = false ->
  match replace_packer type fn l with
  | Some (_, l') =>
      List.find (fun tf => instanceof obj (fst tf)) l' =
      List.find (fun tf => instanceof obj (fst tf)) l
  | None => True
  end.
Proof.
  intros Hi. induction l as [| [t p] l IH]; [exact I |].
  cbn [replace_packer].
  destruct (bool_decide (t = type)) eqn:Et.
  - apply bool_decide_eq_true_1 in Et. subst t.
    cbn [List.find fst]. rewrite Hi. reflexivity.
  - destruct (replace_packer type fn l) as [[old l'] |]; [| exact I].
    cbn [List.find fst]. destruct (instanceof obj t); [reflexivity | exact IH].
Qed.

(** X10.  The type registry at work.  After [addSemanticType(type, fn)], an
    instance of [type] that is an instance of no other registered type is
    packed by [fn]; a value that is no instance of [type] is packed as
    before. *)
Theorem registered_packer_is_called (g : Generator) (type : ctor) (fn : packer)
        (gen : value -> Gen unit) (obj : value) :
  (instanceof obj type = true ->
   (forall t p, In (t, p) (semanticTypes g) -> instanceof obj t = true -> t = type) ->
   _packObject (snd (addSemanticType type fn g)) gen obj = fn gen obj) /\
  (instanceof obj type = false ->
   _packObject (snd (addSemanticType type fn g)) gen obj = _packObject g gen obj).
Proof.
  split.
  - intros Hi Hu. unfold _packObject, addSemanticType.
    pose proof (find_replace_packer obj type fn (semanticTypes g) Hi Hu) as H.
    destruct (replace_packer type fn (semanticTypes g)) as [[old l'] |];
      cbn [snd semanticTypes].
    + rewrite H. reflexivity.
    + rewrite (find_app_none _ _ _ H). cbn [List.find fst]. rewrite Hi.
      reflexivity.
  - intros Hi. unfold _packObject, addSemanticType.
    pose proof (find_replace_packer_other obj type fn (semanticTypes g) Hi) as H.
    destruct (replace_packer type fn (semanticTypes g)) as [[old l'] |];
      cbn [snd semanticTypes].
    + rewrite H. reflexivity.
    + destruct (List.find (fun tf => instanceof obj (fst tf)) (semanticTypes g))
        as [[t p] |] eqn:Hf.
      * rewrite (find_app_some _ _ _ _ Hf). reflexivity.
      * rewrite (find_app_none _ _ _ Hf). cbn [List.find fst]. rewrite Hi.
        reflexivity.
Qed.

Lemma registered_packer_is_called_witness :
  _packObject (snd (addSemanticType (CUser "Point")
                      (fun _ _ => gwrite (BufferStream.writeUInt8 0xc0))
                      (new_Generator [])))
              (unsafePack 1 (new_Generator []))
              (VObject (CUser "Point") [("x"%string, VNumber (Int 1))])
  = gwrite (BufferStream.writeUInt8 0xc0) /\
  _packObject (snd (addSemanticType (CUser "Point")
                      (fun _ _ => gwrite (BufferStream.writeUInt8 0xc0))
                      (new_Generator [])))
              (unsafePack 1 (new_Generator []))
              (VArray [])
  = _packObject (new_Generator []) (unsafePack 1 (new_Generator [])) (VArray []).
Proof.
  split.
  - apply (registered_packer_is_called (new_Generator []) (CUser "Point")
             (fun _ _ => gwrite (BufferStream.writeUInt8 0xc0))
             (unsafePack 1 (new_Generator []))
             (VObject (CUser "Point") [("x"%string, VNumber (Int 1))])).
    + reflexivity.
    + cbn. intros t p H.
      repeat (destruct H as [H | H]; [injection H as <- _; discriminate |]).
      destruct H.
  - apply (registered_packer_is_called (new_Generator []) (CUser "Point")
             (fun _ _ => gwrite (BufferStream.writeUInt8 0xc0))
             (unsafePack 1 (new_Generator [])) (VArray [])).
    reflexivity.
Defined.

Section TagRegistry.

Variable host : Host.

(** X11.  The tag registry at work.  After [addSemanticTag(tag, fn)], an item
    under the tag [tag] is handed to [fn] and the callback receives what
    [fn] gives; under another tag it goes where it went before, and under
    a tag without a decoder the callback receives the item itself with the
    tag as its third argument. *)
Theorem registered_decoder_is_called (parser : Parser) (tag : Z) (fn : decoder)
        (t : Z) (h rest rest' : list Z) (fuel : nat) (v : value) (tg : option Z) :
  head 7 t h ->
  _unpack host (snd (addSemanticTag tag fn parser)) fuel rest true
    = Ok ((v, tg), rest') ->
  (t = tag ->
   _unpack host (snd (addSemanticTag tag fn parser)) (3 + fuel) (h ++ rest) false
     = obind (fn tag v) (fun d => Ok (d, rest'))) /\
  (t <> tag ->
   _unpack host (snd (addSemanticTag tag fn parser)) (3 + fuel) (h ++ rest) false
     = obind (apply_tag parser t v) (fun d => Ok (d, rest'))) /\
  (t <> tag -> semanticTags parser !! t = None ->
   _unpack host (snd (addSemanticTag tag fn parser)) (3 + fuel) (h ++ rest) false
     = Ok ((v, Some t), rest')).
Proof.
  intros Hh Hv. cbn [Nat.add].
  rewrite (_unpack_tag host _ fuel t h rest Hh), Hv. cbn [obind].
  unfold apply_tag, addSemanticTag. cbn [snd semanticTags].
  split; [| split].
  - intros ->. rewrite lookup_insert_eq. reflexivity.
  - intros Hne. rewrite lookup_insert_ne by congruence. reflexivity.
  - intros Hne Hnone. rewrite lookup_insert_ne by congruence.
    unfold decoder in Hnone |- *. rewrite Hnone. reflexivity.
Qed.

End TagRegistry.

Lemma registered_decoder_is_called_witness :
  _unpack plain_host
          (snd (addSemanticTag 2 (fun _ obj => Ok (VArray [obj], None))
                  (new_Parser plain_host [])))
          5 ([0xe2] ++ [0x07]) false
  = obind (Ok (VArray [VNumber (Int 7)], None)) (fun d => Ok (d, [])).
Proof.
  apply (registered_decoder_is_called plain_host (new_Parser plain_host []) 2
           (fun _ obj => Ok (VArray [obj], None)) 2 [0xe2] [0x07] [] 2
           (VNumber (Int 7)) None (head_inline 7 2 ltac:(lia)) eq_refl).
  reflexivity.
Defined.

Lemma round53_large (z : Z) : 2^53 <= Z.abs z -> 2^53 <= Z.abs (round53 z).
Proof.
  intros Hz. unfold round53.
  destruct (Z.ltb_spec (Z.abs z) (2^53)); [lia |].
  cbv zeta.
  set (a := Z.abs z) in *.
  set (k := Z.log2 a - 52).
  assert (Hlog : 53 <= Z.log2 a).
  { apply Z.log2_le_pow2; lia. }
  assert (Hk : 1 <= k) by (unfold k; lia).
  assert (Ha : 2 ^ Z.log2 a <= a) by (apply Z.log2_spec; lia).
  assert (Hp : 2 ^ Z.log2 a = 2^52 * 2^k).
  { rewrite <- Z.pow_add_r by lia. f_equal. unfold k. lia. }
  assert (Hk0 : 0 < 2^k) by (apply Z.pow_pos_nonneg; lia).
  assert (Hq : 2^52 <= a / 2^k).
  { apply Z.div_le_lower_bound; [lia |]. lia. }
  assert (Hk2 : 2 <= 2^k).
  { change 2 with (2^1) at 1. apply Z.pow_le_mono_r; lia. }
  set (q' := if a mod 2 ^ k <? 2 ^ (k - 1) then a / 2 ^ k
             else if 2 ^ (k - 1) <? a mod 2 ^ k then a / 2 ^ k + 1
                  else if Z.even (a / 2 ^ k) then a / 2 ^ k else a / 2 ^ k + 1).
  assert (Hq' : 2^52 <= q').
  { unfold q'. repeat match goal with |- context [if ?c then _ else _] => destruct c end; lia. }
  rewrite Z.abs_mul.
  assert (Hs : Z.abs (Z.sgn z) = 1) by lia.
  rewrite Hs, Z.mul_1_l. rewrite Z.abs_eq by nia. nia.
Qed.

(** The time of the Date of a whole number of seconds. *)
Lemma seconds_to_time (s : Z) :
  TimeClip (number_mul (Int s) (Int 1000)) =
  if Z.abs (s * 1000) <=? 8640000000000000 then Int (s * 1000)
  else Frac PrimFloat.nan.
Proof.
  unfold number_mul. cbn [norm]. cbv zeta.
  destruct (Z.eqb_spec (s * 1000) 0) as [E | N].
  - assert (s = 0) by lia. subst s. reflexivity.
  - destruct (Z.ltb_spec (Z.abs (s * 1000)) (2^53)) as [Hsmall | Hbig].
    + rewrite round53_small by exact Hsmall.
      destruct (Z.ltb_spec (Z.abs (s * 1000)) (2^1024)); [reflexivity |].
      assert (2^53 < 2^1024) by (apply Z.pow_lt_mono_r; lia). lia.
    + pose proof (round53_large _ Hbig) as Hr.
      destruct (Z.leb_spec (Z.abs (s * 1000)) 8640000000000000); [lia |].
      destruct (Z.abs (round53 (s * 1000)) <? 2^1024).
      * cbn [TimeClip].
        destruct (Z.leb_spec (Z.abs (round53 (s * 1000))) 8640000000000000);
          [lia | reflexivity].
      * destruct (round53 (s * 1000) <? 0); reflexivity.
Qed.

(** The seconds of the time of a whole number of seconds. *)
Lemma time_to_seconds (s : Z) :
  Z.abs s < 2^53 -> number_div (Int (s * 1000)) (Int 1000) = Int s.
Proof.
  intros Hs. unfold number_div. cbn [norm].
  rewrite Z.mod_mul by lia. rewrite Z.div_mul by lia. cbn [Z.eqb negb andb].
  rewrite round53_small by exact Hs.
  destruct (Z.eqb_spec (s * 1000) 0); [| reflexivity].
  assert (s = 0) by lia. subst s. reflexivity.
Qed.


Section DefaultDecoders.

Variable host : Host.

(** X12.  The default decoders.  With the registry of [new Parser()], tag 11
    makes a Date of a text, by [Date.parse], or of a number of seconds:
    of a whole number [s] of seconds the Date of [s * 1000]
    milliseconds, which is an invalid Date beyond 8.64e15 milliseconds;
    tag 15 parses a text as a URL and tag 23 compiles a text as a regular
    expression, and each throws what the platform throws; on an item of
    another type each calls back with the error "Unsupported ... type"
    and the [typeof] of the item. *)
Theorem default_decoders_by_type (h rest rest' : list Z) (fuel : nat)
        (v : value) (tg : option Z) :
  _unpack host (new_Parser host []) fuel rest true = Ok ((v, tg), rest') ->
  (head 7 11 h ->
   _unpack host (new_Parser host []) (3 + fuel) (h ++ rest) false =
   match v with
   | VString s => Ok ((VDate (Date_parse host s), None), rest')
   | VNumber (Int s) =>
       Ok ((VDate (if Z.abs (s * 1000) <=? 8640000000000000
                   then Int (s * 1000) else Frac PrimFloat.nan), None), rest')
   | VNumber n => Ok ((VDate (TimeClip (number_mul n (Int 1000))), None), rest')
   | _ => CbError (Error ("Unsupported date type: " ++ typeof v))
   end) /\
  (head 7 15 h ->
   _unpack host (new_Parser host []) (3 + fuel) (h ++ rest) false =
   match v with
   | VString s =>
       match url_parse host s with
       | Returns props => Ok ((VObject (CUser "Url") props, None), rest')
       | Throws e => Throw (native_exn e)
       end
   | _ => CbError (Error ("Unsupported Uri type: " ++ typeof v))
   end) /\
  (head 7 23 h ->
   _unpack host (new_Parser host []) (3 + fuel) (h ++ rest) false =
   match v with
   | VString s =>
       match RegExp_compile host s with
       | Returns source => Ok ((VRegExp source, None), rest')
       | Throws e => Throw (native_exn e)
       end
   | _ => CbError (Error ("Unsupported RegExp type: " ++ typeof v))
   end).
Proof.
  intros Hv. cbn [Nat.add].
  split; [| split]; intros Hh;
    rewrite (_unpack_tag host _ fuel _ h rest Hh), Hv; cbn [obind];
    unfold apply_tag; cbn [new_Parser fold_left semanticTags];
    unfold default_semanticTags.
  - rewrite lookup_insert_eq. unfold _unpackDate.
    destruct v as [| | b | n | s | | l | c props | o | o | t | src | n];
      try reflexivity.
    destruct n as [s | | f]; try reflexivity.
    rewrite seconds_to_time. reflexivity.
  - rewrite lookup_insert_ne by discriminate. rewrite lookup_insert_eq.
    unfold _unpackUri. destruct v; try reflexivity.
    destruct (url_parse host s); reflexivity.
  - rewrite lookup_insert_ne by discriminate.
    rewrite lookup_insert_ne by discriminate. rewrite lookup_insert_eq.
    unfold _unpackRegex. destruct v; try reflexivity.
    destruct (RegExp_compile host s); reflexivity.
Qed.

End DefaultDecoders.

Lemma default_decoders_by_type_witness :
  _unpack plain_host (new_Parser plain_host []) 5 ([0xeb] ++ [0xd9]) false
  = CbError (Error "Unsupported date type: boolean") /\
  _unpack plain_host (new_Parser plain_host []) 5
          ([0xeb] ++ [0x1e; 0x51; 0x4b; 0x67; 0xb0]) false
  = Ok ((VDate (Int 1363896240000), None), []).
Proof.
  split.
  - apply (default_decoders_by_type plain_host [0xeb] [0xd9] [] 2 (VBoolean true) None
             eq_refl).
    exact (head_inline 7 11 ltac:(lia)).
  - apply (default_decoders_by_type plain_host [0xeb] [0x1e; 0x51; 0x4b; 0x67; 0xb0] [] 2
             (VNumber (Int 1363896240)) None eq_refl).
    exact (head_inline 7 11 ltac:(lia)).
Defined.

(* ================================================================== *)
(** * The options of the constructors *)
(* ================================================================== *)

(** X13.  [options.psTags].  [new Parser({psTags})] decodes a tag with the
    entry of [psTags] for it, the last one if there are several, and with
    the default decoder of the tag, if it has one, when [psTags] has no
    entry for it. *)
Theorem new_Parser_psTags (host : Host) (psTags : list (Z * decoder)) (tag : Z) :
  semanticTags (new_Parser host psTags) !! tag =
  match last_for_tag tag psTags with
  | Some fn => Some fn
  | None => default_semanticTags host !! tag
  end.
Proof.
  unfold new_Parser, last_for_tag.
  change (default_semanticTags host)
    with (semanticTags {| semanticTags := default_semanticTags host |}) at 2.
  generalize {| semanticTags := default_semanticTags host |}.
  induction psTags as [| [t fn] psTags IH]; intros p; [reflexivity |].
  cbn [fold_left fst snd rev]. rewrite IH.
  destruct (List.find (fun tf => fst tf =? tag) (rev psTags)) as [tf |] eqn:Hf.
  - rewrite (find_app_some _ _ _ _ Hf). reflexivity.
  - rewrite (find_app_none _ _ _ Hf). cbn [List.find fst].
    unfold addSemanticTag. cbn [snd semanticTags].
    destruct (Z.eqb_spec t tag) as [-> | Hne].
    + cbn. apply lookup_insert_eq.
    + cbn. apply lookup_insert_ne. exact Hne.
Qed.

Lemma registered_packer_app (type : ctor) (l1 l2 : list (ctor * packer)) :
  registered_packer type (l1 ++ l2) =
  match registered_packer type l1 with
  | Some fn => Some fn
  | None => registered_packer type l2
  end.
Proof.
  unfold registered_packer.
  destruct (List.find (fun tf => bool_decide (fst tf = type)) l1) as [tf |] eqn:Hf.
  - rewrite (find_app_some _ _ _ _ Hf). reflexivity.
  - rewrite (find_app_none _ _ _ Hf). reflexivity.
Qed.

Lemma registered_packer_addSemanticType (t type : ctor) (fn : packer)
      (g : Generator) :
  registered_packer t (semanticTypes (snd (addSemanticType type fn g))) =
  if bool_decide (type = t) then Some fn
  else registered_packer t (semanticTypes g).
Proof.
  unfold addSemanticType.
  pose proof (replace_packer_registered type fn (semanticTypes g)) as H.
  destruct (replace_packer type fn (semanticTypes g)) as [[old l'] |];
    cbn [snd semanticTypes].
  - destruct H as (_ & H2 & _ & H4).
    destruct (bool_decide (type = t)) eqn:E.
    + apply bool_decide_eq_true_1 in E. subst t. exact H2.
    + apply bool_decide_eq_false_1 in E. apply H4. congruence.
  - rewrite registered_packer_app.
    destruct (bool_decide (type = t)) eqn:E.
    + apply bool_decide_eq_true_1 in E. subst t. rewrite H.
      unfold registered_packer. cbn.
      rewrite bool_decide_eq_true_2 by reflexivity. reflexivity.
    + destruct (registered_packer t (semanticTypes g)); [reflexivity |].
      unfold registered_packer. cbn.
      apply bool_decide_eq_false_1 in E.
      rewrite bool_decide_eq_false_2 by exact E. reflexivity.
Qed.

Lemma addSemanticType_keeps_front (type : ctor) (fn : packer) (g : Generator)
      (front : list ctor) :
  (exists more, map fst (semanticTypes g) = front ++ more) ->
  exists more,
    map fst (semanticTypes (snd (addSemanticType type fn g))) = front ++ more.
Proof.
  intros [more Hm]. unfold addSemanticType.
  pose proof (replace_packer_registered type fn (semanticTypes g)) as H.
  destruct (replace_packer type fn (semanticTypes g)) as [[old l'] |];
    cbn [snd semanticTypes].
  - destruct H as (_ & _ & H3 & _). exists more. rewrite H3. exact Hm.
  - exists (more ++ [type]). rewrite map_app, Hm, <- app_assoc. reflexivity.
Qed.

Lemma fold_addSemanticType (t : ctor) (genTypes : list (ctor * packer))
      (g : Generator) (front : list ctor) :
  (exists more, map fst (semanticTypes g) = front ++ more) ->
  let g' := fold_left (fun g tf => snd (addSemanticType (fst tf) (snd tf) g))
                      genTypes g in
  registered_packer t (semanticTypes g') =
    match last_for_type t genTypes with
    | Some fn => Some fn
    | None => registered_packer t (semanticTypes g)
    end /\
  exists more, map fst (semanticTypes g') = front ++ more.
Proof.
  unfold last_for_type. revert g.
  induction genTypes as [| [type fn] genTypes IH]; intros g Hfront.
  { split; [reflexivity | exact Hfront]. }
  cbn [fold_left fst snd rev].
  destruct (IH (snd (addSemanticType type fn g))
               (addSemanticType_keeps_front type fn g front Hfront))
    as [H1 H2].
  split; [| exact H2]. rewrite H1.
  destruct (List.find (fun tf => bool_decide (fst tf = t)) (rev genTypes))
    as [tf |] eqn:Hf.
  - rewrite (find_app_some _ _ _ _ Hf). reflexivity.
  - rewrite (find_app_none _ _ _ Hf). cbn [List.find fst].
    rewrite registered_packer_addSemanticType.
    destruct (bool_decide (type = t)); reflexivity.
Qed.

(** The first entry whose type an object is an instance of is the entry
    that the registry holds for the first such type. *)
Lemma find_by_type (P : ctor -> bool) (l : list (ctor * packer)) :
  List.find (fun tf => P (fst tf)) l =
  match List.find P (map fst l) with
  | Some t => (fun fn => (t, fn)) <$> registered_packer t l
  | None => None
  end.
Proof.
  unfold registered_packer.
  induction l as [| [t p] l IH]; [reflexivity |].
  cbn [map List.find fst]. destruct (P t) eqn:Ht.
  - rewrite bool_decide_eq_true_2 by reflexivity. reflexivity.
  - rewrite IH. destruct (List.find P (map fst l)) as [t' |] eqn:Hf; [| reflexivity].
    apply find_some in Hf. destruct Hf as [_ Ht'].
    rewrite bool_decide_eq_false_2 by (intros ->; congruence).
    reflexivity.
Qed.

(** A type that is registered again does not move: the first type that an
    object is an instance of is the same. *)
Lemma find_type_again (P : ctor -> bool) (l more : list ctor) (t : ctor) :
  In t l -> List.find P (l ++ more) = List.find P (l ++ t :: more).
Proof.
  intros Hin. destruct (List.find P l) as [x |] eqn:Hf.
  - rewrite !(find_app_some _ _ _ _ Hf). reflexivity.
  - rewrite !(find_app_none _ _ _ Hf). cbn [List.find].
    rewrite (find_none _ _ Hf t Hin). reflexivity.
Qed.

Lemma addSemanticType_types (type : ctor) (fn : packer) (g : Generator) :
  let types := map fst (semanticTypes (snd (addSemanticType type fn g))) in
  (In type (map fst (semanticTypes g)) /\ types = map fst (semanticTypes g)) \/
  types = map fst (semanticTypes g) ++ [type].
Proof.
  unfold addSemanticType.
  pose proof (replace_packer_registered type fn (semanticTypes g)) as H.
  destruct (replace_packer type fn (semanticTypes g)) as [[old l'] |];
    cbn [snd semanticTypes].
  - destruct H as (H1 & _ & H3 & _). left. split; [| exact H3].
    unfold registered_packer in H1.
    destruct (List.find _ (semanticTypes g)) as [[t p] |] eqn:Hf;
      [| discriminate H1].
    apply find_some in Hf. destruct Hf as [Hin Ht].
    apply bool_decide_eq_true_1 in Ht. cbn [fst] in Ht. subst t.
    apply (in_map fst) in Hin. exact Hin.
  - right. apply map_app.
Qed.

(** The types of the registry of [new Generator({genTypes})], as
    [_packObject] goes through them: those of the registry it started
    from, then those of [genTypes]. *)
Lemma fold_addSemanticType_types (P : ctor -> bool)
      (genTypes : list (ctor * packer)) (g : Generator) (more : list ctor) :
  List.find P (map fst (semanticTypes
                 (fold_left (fun g tf => snd (addSemanticType (fst tf) (snd tf) g))
                            genTypes g)) ++ more) =
  List.find P (map fst (semanticTypes g) ++ map fst genTypes ++ more).
Proof.
  revert g. induction genTypes as [| [type fn] genTypes IH]; intros g;
    [reflexivity |].
  cbn [fold_left fst snd map app]. rewrite IH.
  destruct (addSemanticType_types type fn g) as [[Hin ->] | ->].
  - apply find_type_again, Hin.
  - rewrite <- app_assoc. reflexivity.
Qed.

(** X14.  [options.genTypes].  [new Generator({genTypes})] packs an object
    by the first type that it is an instance of, the six default types
    being tried first, in their order, and the types of [genTypes] after
    them, in theirs; the packer is the last entry of [genTypes] for that
    type, or else its default packer.  An object that is an instance of
    none is written as a map of its own properties.  (So an entry of
    [genTypes] for a type that comes after [Object], or after another
    type that the object is an instance of, is never called.) *)
Theorem new_Generator_genTypes (genTypes : list (ctor * packer))
        (gen : value -> Gen unit) (obj : value) :
  _packObject (new_Generator genTypes) gen obj =
  match List.find (instanceof obj)
                  ([CArray; CDate; CBuffer; CBufferStream; CRegExp; CUnallocated]
                   ++ map fst genTypes) with
  | Some type =>
      match last_for_type type genTypes,
            registered_packer type default_semanticTypes with
      | Some fn, _ | None, Some fn => fn gen obj
      | None, None => _packObject {| semanticTypes := [] |} gen obj
      end
  | None => _packObject {| semanticTypes := [] |} gen obj
  end.
Proof.
  pose proof (fold_addSemanticType_types (instanceof obj) genTypes
                {| semanticTypes := default_semanticTypes |} []) as Hty.
  rewrite !app_nil_r in Hty. fold (new_Generator genTypes) in Hty.
  change (map fst (semanticTypes {| semanticTypes := default_semanticTypes |}))
    with [CArray; CDate; CBuffer; CBufferStream; CRegExp; CUnallocated] in Hty.
  rewrite <- Hty.
  unfold _packObject at 1.
  rewrite (find_by_type (instanceof obj)).
  destruct (List.find (instanceof obj)
              (map fst (semanticTypes (new_Generator genTypes)))) as [type |];
    [| reflexivity].
  destruct (fold_addSemanticType type genTypes
              {| semanticTypes := default_semanticTypes |} [])
    as [Hreg _]; [exists (map fst default_semanticTypes); reflexivity |].
  fold (new_Generator genTypes) in Hreg. rewrite Hreg.
  cbn [semanticTypes].
  destruct (last_for_type type genTypes) as [fn |]; [reflexivity |].
  destruct (registered_packer type default_semanticTypes) as [fn |];
    reflexivity.
Qed.

(** An entry of [genTypes] for a type that comes after [Object] is not
    called, and one for [Object] takes the instances of every other
    type. *)
Example genTypes_after_Object (f1 f2 : packer) (gen : value -> Gen unit)
        (props : list (string * value)) :
  _packObject (new_Generator [(CObject, f1); (CUser "P", f2)]) gen
              (VObject (CUser "P") props) =
  f1 gen (VObject (CUser "P") props).
Proof. reflexivity. Qed.

(* ================================================================== *)
(** * Tagged values of the generator *)
(* ================================================================== *)

Section Outcomes.

Variable host : Host.
Variable parser : Parser.

Lemma _unpack_settled_agree (f1 f2 : nat) (bs : BufferStream.t) (t : bool) :
  settled (_unpack host parser f1 bs t) ->
  settled (_unpack host parser f2 bs t) ->
  _unpack host parser f1 bs t = _unpack host parser f2 bs t.
Proof.
  intros H1 H2. destruct (Nat.le_ge_cases f1 f2) as [Hle | Hle].
  - rewrite <- (_unpack_more_fuel host parser f1 (f2 - f1) bs t H1).
    replace ((f2 - f1) + f1)%nat with f2 by lia. reflexivity.
  - rewrite <- (_unpack_more_fuel host parser f2 (f1 - f2) bs t H2).
    replace ((f1 - f2) + f2)%nat with f1 by lia. reflexivity.
Qed.

Hypothesis decoders_settled :
  forall tag fn obj, semanticTags parser !! tag = Some fn -> settled (fn tag obj).

(** The outcome that [_unpack] reaches with some fuel is that of
    [parser.unpack]. *)
Lemma Parser_unpack_outcome (f : nat) (bs : list Z) :
  settled (_unpack host parser f bs false) ->
  Parser_unpack host parser bs 0 =
  obind (_unpack host parser f bs false) (fun '(d, _) => Ok d).
Proof.
  intros H. unfold Parser_unpack. cbn [Z.eqb].
  rewrite (_unpack_settled_agree (unpack_fuel bs) f bs false); [reflexivity | | exact H].
  apply (descent_enough_fuel host parser decoders_settled
           (List.length bs) bs (Nat.le_refl _)).
  unfold unpack_fuel. lia.
Qed.

End Outcomes.

Lemma _packObject_default_regexp (gen : value -> Gen unit) (source : string) :
  _packObject (new_Generator []) gen (VRegExp source) =
  _packRegexp gen (VRegExp source).
Proof. reflexivity. Qed.

Lemma _packObject_default_date (gen : value -> Gen unit) (t : number) :
  _packObject (new_Generator []) gen (VDate t) = _packDate gen (VDate t).
Proof. reflexivity. Qed.

Lemma SFeqb_refl_finite (x : spec_float) :
  match x with S754_zero _ | S754_finite _ _ _ => SFeqb x x = true | _ => True end.
Proof.
  destruct x as [s | s | | s m e]; try exact I.
  - destruct s; reflexivity.
  - unfold SFeqb, SFcompare. rewrite Z.compare_refl.
    destruct s; cbn; rewrite ?Pos.compare_cont_refl; try reflexivity.
Qed.
Lemma norm_Int_not_NaN (n : number) (z : Z) : norm n = Int z -> isNaN n = false.
Proof.
  destruct n as [x | | f]; cbn [norm isNaN]; try reflexivity.
  unfold number_of_float. intros H.
  unfold is_nan. rewrite FloatAxioms.eqb_spec.
  pose proof (SFeqb_refl_finite (Prim2SF f)) as Hr.
  destruct (Prim2SF f) as [s | s | | s m e]; try discriminate H.
  - cbv beta iota in Hr. rewrite Hr. reflexivity.
  - cbv beta iota in Hr. rewrite Hr. reflexivity.
Qed.

(** A number that is not its own 32-bit truncation is written as a
    float. *)
Lemma _packNumber_float (n : number) (b : BufferStream.t) :
  negb (isNaN n) && strict_eq n (Int (ToInt32 n)) = false ->
  _packNumber n b =
  (Ok tt, b ++ 0xdf :: BufferStream.be_bytes 8 (bits_of_float (to_float n))).
Proof.
  intros E. unfold _packNumber. rewrite E.
  unfold gbind, BufferStream.writeUInt8.
  rewrite gwrite_writeUInt by (vm_compute; split; [discriminate | reflexivity]).
  unfold gwrite, BufferStream.writeDoubleBE. rewrite <- app_assoc. reflexivity.
Qed.

Lemma _packNumber_writes (n : number) (b : BufferStream.t) :
  _packNumber n b = (Ok tt, b ++ number_bytes n).
Proof.
  unfold number_bytes. cbv zeta.
  destruct (norm n) as [z | | f] eqn:Hn.
  - destruct ((- 2^31 <=? z) && (z <? 2^31)) eqn:Hr.
    + unfold _packNumber. rewrite (norm_Int_not_NaN n z Hn).
      unfold strict_eq, ToInt32, number_geb. rewrite Hn. cbn [norm negb andb].
      rewrite to_int32_id by lia. rewrite Z.eqb_refl.
      destruct (0 <=? z) eqn:Hz; apply _packInt_framed; lia.
    + apply _packNumber_float.
      unfold strict_eq, ToInt32. rewrite Hn. cbn [norm].
      pose proof (to_int32_range z).
      destruct (Z.eqb_spec z (to_int32 z)); [lia |]. apply andb_false_r.
  - unfold _packNumber.
    assert (Hnan : isNaN n = false).
    { destruct n as [x | | f]; cbn [norm isNaN] in *; try reflexivity.
      unfold number_of_float in Hn. unfold is_nan.
      rewrite FloatAxioms.eqb_spec.
      destruct (Prim2SF f) as [s | s | | s m e]; try discriminate Hn;
        [destruct s; reflexivity |].
      destruct (0 <=? e); [discriminate Hn |].
      destruct (_ =? 0); discriminate Hn. }
    rewrite Hnan. unfold strict_eq, ToInt32, number_geb. rewrite Hn.
    cbn [norm negb andb Z.eqb Z.leb Z.compare].
    apply _packInt_framed; lia.
  - apply _packNumber_float.
    unfold strict_eq. rewrite Hn. cbn [norm]. apply andb_false_r.
Qed.

(** X15.  Regular expressions.  A RegExp is written as the byte [0xf7], tag
    23, and the text of its source; [unpack] compiles that text again and
    calls back with the RegExp, or throws what the compilation throws. *)
Theorem RegExp_round_trip (host : Host) (fuel : nat) (source : string)
        (rest : list Z) :
  utf8_valid (octets_of_string source) = true ->
  Z.of_nat (String.length source) <= 0x7fffffff ->
  exists bytes,
    pack (S (S fuel)) (VRegExp source) = Ok (0xf7 :: bytes) /\
    pack (S fuel) (VString source) = Ok bytes /\
    unpack host (0xf7 :: bytes ++ rest) =
    match RegExp_compile host source with
    | Returns source' => Ok (VRegExp source', None)
    | Throws e => Throw (native_exn e)
    end.
Proof.
  intros Hu Hl.
  exists (framed 3 (Z.of_nat (String.length source)) ++ octets_of_string source).
  assert (Hw : forall f b,
            unsafePack (S f) (new_Generator []) (VString source) b =
            (Ok tt, b ++ framed 3 (Z.of_nat (String.length source))
                      ++ octets_of_string source)).
  { intros f b. cbn [unsafePack]. unfold gbind. rewrite _packInt_framed by lia.
    unfold gwrite, BufferStream.append. rewrite <- app_assoc. reflexivity. }
  split; [| split].
  - unfold pack, Generator_pack.
    change (unsafePack (S (S fuel)) (new_Generator []) (VRegExp source))
      with (_packObject (new_Generator []) (unsafePack (S fuel) (new_Generator []))
                        (VRegExp source)).
    rewrite _packObject_default_regexp. unfold _packRegexp, gbind at 1.
    change (gwrite (BufferStream.writeUInt8 247) BufferStream.empty)
      with (@Ok unit tt, [247]).
    cbv beta iota. rewrite Hw. reflexivity.
  - unfold pack, Generator_pack. rewrite Hw. reflexivity.
  - destruct (reads_text host (new_Parser host []) source Hu Hl rest true)
      as [f Hf].
    unfold unpack.
    rewrite (Parser_unpack_outcome host (new_Parser host [])
               (default_decoders_settled host) (3 + f)).
    + change (247 :: (framed 3 (Z.of_nat (String.length source))
                      ++ octets_of_string source) ++ rest)
        with ([initial_byte 7 23]
              ++ (framed 3 (Z.of_nat (String.length source))
                  ++ octets_of_string source) ++ rest).
      cbn [Nat.add].
      rewrite (_unpack_tag host _ f 23 _ _ (head_inline 7 23 ltac:(lia))), Hf.
      cbn [obind]. unfold apply_tag, _unpackRegex.
      change (semanticTags (new_Parser host []) !! 23) with (Some (_unpackRegex host)).
      unfold _unpackRegex.
      destruct (RegExp_compile host source); reflexivity.
    + change (247 :: (framed 3 (Z.of_nat (String.length source))
                      ++ octets_of_string source) ++ rest)
        with ([initial_byte 7 23]
              ++ (framed 3 (Z.of_nat (String.length source))
                  ++ octets_of_string source) ++ rest).
      cbn [Nat.add].
      rewrite (_unpack_tag host _ f 23 _ _ (head_inline 7 23 ltac:(lia))), Hf.
      cbn [obind]. unfold apply_tag.
      change (semanticTags (new_Parser host []) !! 23) with (Some (_unpackRegex host)).
      unfold _unpackRegex, settled.
      destruct (RegExp_compile host source); discriminate.
Qed.

Lemma RegExp_round_trip_witness :
  exists bytes,
    pack 2 (VRegExp "a+") = Ok (0xf7 :: bytes) /\
    pack 1 (VString "a+") = Ok bytes /\
    unpack plain_host (0xf7 :: bytes ++ []) = Ok (VRegExp "a+", None).
Proof.
  apply (RegExp_round_trip plain_host 0 "a+" []); [reflexivity | cbn; lia].
Defined.

(** X16.  Dates.  A Date is written as the byte [0xeb], tag 11, and the
    number that is its time divided by 1000, whatever the time.  The Date
    of a whole number [s] of seconds that has 32 bits is written as
    [0xeb] and the integer [s], and [unpack] calls back with the Date of
    that time, [s * 1000] milliseconds. *)
Theorem Date_whole_seconds (host : Host) (fuel : nat) (s : Z) (rest : list Z) :
  - 2^31 <= s <= 2^31 - 1 ->
  (forall t, exists bytes,
     pack (S fuel) (VNumber (number_div t (Int 1000))) = Ok bytes /\
     pack (S (S fuel)) (VDate t) = Ok (0xeb :: bytes)) /\
  number_div (Int (s * 1000)) (Int 1000) = Int s /\
  pack (S (S fuel)) (VDate (Int (s * 1000))) =
    Ok (0xeb :: (if 0 <=? s then framed 0 s else framed 1 (- s - 1))) /\
  unpack host (0xeb :: (if 0 <=? s then framed 0 s else framed 1 (- s - 1)) ++ rest) =
    Ok (VDate (Int (s * 1000)), None).
Proof.
  intros Hs.
  assert (Hdate : forall t,
            pack (S (S fuel)) (VDate t) =
            Ok (0xeb :: number_bytes (number_div t (Int 1000)))).
  { intros t. unfold pack, Generator_pack.
    change (unsafePack (S (S fuel)) (new_Generator []) (VDate t))
      with (_packObject (new_Generator []) (unsafePack (S fuel) (new_Generator []))
                        (VDate t)).
    rewrite _packObject_default_date. unfold _packDate, gbind.
    change (gwrite (BufferStream.writeUInt8 235) BufferStream.empty)
      with (@Ok unit tt, [235]).
    cbv beta iota. cbn [unsafePack]. rewrite _packNumber_writes. reflexivity. }
  assert (Hdiv : number_div (Int (s * 1000)) (Int 1000) = Int s).
  { apply time_to_seconds. lia. }
  split; [| split; [exact Hdiv | split]].
  - intros t. exists (number_bytes (number_div t (Int 1000))).
    split; [| apply Hdate].
    rewrite pack_number, _packNumber_writes. reflexivity.
  - rewrite Hdate, Hdiv. unfold number_bytes. cbn [norm]. cbv zeta.
    destruct (Z.leb_spec (- 2^31) s); [| lia].
    destruct (Z.ltb_spec s (2^31)); [| lia]. reflexivity.
  - destruct (reads_integer host (new_Parser host []) s Hs rest true) as [f Hf].
    apply (Parser_unpack_reads host (new_Parser host [])
             (default_decoders_settled host) (3 + f) _ rest).
    change (235 :: (if 0 <=? s then framed 0 s else framed 1 (- s - 1)) ++ rest)
      with ([initial_byte 7 11]
            ++ (if 0 <=? s then framed 0 s else framed 1 (- s - 1)) ++ rest).
    cbn [Nat.add].
    rewrite (_unpack_tag host _ f 11 _ _ (head_inline 7 11 ltac:(lia))), Hf.
    cbn [obind]. unfold apply_tag.
    change (semanticTags (new_Parser host []) !! 11) with (Some (_unpackDate host)).
    unfold _unpackDate. rewrite seconds_to_time.
    destruct (Z.leb_spec (Z.abs (s * 1000)) 8640000000000000); [reflexivity | lia].
Qed.

Lemma Date_whole_seconds_witness :
  pack 2 (VDate (Int 1363896240000)) = Ok [0xeb; 0x1e; 0x51; 0x4b; 0x67; 0xb0] /\
  unpack plain_host ([0xeb; 0x1e; 0x51; 0x4b; 0x67; 0xb0] ++ []) =
    Ok (VDate (Int 1363896240000), None).
Proof.
  destruct (Date_whole_seconds plain_host 0 1363896240 [] ltac:(lia))
    as (_ & _ & Hp & Hu).
  split; [exact Hp | exact Hu].
Defined.

(* ================================================================== *)
(** * The keys of a map *)
(* ================================================================== *)

Lemma named_app (host : Host) (kvs1 kvs2 : list (value * value))
      (names1 names2 : list string) :
  named host kvs1 names1 -> named host kvs2 names2 ->
  named host (kvs1 ++ kvs2) (names1 ++ names2).
Proof.
  revert names1. induction kvs1 as [| [k v] kvs1 IH]; intros [| n names1] H1 H2;
    cbn in H1; try contradiction; [exact H2 |].
  destruct H1 as (Hs & Hp & H1). cbn. repeat split; try assumption.
  apply IH; assumption.
Qed.

Lemma put_pairs_named (host : Host) (kvs : list (value * value))
      (names : list string) (res : list (string * value)) :
  named host kvs names -> exists props, put_pairs host kvs res = Ok props.
Proof.
  revert names res.
  induction kvs as [| [k v] kvs IH]; intros [| n names] res H;
    cbn in H; try contradiction.
  - exists res. reflexivity.
  - destruct H as (Hs & Hp & H). cbn [put_pairs]. rewrite Hs. cbn [obind].
    rewrite Object_put_named by assumption. cbn [obind].
    apply (IH names). exact H.
Qed.

(** X17.  The keys of a map.  A map whose keys have strings other than
    [__proto__] is read as an object; of the pairs whose keys have one
    string, whatever the types of the keys, the last one gives the
    property its value. *)
Theorem map_last_key_wins (host : Host) (parser : Parser) (f : nat)
        (bs bs' : BufferStream.t) (kvs1 kvs2 : list (value * value))
        (names1 names2 : list string) (key val : value) (name : string) :
  decodes_pairs host parser f bs (kvs1 ++ (key, val) :: kvs2) bs' ->
  named host kvs1 names1 ->
  named host ((key, val) :: kvs2) (name :: names2) ->
  ~ In name names2 ->
  Z.of_nat (List.length (kvs1 ++ (key, val) :: kvs2)) < 2^53 ->
  exists props,
    _unpackMap host parser (S (List.length (kvs1 ++ (key, val) :: kvs2)) + f) bs
               (Z.of_nat (List.length (kvs1 ++ (key, val) :: kvs2))) [] =
    Ok ((VObject CObject props, None), bs') /\
    get_prop props name = Some val.
Proof.
  intros Hd H1 H2 Hlast Hlen.
  destruct (put_pairs_named host _ _ [] (named_app host _ _ _ _ H1 H2))
    as [props Hput].
  exists props. split.
  - exact (_unpackMap_put_pairs host parser f bs bs' _ Hd Hlen [] props Hput).
  - exact (last_pair_wins host kvs1 kvs2 names1 names2 key val name [] props
             H1 H2 Hlast Hput).
Qed.

Lemma map_last_key_wins_witness :
  (exists props,
     _unpackMap plain_host (new_Parser plain_host []) 5
                [0x01; 0x0a; 0x61; 0x31; 0x0b] 2 [] =
     Ok ((VObject CObject props, None), []) /\
     get_prop props "1" = Some (VNumber (Int 11))) /\
  (exists props,
     _unpackMap plain_host (new_Parser plain_host []) 5
                [0x41; 0xff; 0x01; 0x41; 0xfe; 0x02] 2 [] =
     Ok ((VObject CObject props, None), []) /\
     get_prop props (string_of_octets replacement) = Some (VNumber (Int 2))).
Proof.
  split.
  - assert (Hd : decodes_pairs plain_host (new_Parser plain_host []) 2
                   [0x01; 0x0a; 0x61; 0x31; 0x0b]
                   ([(VNumber (Int 1), VNumber (Int 10))]
                    ++ (VString "1", VNumber (Int 11)) :: []) []).
    { eapply decodes_pair; [reflexivity | reflexivity |].
      eapply decodes_pair; [reflexivity | reflexivity |].
      apply decodes_no_pair. }
    apply (map_last_key_wins plain_host (new_Parser plain_host []) 2 _ _
             [(VNumber (Int 1), VNumber (Int 10))] []
             ["1"%string] [] (VString "1") (VNumber (Int 11)) "1"%string Hd).
    + cbn. repeat split. discriminate.
    + cbn. repeat split. discriminate.
    + intros [].
    + cbn. lia.
  - assert (Hd : decodes_pairs plain_host (new_Parser plain_host []) 2
                   [0x41; 0xff; 0x01; 0x41; 0xfe; 0x02]
                   ([(VBuffer [0xff], VNumber (Int 1))]
                    ++ (VBuffer [0xfe], VNumber (Int 2)) :: []) []).
    { eapply decodes_pair; [reflexivity | reflexivity |].
      eapply decodes_pair; [reflexivity | reflexivity |].
      apply decodes_no_pair. }
    apply (map_last_key_wins plain_host (new_Parser plain_host []) 2 _ _
             [(VBuffer [0xff], VNumber (Int 1))] []
             [string_of_octets replacement] [] (VBuffer [0xfe]) (VNumber (Int 2))
             (string_of_octets replacement) Hd).
    + cbn. repeat split. discriminate.
    + cbn. repeat split. discriminate.
    + intros [].
    + cbn. lia.
Defined.

(** Two byte strings that are not UTF-8 are one key: each is converted to
    the replacement character U+FFFD, and the later pair gives the
    property its value. *)
Example keys_that_are_not_UTF8 :
  unpack plain_host [0xa2; 0x41; 0xff; 0x01; 0x41; 0xfe; 0x02] =
    Ok (VObject CObject [(string_of_octets [0xef; 0xbf; 0xbd], VNumber (Int 2))],
        None) /\
  unpack plain_host [0x62; 0xc3; 0x28] =
    Ok (VString (string_of_octets [0xef; 0xbf; 0xbd; 0x28]), None) /\
  utf8_decode [0xe2; 0x82; 0x41; 0xf0; 0x9f; 0x98; 0xed; 0xa0; 0x80; 0xc0] =
    [0xef; 0xbf; 0xbd; 0x41; 0xef; 0xbf; 0xbd;
     0xef; 0xbf; 0xbd; 0xef; 0xbf; 0xbd; 0xef; 0xbf; 0xbd; 0xef; 0xbf; 0xbd].
Proof. repeat split; vm_compute; reflexivity. Qed.

(* ================================================================== *)
(** * Instances of other constructors; the end of the descent *)
(* ================================================================== *)

(** X18.  Instances of other constructors.  An instance of a constructor that
    the registry does not hold is written as the object literal of its
    own enumerable properties is, and is read back as that literal. *)
Theorem instance_written_as_literal (host : Host) (fuel : nat) (c : string)
        (props : list (string * value)) (rest : list Z) :
  plain (VObject CObject props) = true ->
  (depth (VObject CObject props) < fuel)%nat ->
  exists bytes,
    pack fuel (VObject (CUser c) props) = Ok bytes /\
    pack fuel (VObject CObject props) = Ok bytes /\
    unpack host (bytes ++ rest) = Ok (VObject CObject props, None).
Proof.
  intros Hp Hd.
  destruct (unsafePack_item host (new_Parser host []) fuel _ Hp Hd [])
    as (bytes & Hw & [Hr _]).
  assert (Hpack : pack fuel (VObject CObject props) = Ok bytes).
  { unfold pack, Generator_pack, BufferStream.empty. rewrite Hw. reflexivity. }
  exists bytes. split; [| split; [exact Hpack |]].
  - rewrite <- Hpack. destruct fuel; reflexivity.
  - destruct (Hr rest false) as [f Hf].
    exact (Parser_unpack_reads host (new_Parser host [])
             (default_decoders_settled host) f _ _ _ Hf).
Qed.

Lemma instance_written_as_literal_witness :
  exists bytes,
    pack 2 (VObject (CUser "Point") [("x"%string, VNumber (Int 1))]) = Ok bytes /\
    pack 2 (VObject CObject [("x"%string, VNumber (Int 1))]) = Ok bytes /\
    unpack plain_host (bytes ++ [])
    = Ok (VObject CObject [("x"%string, VNumber (Int 1))], None).
Proof.
  apply (instance_written_as_literal plain_host 2 "Point"
           [("x"%string, VNumber (Int 1))] []); [reflexivity | cbn; lia].
Defined.

Lemma has_comma_app (a b : string) :
  has_comma (a ++ b) = has_comma a || has_comma b.
Proof.
  unfold has_comma. induction a as [| c a IH]; [reflexivity |].
  change (String c a ++ b)%string with (String c (a ++ b)).
  cbn [list_ascii_of_string existsb]. rewrite IH. apply orb_assoc.
Qed.

Lemma append_empty (s : string) : (s ++ "")%string = s.
Proof.
  induction s as [| c s IH]; [reflexivity |].
  change (String c s ++ "")%string with (String c (s ++ "")). rewrite IH.
  reflexivity.
Qed.

Lemma string_of_Z_not_proto (z : Z) : string_of_Z z <> "__proto__"%string.
Proof.
  unfold string_of_Z. intros H.
  assert (Hs : exists d, NilZero.int_of_string
                           (NilZero.string_of_int (Z.to_int z)) = Some d).
  { destruct (Z.to_int z) as [u | u] eqn:E.
    - destruct u;
        first [ eexists; apply NilZero.isi; discriminate
              | eexists; apply NilZero.isi_posnil ].
    - destruct u;
        first [ eexists; apply NilZero.isi; discriminate
              | eexists; apply NilZero.isi_negnil ]. }
  destruct Hs as [d Hd]. rewrite H in Hd. vm_compute in Hd. discriminate Hd.
Qed.

Lemma Number_toString_not_proto (host : Host) (n : number) :
  names_no_proto host -> Number_toString host n <> "__proto__"%string.
Proof.
  intros [_ Hn]. unfold Number_toString.
  destruct (norm n) as [z | | f].
  - destruct (Z.abs z <=? 2^53); [apply string_of_Z_not_proto | apply Hn].
  - discriminate.
  - destruct (PrimFloat.is_nan f); [discriminate |].
    destruct (PrimFloat.eqb f PrimFloat.infinity); [discriminate |].
    destruct (PrimFloat.eqb f PrimFloat.neg_infinity); [discriminate |].
    apply Hn.
Qed.

Lemma without_proto_array (l : list value) :
  without_proto (VArray l) <-> Forall without_proto l.
Proof.
  cbn [without_proto]. induction l as [| x r IH]; split; intros H.
  - constructor.
  - exact I.
  - destruct H as [Hx Hr]. constructor; [exact Hx | apply IH, Hr].
  - inversion H as [| ? ? Hx Hr]; subst. split; [exact Hx | apply IH, Hr].
Qed.

(** Elements after the first are announced by a comma. *)
Lemma join_comma (f : value -> outcome string) (l : list value) (s : string) :
  l <> [] -> join f l "," = Ok s -> has_comma s = true.
Proof.
  destruct l as [| e r]; [contradiction |]. intros _. cbn [join].
  destruct (match e with VUndefined | VNull => Ok ""%string | _ => f e end)
    as [x | | | | |]; try discriminate.
  cbn [obind]. destruct (join f r ",") as [y | | | | |]; try discriminate.
  cbn [obind]. intros H. injection H as <-. reflexivity.
Qed.

(** No value without [__proto__] has it as its string. *)
Lemma ToString_not_proto (host : Host) (v : value) :
  names_no_proto host -> without_proto v ->
  ToString host v <> Ok "__proto__"%string.
Proof.
  intros Hhost. pose proof Hhost as [Hobj Hnum].
  assert (Hh : forall w, match Object_toString host w with
                         | Some x => Ok x
                         | None => cannot_convert
                         end <> Ok "__proto__"%string).
  { intros w. destruct (Object_toString host w) as [x |] eqn:E; [| discriminate].
    intros H. injection H as ->. exact (Hobj w E). }
  induction v as [v Hv | l Hl] using value_elements_ind.
  - destruct v as [| | b | n | s | | l | c props | o | o | t | src | n];
      cbn [ToString without_proto]; intros Hw;
      try discriminate; try apply Hh.
    + destruct b; discriminate.
    + intros H. injection H as H. exact (Number_toString_not_proto host n Hhost H).
    + intros H. injection H as H. exact (Hw H).
    + exfalso. apply (Hv l). reflexivity.
    + destruct c; try apply Hh.
      destruct (own_conversion props); [apply Hh |].
      destruct (get_prop props "toString"); discriminate.
    + intros H. injection H as H. exact (Hw H).
  - intros Hw. apply without_proto_array in Hw. cbn [ToString].
    destruct l as [| e r]; [discriminate |].
    inversion Hl as [| ? ? He Hr]; subst.
    inversion Hw as [| ? ? Hwe Hwr]; subst.
    cbn [join].
    destruct (match e with
              | VUndefined | VNull => Ok ""%string
              | _ => ToString host e
              end) as [x | | | | |] eqn:Ex; try discriminate.
    cbn [obind].
    destruct (join (ToString host) r ",") as [y | | | | |] eqn:Ey; try discriminate.
    cbn [obind]. intros H. injection H as H.
    change ("" ++ x ++ y)%string with (x ++ y)%string in H.
    destruct r as [| e2 r].
    + cbn in Ey. injection Ey as <-. rewrite append_empty in H. subst x.
      destruct e; try discriminate Ex; exact (He Hwe Ex).
    + assert (Hc : has_comma y = true)
        by (apply (join_comma (ToString host) (e2 :: r)); [discriminate | exact Ey]).
      assert (Hc' : has_comma (x ++ y) = true)
        by (rewrite has_comma_app, Hc; apply orb_true_r).
      rewrite H in Hc'. discriminate Hc'.
Qed.

(** Where the octets are not those of one ASCII character, the decoding
    starts with an octet that is none. *)
Lemma utf8_decode_head (a : Z) (r : list Z) :
  (0 <=? a) && (a <=? 0x7f) = false ->
  exists h t, utf8_decode (a :: r) = h :: t /\ 0x80 <= h <= 0xff.
Proof.
  intros Ha. cbn [utf8_decode]. cbv zeta. rewrite Ha.
  repeat match goal with
         | |- context [if ?c then _ else _] => destruct c eqn:?
         | |- context [match ?l with [] => _ | _ :: _ => _ end] => destruct l
         end;
    cbn [replacement app]; eexists; eexists; (split; [reflexivity | lia]).
Qed.

(** A text of ASCII characters is the decoding of its own octets
    only. *)
Lemma utf8_decode_ascii (l : list Z) (t : string) :
  string_of_octets (utf8_decode l) = t ->
  Forall (fun c => (N_of_ascii c < 128)%N) (list_ascii_of_string t) ->
  l = octets_of_string t.
Proof.
  revert t. induction l as [| a r IH]; intros t Ht Hascii.
  - cbn in Ht. subst t. reflexivity.
  - destruct ((0 <=? a) && (a <=? 0x7f)) eqn:Ha.
    + assert (Hd : utf8_decode (a :: r) = a :: utf8_decode r).
      { cbn [utf8_decode]. cbv zeta. rewrite Ha. reflexivity. }
      rewrite Hd in Ht. unfold string_of_octets in Ht.
      cbn [map string_of_list_ascii] in Ht. subst t.
      cbn [list_ascii_of_string] in Hascii.
      inversion Hascii as [| ? ? _ Hrest]; subst.
      unfold octets_of_string. cbn [list_ascii_of_string map].
      rewrite Z.mod_small by lia.
      rewrite N_ascii_embedding by lia. rewrite Z2N.id by lia.
      f_equal. apply IH; [reflexivity | exact Hrest].
    + destruct (utf8_decode_head a r Ha) as (h & tl & Hd & Hh).
      rewrite Hd in Ht. unfold string_of_octets in Ht.
      cbn [map string_of_list_ascii] in Ht. subst t.
      cbn [list_ascii_of_string] in Hascii.
      inversion Hascii as [| ? ? Hc _]; subst.
      rewrite Z.mod_small in Hc by lia.
      rewrite N_ascii_embedding in Hc by lia. lia.
Qed.

Lemma Buffer_toString_proto (buf : list Z) :
  Buffer_toString buf = "__proto__"%string ->
  buf = octets_of_string "__proto__".
Proof.
  intros H. apply utf8_decode_ascii; [exact H |].
  repeat constructor.
Qed.

Lemma holds_suffix (pat before bs : list Z) :
  holds pat bs -> holds pat (before ++ bs).
Proof.
  intros (a & b & ->). exists (before ++ a), b. rewrite <- app_assoc. reflexivity.
Qed.

Lemma holds_prefix (pat bs after : list Z) :
  holds pat bs -> holds pat (bs ++ after).
Proof.
  intros (a & b & ->). exists a, (b ++ after). rewrite <- !app_assoc. reflexivity.
Qed.

Lemma wait_split (n : Z) (bs buf bs1 : list Z) :
  BufferStream.wait n bs = Some (buf, bs1) -> bs = buf ++ bs1.
Proof.
  unfold BufferStream.wait.
  destruct ((0 <=? n) && (n <=? BufferStream.length bs)); [| discriminate].
  intros H. injection H as <- <-. symmetry. apply firstn_skipn.
Qed.

Lemma Unallocated_modelled (host : Host) (x : value) :
  Unallocated host x <> NotModelled /\
  forall v, Unallocated host x = Ok v -> without_proto v.
Proof.
  unfold Unallocated.
  destruct x; try (split; [discriminate | intros v H; discriminate H]).
  match goal with |- context [if ?c then _ else _] => destruct c end;
    (split; [discriminate | intros v H; try discriminate H]).
  injection H as <-. exact I.
Qed.

Lemma _unpackSmallNumber_modelled (host : Host) (ai : Z) (buf : option (list Z)) :
  _unpackSmallNumber host ai buf <> NotModelled /\
  forall v tg, _unpackSmallNumber host ai buf = Ok (v, tg) -> without_proto v.
Proof.
  assert (HU : forall x,
            obind (Unallocated host x) (fun v => Ok (v, @None Z)) <> NotModelled /\
            forall v tg, obind (Unallocated host x) (fun v => Ok (v, @None Z))
                         = Ok (v, tg) -> without_proto v).
  { intros x. destruct (Unallocated_modelled host x) as [H1 H2].
    destruct (Unallocated host x) as [u | | | | |]; cbn [obind];
      (split; [congruence | intros v tg H; try discriminate H]).
    injection H as <- _. apply H2. reflexivity. }
  unfold _unpackSmallNumber, readUIntBE. cbv zeta.
  repeat match goal with
         | |- context [if ?c then _ else _] => destruct c
         | |- context [match ?b with Some _ => _ | None => _ end] => destruct b
         end;
    try apply HU;
    cbn [obind];
    (split; [discriminate | intros v tg H; try discriminate H]);
    injection H as <- _; exact I.
Qed.

Section Modelled.

Variable host : Host.
Variable parser : Parser.

Hypothesis host_names_no_proto : names_no_proto host.

(** The decoders of the registry, which are the caller's, are taken to
    be modelled, and to make no text [__proto__]. *)
Hypothesis decoders_modelled :
  forall tag fn obj,
    semanticTags parser !! tag = Some fn ->
    fn tag obj <> NotModelled /\
    forall v tg, fn tag obj = Ok (v, tg) -> without_proto v.

Lemma within_model_bind (bs : list Z) (o : outcome parsed)
      (k : parsed -> outcome parsed) :
  within_model bs o ->
  (forall v tg bs', o = Ok ((v, tg), bs') -> without_proto v ->
     ~ holds proto_octets bs -> ~ holds proto_octets bs' /\ within_model bs' (k ((v, tg), bs'))) ->
  ~ holds proto_octets bs ->
  within_model bs (obind o k).
Proof.
  intros [Hn Hok] Hk Hbs.
  destruct o as [[[v tg] bs'] | | | | |]; cbn [obind];
    try (split; [congruence | intros v' tg' b' H; discriminate H]).
  destruct (Hok v tg bs' eq_refl) as [Hv [read Hread]].
  destruct (Hk v tg bs' eq_refl Hv Hbs) as [_ [Hn' Hok']].
  split; [exact Hn' |].
  intros v' tg' b' H. destruct (Hok' v' tg' b' H) as [Hv' [read' ->]].
  split; [exact Hv' |]. exists (read ++ read'). rewrite Hread, <- app_assoc.
  reflexivity.
Qed.

Lemma not_holds_rest (bs read bs' : list Z) :
  bs = read ++ bs' -> ~ holds proto_octets bs -> ~ holds proto_octets bs'.
Proof. intros -> H Hh. apply H. apply holds_suffix, Hh. Qed.

Lemma not_holds_read (bs read bs' : list Z) :
  bs = read ++ bs' -> ~ holds proto_octets bs -> ~ holds proto_octets read.
Proof. intros -> H Hh. apply H. apply holds_prefix, Hh. Qed.

Lemma read_without_proto (buf : list Z) :
  ~ holds proto_octets buf -> Buffer_toString buf <> "__proto__"%string.
Proof.
  intros H E. apply Buffer_toString_proto in E. apply H.
  exists [], []. rewrite app_nil_r. exact E.
Qed.

Lemma descent_modelled (f : nat) :
  (forall bs t, ~ holds proto_octets bs ->
     within_model bs (_unpack host parser f bs t)) /\
  (forall mt num bs t, ~ holds proto_octets bs ->
     within_model bs (_getVal host parser f mt num bs t)) /\
  (forall tag bs, ~ holds proto_octets bs ->
     within_model bs (_unpackSemanticTag host parser f tag bs)) /\
  (forall bs left res, ~ holds proto_octets bs -> Forall without_proto res ->
     within_model bs (_unpackArray host parser f bs left res)) /\
  (forall bs left res, ~ holds proto_octets bs ->
     within_model bs (_unpackMap host parser f bs left res)).
Proof.
  assert (Hsilent : forall bs (o : outcome parsed),
            o <> NotModelled -> (forall p, o <> Ok p) -> within_model bs o).
  { intros bs o Hn Hk. split; [exact Hn |]. intros v tg bs' H.
    destruct (Hk _ H). }
  assert (Hret : forall bs v tg read bs',
            bs = read ++ bs' -> without_proto v ->
            within_model bs (Ok ((v, tg), bs'))).
  { intros bs v tg read bs' Hr Hv. split; [discriminate |].
    intros v' tg' b' H. injection H as <- _ <-.
    split; [exact Hv | exists read; exact Hr]. }
  assert (Hmore : forall bs read bs' o,
            bs = read ++ bs' -> within_model bs' o -> within_model bs o).
  { intros bs read bs' o Hr [Hn Hok]. split; [exact Hn |].
    intros v tg b' H. destruct (Hok v tg b' H) as [Hv [read' ->]].
    split; [exact Hv |]. exists (read ++ read'). rewrite Hr, <- app_assoc.
    reflexivity. }
  induction f as [| f (IHu & IHg & IHt & IHa & IHm)].
  { repeat split; intros; discriminate. }
  split; [| split; [| split; [| split]]].
  - intros bs t Hbs. rewrite _unpack_eq.
    destruct (BufferStream.wait 1 bs) as [[buf bs1] |] eqn:Hw;
      [| apply Hsilent; discriminate].
    apply wait_split in Hw. cbv zeta.
    pose proof (not_holds_rest _ _ _ Hw Hbs) as Hbs1.
    destruct (0 <=? js_and (octet_at buf 0) 31 - 28);
      [| apply (Hmore _ _ _ _ Hw), IHg, Hbs1].
    destruct (BufferStream.wait _ bs1) as [[buf2 bs2] |] eqn:Hw2;
      [| apply Hsilent; discriminate].
    apply wait_split in Hw2.
    pose proof (not_holds_rest _ _ _ Hw2 Hbs1) as Hbs2.
    apply (Hmore _ _ _ _ Hw). apply (Hmore _ _ _ _ Hw2).
    destruct (js_shr (octet_at buf 0) 5 =? 6).
    + destruct (_unpackSmallNumber_modelled host (js_and (octet_at buf 0) 31)
                  (Some buf2)) as [Hn Hv].
      destruct (_unpackSmallNumber host _ _) as [[v tg] | | | | |]; cbn [obind];
        try (apply Hsilent; [congruence | discriminate]).
      apply (Hret _ _ _ []); [reflexivity |]. apply (Hv v tg). reflexivity.
    + destruct (_unpackInt _ buf2) as [num | | | | |] eqn:Hi; cbn [obind];
        try (apply Hsilent; discriminate).
      * apply IHg, Hbs2.
      * unfold _unpackInt, readUIntBE in Hi.
        repeat match type of Hi with
               | context [if ?c then _ else _] => destruct c
               end; cbn [obind] in Hi; discriminate Hi.
  - intros mt num bs t Hbs. rewrite _getVal_eq.
    destruct (mt =? 0); [apply (Hret _ _ _ []); [reflexivity | exact I] |].
    destruct (mt =? 1); [apply (Hret _ _ _ []); [reflexivity | exact I] |].
    destruct (mt =? 2).
    { destruct (BufferStream.wait num bs) as [[buf bs1] |] eqn:Hw;
        [| apply Hsilent; discriminate].
      apply wait_split in Hw.
      apply (Hret _ _ _ buf); [exact Hw |].
      apply read_without_proto, (not_holds_read _ _ _ Hw Hbs). }
    destruct (mt =? 3).
    { destruct (BufferStream.wait num bs) as [[buf bs1] |] eqn:Hw;
        [| apply Hsilent; discriminate].
      apply wait_split in Hw.
      apply (Hret _ _ _ buf); [exact Hw |].
      apply read_without_proto, (not_holds_read _ _ _ Hw Hbs). }
    destruct (mt =? 4); [apply IHa; [exact Hbs | constructor] |].
    destruct (mt =? 5); [apply IHm, Hbs |].
    destruct (mt =? 6).
    { destruct (_unpackSmallNumber_modelled host num None) as [Hn Hv].
      destruct (_unpackSmallNumber host num None) as [[v tg] | | | | |];
        cbn [obind]; try (apply Hsilent; [congruence | discriminate]).
      apply (Hret _ _ _ []); [reflexivity |]. apply (Hv v tg). reflexivity. }
    destruct (mt =? 7); [| apply Hsilent; discriminate].
    destruct t; [apply Hsilent; discriminate | apply IHt, Hbs].
  - intros tag bs Hbs. rewrite _unpackSemanticTag_eq.
    apply within_model_bind; [apply IHu, Hbs | | exact Hbs].
    intros v tg bs' Hu Hv _.
    destruct (proj2 (IHu bs true Hbs) v tg bs' Hu) as [_ [read Hread]].
    pose proof (not_holds_rest _ _ _ Hread Hbs) as Hbs'.
    split; [exact Hbs' |].
    destruct (semanticTags parser !! tag) as [fn |] eqn:Hfn;
      [| apply (Hret _ _ _ []); [reflexivity | exact Hv]].
    destruct (decoders_modelled tag fn v Hfn) as [Hn Hd].
    destruct (fn tag v) as [[d td] | | | | |]; cbn [obind];
      try (apply Hsilent; [congruence | discriminate]).
    apply (Hret _ _ _ []); [reflexivity |]. apply (Hd d td). reflexivity.
  - intros bs left res Hbs Hres. rewrite _unpackArray_eq.
    destruct (left =? 0).
    { apply (Hret _ _ _ []); [reflexivity |].
      apply without_proto_array, Hres. }
    apply within_model_bind; [apply IHu, Hbs | | exact Hbs].
    intros v tg bs' Hu Hv _.
    destruct (proj2 (IHu bs false Hbs) v tg bs' Hu) as [_ [read Hread]].
    pose proof (not_holds_rest _ _ _ Hread Hbs) as Hbs'.
    split; [exact Hbs' |]. apply IHa; [exact Hbs' |].
    apply Forall_app. split; [exact Hres | constructor; [exact Hv | constructor]].
  - intros bs left res Hbs. rewrite _unpackMap_eq.
    destruct (left =? 0); [apply (Hret _ _ _ []); [reflexivity | exact I] |].
    apply within_model_bind; [apply IHu, Hbs | | exact Hbs].
    intros key tk bs1 Hu Hkey _.
    destruct (proj2 (IHu bs false Hbs) key tk bs1 Hu) as [_ [read Hread]].
    pose proof (not_holds_rest _ _ _ Hread Hbs) as Hbs1.
    split; [exact Hbs1 |].
    apply within_model_bind; [apply IHu, Hbs1 | | exact Hbs1].
    intros val tv bs2 Hu2 Hval _.
    destruct (proj2 (IHu bs1 false Hbs1) val tv bs2 Hu2) as [_ [read2 Hread2]].
    pose proof (not_holds_rest _ _ _ Hread2 Hbs1) as Hbs2.
    split; [exact Hbs2 |].
    pose proof (ToString_not_proto host key host_names_no_proto Hkey) as Hname.
    destruct (ToString_cases host key) as [[name Hs] | Hs]; rewrite Hs;
      [| apply Hsilent; discriminate].
    cbn [obind]. unfold Object_put.
    destruct (String.eqb_spec name "__proto__") as [-> | _];
      [contradiction (Hname Hs) |].
    cbn [obind]. apply IHm, Hbs2.
Qed.

End Modelled.

Lemma default_decoders_modelled (host : Host) tag fn obj :
  semanticTags (new_Parser host []) !! tag = Some fn ->
  fn tag obj <> NotModelled /\
  forall v tg, fn tag obj = Ok (v, tg) -> without_proto v.
Proof.
  cbn [new_Parser fold_left semanticTags]. unfold default_semanticTags.
  intros H.
  apply lookup_insert_Some in H. destruct H as [[_ <-] | [_ H]].
  { unfold _unpackDate.
    destruct obj; (split; [discriminate | intros v tg Hv; try discriminate Hv]);
      injection Hv as <- _; exact I. }
  apply lookup_insert_Some in H. destruct H as [[_ <-] | [_ H]].
  { unfold _unpackUri.
    destruct obj; try (split; [discriminate | intros v tg Hv; discriminate Hv]).
    destruct (url_parse host s);
      (split; [discriminate | intros v tg Hv; try discriminate Hv]).
    injection Hv as <- _. exact I. }
  apply lookup_insert_Some in H. destruct H as [[_ <-] | [_ H]].
  { unfold _unpackRegex.
    destruct obj; try (split; [discriminate | intros v tg Hv; discriminate Hv]).
    destruct (RegExp_compile host s);
      (split; [discriminate | intros v tg Hv; try discriminate Hv]).
    injection Hv as <- _. exact I. }
  rewrite lookup_empty in H. discriminate H.
Qed.

(** X19.  The end of the descent.  Every item that is read takes at least one
    byte from the stream; so the calls of the parsing functions on a
    buffer of [n] bytes nest no deeper than [4 * n + 4], and the descent
    of [unpack] ends on every input.  On an input in which the nine
    octets of the text [__proto__] do not stand, [unpack] calls back,
    with an item or with an error, throws, or waits for bytes: the
    model follows the program to its outcome (on a platform that gives no
    object and no number that string).  The model stops only where a map
    gives the key [__proto__] an object, an array or [null]. *)
Theorem unpack_reaches_an_outcome (host : Host) (parser : Parser)
        (input : list Z) :
  (forall f bs tagged d bs',
     _unpack host parser f bs tagged = Ok (d, bs') ->
     (List.length bs' < List.length bs)%nat) /\
  (forall f tagged,
     (4 * List.length input + 4 <= f)%nat ->
     _unpack host (new_Parser host []) f input tagged <> OutOfFuel) /\
  unpack host input <> OutOfFuel /\
  (names_no_proto host ->
   ~ holds (octets_of_string "__proto__") input ->
   program_outcome (unpack host input)).
Proof.
  split; [| split; [| split]].
  - intros f. exact (proj1 (descent_consumes host parser f)).
  - intros f tagged Hf.
    apply (descent_enough_fuel host (new_Parser host [])
             (default_decoders_settled host)
             (List.length input) input (Nat.le_refl _)).
    lia.
  - apply (_unpack_enough_fuel host (new_Parser host [])
             (default_decoders_settled host)).
  - intros Hhost Hin.
    destruct (proj1 (descent_modelled host (new_Parser host []) Hhost
                       (default_decoders_modelled host) (unpack_fuel input))
                    input false Hin) as [Hn _].
    assert (Hs : settled (_unpack host (new_Parser host []) (unpack_fuel input)
                                  input false)).
    { apply (descent_enough_fuel host (new_Parser host [])
               (default_decoders_settled host)
               (List.length input) input (Nat.le_refl _)).
      unfold unpack_fuel. lia. }
    unfold unpack, Parser_unpack. cbn [Z.eqb]. unfold settled in Hs.
    destruct (_unpack host (new_Parser host []) (unpack_fuel input) input false)
      as [[d r] | | | | |]; cbn [obind program_outcome];
      try exact I; [contradiction Hn | contradiction Hs]; reflexivity.
Qed.

Lemma unpack_reaches_an_outcome_witness :
  (forall d bs',
     _unpack plain_host (new_Parser plain_host []) 2 [0x05; 0x06] false = Ok (d, bs') ->
     (List.length bs' < List.length [0x05; 0x06])%nat) /\
  unpack plain_host [0x9f] <> OutOfFuel /\
  program_outcome (unpack plain_host [0xa1; 0x61; 0x5f; 0x80]).
Proof.
  destruct (unpack_reaches_an_outcome plain_host (new_Parser plain_host []) [0x9f])
    as (H1 & _ & H3 & _).
  destruct (unpack_reaches_an_outcome plain_host (new_Parser plain_host [])
              [0xa1; 0x61; 0x5f; 0x80])
    as (_ & _ & _ & H4).
  split; [apply H1 |]. split; [exact H3 |].
  apply H4.
  - split; intros; discriminate.
  - intros (before & after & E). apply (f_equal (@List.length Z)) in E.
    rewrite !length_app in E. cbn [List.length octets_of_string list_ascii_of_string map] in E.
    lia.
Defined.

(** Where the model stops: a map that gives the key [__proto__] an
    object.  With a primitive value the assignment is ignored. *)
Example prototype_replacement_is_not_modelled :
  unpack plain_host [0xa1; 0x69; 0x5f; 0x5f; 0x70; 0x72; 0x6f; 0x74; 0x6f;
                     0x5f; 0x5f; 0xa0] = NotModelled /\
  holds (octets_of_string "__proto__")
        [0xa1; 0x69; 0x5f; 0x5f; 0x70; 0x72; 0x6f; 0x74; 0x6f; 0x5f; 0x5f; 0xa0].
Proof.
  split; [vm_compute; reflexivity |].
  exists [0xa1; 0x69], [0xa0]. reflexivity.
Qed.

(* ================================================================== *)
(** * Numbers *)
(* ================================================================== *)

Lemma ToInt32_range (n : number) : - 2^31 <= ToInt32 n < 2^31.
Proof.
  unfold ToInt32. destruct (norm n) as [z | | f].
  - apply to_int32_range.
  - lia.
  - destruct (Prim2SF f); try lia; apply to_int32_range.
Qed.

(** X20.  Numbers are always written.  Whatever the number, [pack] returns.
    An integer from [-2^31] to [2^31 - 1] is written as the head of a
    major type 0 integer, or of a major type 1 integer when it is
    negative; [-0] is written as the integer 0; every other number, a
    larger integer, a fraction, [NaN], an infinity, is written as the byte
    [0xdf] and the eight bytes of the double.  The assertion "Integer
    out of range" is not reached. *)
Theorem numbers_are_always_written (fuel : nat) (n : number) :
  pack (S fuel) (VNumber n) =
  Ok (match norm n with
      | Int z =>
          if (- 2^31 <=? z) && (z <? 2^31)
          then (if 0 <=? z then framed 0 z else framed 1 (- z - 1))
          else 0xdf :: BufferStream.be_bytes 8 (bits_of_float (to_float n))
      | NegZero => [0x00]
      | Frac _ => 0xdf :: BufferStream.be_bytes 8 (bits_of_float (to_float n))
      end).
Proof.
  rewrite pack_number. rewrite _packNumber_writes. reflexivity.
Qed.

Lemma be_value_cons (x : Z) (l : list Z) :
  be_value (x :: l) = x * 256 ^ Z.of_nat (List.length l) + be_value l.
Proof.
  change (x :: l) with ([x] ++ l). rewrite be_value_app.
  change (be_value [x]) with (0 * 256 + x). lia.
Qed.

(** The big-endian value of the octets of [v] is [v], as far as they
    hold it. *)
Lemma be_value_be_bytes (w : nat) (v : Z) :
  be_value (BufferStream.be_bytes w v) = v mod 256 ^ Z.of_nat w.
Proof.
  unfold BufferStream.be_bytes. induction w as [| w IH].
  - cbn. rewrite Z.mod_1_r. reflexivity.
  - rewrite seq_S, rev_app_distr. cbn [rev app map Nat.add].
    rewrite be_value_cons, IH, length_map, length_rev, length_seq.
    rewrite Nat2Z.inj_succ, Z.pow_succ_r by lia.
    replace (2 ^ (8 * Z.of_nat w)) with (256 ^ Z.of_nat w)
      by (change 256 with (2^8); rewrite <- Z.pow_mul_r by lia; reflexivity).
    assert (0 < 256 ^ Z.of_nat w) by (apply Z.pow_pos_nonneg; lia).
    rewrite (Z.mul_comm 256), Z.rem_mul_r by lia. lia.
Qed.

Section Floats.

Variable host : Host.
Variable parser : Parser.

(** The eight bytes after [0xdf] are a double. *)
Lemma _unpack_double (f : nat) (w8 rest : list Z) (t : bool) :
  List.length w8 = 8%nat ->
  _unpack host parser (S f) (0xdf :: w8 ++ rest) t =
  Ok ((VNumber (number_of_float (float_of_bits (be_value w8))), None), rest).
Proof.
  intros Hl. rewrite _unpack_eq, wait_1. cbv zeta.
  change (js_shl 1 (js_and (octet_at [223] 0) 31 - 28))
    with (Z.of_nat 8).
  rewrite <- Hl, wait_app.
  change (js_shr (octet_at [223] 0) 5 =? 6) with true.
  change (0 <=? js_and (octet_at [223] 0) 31 - 28) with true. cbv iota.
  unfold _unpackSmallNumber.
  change (js_and (octet_at [223] 0) 31) with 31.
  cbn [Z.leb Z.compare Pos.compare Pos.compare_cont Z.eqb Pos.eqb].
  unfold readUIntBE. rewrite Hl. cbn [Nat.add Nat.leb obind].
  assert (Hsk : skipn 0 w8 = w8) by reflexivity.
  rewrite Hsk, take_ge by lia. reflexivity.
Qed.

End Floats.

(* ================================================================== *)
(** * Doubles and their 64 bits *)
(* ================================================================== *)

Lemma digits2_pos_bound (m : positive) : Zpos m < 2 ^ Zpos (digits2_pos m).
Proof.
  induction m as [m IH | m IH |]; cbn [digits2_pos];
    rewrite ?Pos2Z.inj_succ, ?Z.pow_succ_r by lia; lia.
Qed.

Lemma digits2_pos_low (m : positive) : 2 ^ (Zpos (digits2_pos m) - 1) <= Zpos m.
Proof.
  induction m as [m IH | m IH |]; cbn [digits2_pos]; [| | cbn; lia];
    rewrite Pos2Z.inj_succ;
    replace (Z.succ (Zpos (digits2_pos m)) - 1)
      with (Z.succ (Zpos (digits2_pos m) - 1)) by lia;
    rewrite Z.pow_succ_r by lia; lia.
Qed.

Lemma iter_pos_iter {A : Type} (f : A -> A) (k : positive) (x : A) :
  SpecFloat.iter_pos f k x = Pos.iter f x k.
Proof.
  revert x. induction k as [k IH | k IH |]; intros x; cbn [SpecFloat.iter_pos Pos.iter].
  - rewrite !IH. rewrite <- !Pos.iter_swap. reflexivity.
  - rewrite !IH. reflexivity.
  - reflexivity.
Qed.

Lemma digits2_pos_shift (m k : positive) :
  digits2_pos (Pos.iter xO m k) = (digits2_pos m + k)%positive.
Proof.
  induction k as [| k IH] using Pos.peano_ind.
  - cbn. lia.
  - rewrite Pos.iter_succ. cbn [digits2_pos]. rewrite IH. lia.
Qed.

(** Shifting to the right what was shifted to the left loses nothing. *)
Lemma shr_shift (m k : positive) :
  SpecFloat.iter_pos shr_1 k {| shr_m := Zpos (Pos.iter xO m k); shr_r := false; shr_s := false |}
  = {| shr_m := Zpos m; shr_r := false; shr_s := false |}.
Proof.
  rewrite iter_pos_iter.
  induction k as [| k IH] using Pos.peano_ind.
  - reflexivity.
  - rewrite Pos.iter_succ_r. rewrite Pos.iter_succ. cbn [shr_1 orb]. exact IH.
Qed.

(** A mantissa that has its exponent is rounded to itself. *)
Lemma binary_round_aux_bounded (sx : bool) (m : positive) (e : Z) :
  bounded prec emax m e = true ->
  binary_round_aux prec emax sx (Zpos m) e loc_Exact = S754_finite sx m e.
Proof.
  unfold bounded, canonical_mantissa. intros H.
  apply andb_true_iff in H. destruct H as [Hc He]. apply Z.eqb_eq in Hc.
  unfold binary_round_aux, shr_fexp. cbn [Zdigits2 shr_record_of_loc].
  rewrite Hc, Z.sub_diag. cbn [shr shr_m loc_of_shr_record round_nearest_even].
  cbn [Zdigits2 shr_record_of_loc]. rewrite Hc, Z.sub_diag. cbn [shr shr_m].
  rewrite He. reflexivity.
Qed.

Lemma fexp_eq (x : Z) : fexp prec emax x = Z.max (x - 53) (-1074).
Proof. reflexivity. Qed.

Lemma bounded_eq (m : positive) (e : Z) :
  bounded prec emax m e = true <->
  Z.max (Zpos (digits2_pos m) + e - 53) (-1074) = e /\ e <= 971.
Proof.
  unfold bounded, canonical_mantissa. rewrite fexp_eq, andb_true_iff.
  rewrite Z.eqb_eq, Z.leb_le. reflexivity.
Qed.

(** The double of the mantissa [m] and of the exponent [e], as
    [float_of_bits] builds it. *)
Lemma ldexp_of_mantissa (m : positive) (e : Z) :
  bounded prec emax m e = true ->
  Prim2SF (Z.ldexp (of_uint63 (of_Z (Zpos m))) e) = S754_finite false m e.
Proof.
  intros Hb. pose proof (proj1 (bounded_eq m e) Hb) as [Hc He].
  pose proof (digits2_pos_bound m) as Hd.
  set (d := digits2_pos m) in *.
  assert (Hd53 : Zpos d <= 53) by lia.
  assert (Hm : Zpos m < 2^53).
  { eapply Z.lt_le_trans; [exact Hd |]. apply Z.pow_le_mono_r; lia. }
  rewrite Z_ldexp_spec, of_uint63_spec, of_Z_spec.
  rewrite Z.mod_small by (change wB with (2^63); lia).
  cbn [binary_normalize]. unfold binary_round. fold d.
  rewrite !fexp_eq. rewrite Z.add_0_r. rewrite Z.max_l by lia.
  unfold shl_align. rewrite Z.sub_0_r.
  destruct (Zpos d - 53) as [| p | k] eqn:Ek; [| lia |].
  - assert (Hbz : bounded prec emax m 0 = true).
    { apply bounded_eq. fold d. lia. }
    rewrite (binary_round_aux_bounded false m 0 Hbz).
    cbn [SFldexp]. rewrite Z.add_0_l. unfold binary_round. fold d.
    rewrite fexp_eq, Hc. unfold shl_align. rewrite Z.sub_diag.
    apply binary_round_aux_bounded, Hb.
  - assert (Hk : Zpos k = 53 - Zpos d) by lia.
    assert (Hbz : bounded prec emax (Pos.iter xO m k) (Zneg k) = true).
    { apply bounded_eq. rewrite digits2_pos_shift. fold d. lia. }
    rewrite (binary_round_aux_bounded false _ _ Hbz).
    cbn [SFldexp]. unfold binary_round. rewrite digits2_pos_shift. fold d.
    rewrite fexp_eq.
    replace (Zpos (d + k) + (Zneg k + e) - 53) with (Zpos d + e - 53) by lia.
    rewrite Hc. unfold shl_align.
    replace (e - (Zneg k + e)) with (Zpos k) by lia.
    unfold binary_round_aux, shr_fexp. cbn [Zdigits2 shr_record_of_loc].
    rewrite digits2_pos_shift. fold d. rewrite fexp_eq.
    replace (Zpos (d + k) + (Zneg k + e) - 53) with (Zpos d + e - 53) by lia.
    rewrite Hc.
    replace (e - (Zneg k + e)) with (Zpos k) by lia.
    cbn [shr]. rewrite shr_shift.
    cbn [shr_m loc_of_shr_record round_nearest_even Zdigits2 shr_record_of_loc].
    fold d. replace (Zneg k + e + Zpos k) with e by lia.
    rewrite fexp_eq, Hc, Z.sub_diag. cbn [shr shr_m].
    change (emax - prec) with 971.
    destruct (Z.leb_spec e 971); [reflexivity | lia].
Qed.

(** A double is read back from its 64 bits. *)
Lemma float_of_bits_of_float (f : float) :
  float_of_bits (bits_of_float f) = f.
Proof.
  apply Prim2SF_inj.
  pose proof (Prim2SF_valid f) as Hv. unfold bits_of_float.
  destruct (Prim2SF f) as [s | s | | s m e] eqn:Hf.
  - destruct s; reflexivity.
  - destruct s; reflexivity.
  - reflexivity.
  - cbn [SpecFloat.valid_binary] in Hv.
    pose proof (proj1 (bounded_eq m e) Hv) as [Hc He].
    pose proof (digits2_pos_bound m) as Hd.
    pose proof (digits2_pos_low m) as Hl.
    set (d := digits2_pos m) in *.
    assert (Hd53 : Zpos d <= 53) by lia.
    assert (Hm : Zpos m < 2^53).
    { eapply Z.lt_le_trans; [exact Hd |]. apply Z.pow_le_mono_r; lia. }
    set (B := if Zpos m <? 2^52 then Zpos m
              else (e + 1075) * 2^52 + (Zpos m - 2^52)).
    assert (Hfields : 0 <= B < 2^63 /\
              (B / 2^52) mod 2^11 = (if Zpos m <? 2^52 then 0 else e + 1075) /\
              B mod 2^52 = (if Zpos m <? 2^52 then Zpos m else Zpos m - 2^52) /\
              (if Zpos m <? 2^52 then e = -1074 else 1 <= e + 1075 <= 2046)).
    { unfold B. destruct (Z.ltb_spec (Zpos m) (2^52)) as [Hsub | Hnor].
      - assert (Zpos d <= 52).
        { destruct (Z.le_gt_cases (Zpos d) 52) as [|Hgt]; [assumption |].
          assert (2^52 <= 2^(Zpos d - 1)) by (apply Z.pow_le_mono_r; lia). lia. }
        split; [lia |].
        rewrite Z.div_small by lia. rewrite (Z.mod_small (Zpos m)) by lia.
        repeat split; try reflexivity. lia.
      - assert (Zpos d = 53).
        { destruct (Z.le_gt_cases 53 (Zpos d)) as [|Hlt]; [lia |].
          assert (2^(Zpos d) <= 2^52) by (apply Z.pow_le_mono_r; lia). lia. }
        assert (He' : 1 <= e + 1075 <= 2046) by lia.
        split; [lia |].
        assert (Hdiv : ((e + 1075) * 2^52 + (Zpos m - 2^52)) / 2^52 = e + 1075).
        { rewrite Z.div_add_l by lia.
          rewrite (Z.div_small (Zpos m - 2^52)) by lia. lia. }
        assert (Hmod : ((e + 1075) * 2^52 + (Zpos m - 2^52)) mod 2^52
                       = Zpos m - 2^52).
        { replace ((e + 1075) * 2^52 + (Zpos m - 2^52))
            with ((Zpos m - 2^52) + (e + 1075) * 2^52) by lia.
          rewrite Z.mod_add by lia. apply Z.mod_small. lia. }
        rewrite Hdiv, Hmod. rewrite (Z.mod_small (e + 1075)) by lia.
        repeat split; try reflexivity; lia. }
    destruct Hfields as (HB & Hexp & Hman & Hcase).
    assert (Hsign : Z.testbit ((if s then 2^63 else 0) + B) 63 = s).
    { rewrite Z.testbit_eqb by lia. destruct s.
      - replace (2^63 + B) with (1 * 2^63 + B) by lia.
        rewrite Z.div_add_l by lia. rewrite (Z.div_small B) by lia. reflexivity.
      - rewrite Z.add_0_l, Z.div_small by lia. reflexivity. }
    assert (Hexp' : (((if s then 2^63 else 0) + B) / 2^52) mod 2^11
                    = (if Zpos m <? 2^52 then 0 else e + 1075)).
    { rewrite <- Hexp. destruct s; [| rewrite Z.add_0_l; reflexivity].
      replace (2^63 + B) with (B + 2^11 * 2^52) by lia.
      rewrite Z.div_add by lia.
      rewrite Z.add_mod by lia. rewrite Z.mod_same by lia.
      rewrite Z.add_0_r, Z.mod_mod by lia. reflexivity. }
    assert (Hman' : ((if s then 2^63 else 0) + B) mod 2^52
                    = (if Zpos m <? 2^52 then Zpos m else Zpos m - 2^52)).
    { rewrite <- Hman. destruct s; [| rewrite Z.add_0_l; reflexivity].
      replace (2^63 + B) with (B + 2^11 * 2^52) by lia.
      apply Z.mod_add. lia. }
    fold B. unfold float_of_bits. cbv zeta.
    rewrite Hsign, Hexp', Hman'.
    assert (Hv' : Prim2SF
              (if (if Zpos m <? 2^52 then 0 else e + 1075) =? 0
               then Z.ldexp (of_uint63 (of_Z (if Zpos m <? 2^52 then Zpos m
                                              else Zpos m - 2^52))) (-1074)
               else Z.ldexp (of_uint63 (of_Z ((if Zpos m <? 2^52 then Zpos m
                                               else Zpos m - 2^52) + 2^52)))
                            ((if Zpos m <? 2^52 then 0 else e + 1075) - 1075))
            = S754_finite false m e).
    { destruct (Zpos m <? 2^52).
      - cbn [Z.eqb]. subst e. apply ldexp_of_mantissa, Hv.
      - destruct (Z.eqb_spec (e + 1075) 0); [lia |].
        replace (Zpos m - 2^52 + 2^52) with (Zpos m) by lia.
        replace (e + 1075 - 1075) with e by lia.
        apply ldexp_of_mantissa, Hv. }
    assert (Hne : ((if Zpos m <? 2^52 then 0 else e + 1075) =? 2047) = false).
    { destruct (Zpos m <? 2^52); [reflexivity |]. apply Z.eqb_neq. lia. }
    rewrite Hne. destruct s.
    + rewrite opp_spec, Hv'. reflexivity.
    + exact Hv'.
Qed.

Lemma iter_xO (p k : positive) : Zpos (Pos.iter xO p k) = Zpos p * 2 ^ Zpos k.
Proof.
  induction k as [| k IH] using Pos.peano_ind.
  - cbn [Pos.iter]. lia.
  - rewrite Pos.iter_succ, Pos2Z.inj_xO, IH, Pos2Z.inj_succ, Z.pow_succ_r by lia.
    lia.
Qed.

(** Rounding what is bounded already. *)
Lemma binary_round_bounded (sx : bool) (m : positive) (e : Z) :
  bounded prec emax m e = true ->
  binary_round prec emax sx m e = S754_finite sx m e.
Proof.
  intros Hb. pose proof (proj1 (bounded_eq m e) Hb) as [Hc He].
  unfold binary_round. rewrite fexp_eq, Hc. unfold shl_align.
  rewrite Z.sub_diag. apply binary_round_aux_bounded, Hb.
Qed.

(** The double of an integer below [2^53] is the integer. *)
Lemma number_of_small_integer (p : positive) (s : bool) :
  Zpos p < 2^53 ->
  number_of_float
    (if s then PrimFloat.opp (Z.ldexp (of_uint63 (of_Z (Zpos p))) 0)
     else Z.ldexp (of_uint63 (of_Z (Zpos p))) 0)
  = Int (if s then - Zpos p else Zpos p).
Proof.
  intros Hp.
  pose proof (digits2_pos_bound p) as Hd.
  pose proof (digits2_pos_low p) as Hl.
  set (d := digits2_pos p) in *.
  assert (Hd53 : Zpos d <= 53).
  { destruct (Z.le_gt_cases (Zpos d) 53) as [| Hgt]; [assumption |].
    assert (2^53 <= 2^(Zpos d - 1)) by (apply Z.pow_le_mono_r; lia). lia. }
  assert (Hsf : exists m e,
            Prim2SF (Z.ldexp (of_uint63 (of_Z (Zpos p))) 0) = S754_finite false m e /\
            -52 <= e <= 0 /\ Zpos m = Zpos p * 2^(- e)).
  { rewrite Z_ldexp_spec, of_uint63_spec, of_Z_spec.
    rewrite Z.mod_small by (change wB with (2^63); lia).
    cbn [binary_normalize]. unfold binary_round at 1. fold d.
    rewrite fexp_eq, Z.add_0_r, Z.max_l by lia.
    unfold shl_align. rewrite Z.sub_0_r.
    destruct (Zpos d - 53) as [| q | k] eqn:Ek; [| lia |].
    - assert (Hbz : bounded prec emax p 0 = true).
      { apply bounded_eq. fold d. lia. }
      rewrite (binary_round_aux_bounded false p 0 Hbz). cbn [SFldexp].
      rewrite Z.add_0_l, (binary_round_bounded false p 0 Hbz).
      exists p, 0. split; [reflexivity |]. split; [lia |]. cbn. lia.
    - assert (Hbz : bounded prec emax (Pos.iter xO p k) (Zneg k) = true).
      { apply bounded_eq. rewrite digits2_pos_shift. fold d. lia. }
      rewrite (binary_round_aux_bounded false _ _ Hbz). cbn [SFldexp].
      rewrite Z.add_0_r, (binary_round_bounded false _ _ Hbz).
      exists (Pos.iter xO p k), (Zneg k). split; [reflexivity |].
      split; [lia |]. rewrite iter_xO. reflexivity. }
  destruct Hsf as (m & e & Hsf & He & Hm). cbv zeta.
  assert (Hdiv : Zpos m mod 2^(- e) = 0 /\ Zpos m / 2^(- e) = Zpos p).
  { rewrite Hm. assert (0 < 2^(- e)) by (apply Z.pow_pos_nonneg; lia).
    rewrite Z.mod_mul, Z.div_mul by lia. split; reflexivity. }
  destruct Hdiv as [Hmod Hquo].
  unfold number_of_float. destruct s.
  - rewrite opp_spec, Hsf. cbn [SFopp negb].
    destruct (Z.leb_spec 0 e).
    + assert (e = 0) by lia. subst e.
      assert (Hm' : Zpos m = Zpos p)
        by (rewrite Hm; cbn [Z.opp]; rewrite Z.pow_0_r; lia).
      rewrite Hm', Z.pow_0_r. f_equal; lia.
    + rewrite Hmod, Hquo. cbn [Z.eqb]. f_equal; lia.
  - rewrite Hsf.
    destruct (Z.leb_spec 0 e).
    + assert (e = 0) by lia. subst e.
      assert (Hm' : Zpos m = Zpos p)
        by (rewrite Hm; cbn [Z.opp]; rewrite Z.pow_0_r; lia).
      rewrite Hm', Z.pow_0_r. f_equal; lia.
    + rewrite Hmod, Hquo. cbn [Z.eqb]. f_equal; lia.
Qed.

(** The double of a large integer that a double holds is the integer. *)
Lemma number_of_large_integer (a k : Z) (s : bool) :
  2^53 <= a < 2^1024 -> k = Z.log2 a - 52 -> a mod 2^k = 0 ->
  number_of_float
    (if s then PrimFloat.opp (Z.ldexp (of_uint63 (of_Z (a / 2^k))) k)
     else Z.ldexp (of_uint63 (of_Z (a / 2^k))) k)
  = Int (if s then - a else a).
Proof.
  intros Ha Hk Hmod.
  assert (Hlog : 53 <= Z.log2 a < 1024).
  { split; [apply Z.log2_le_pow2; lia | apply Z.log2_lt_pow2; lia]. }
  assert (Hk1 : 1 <= k <= 971) by lia.
  assert (Hspec : 2 ^ Z.log2 a <= a < 2 ^ Z.succ (Z.log2 a))
    by (apply Z.log2_spec; lia).
  assert (Hk0 : 0 < 2^k) by (apply Z.pow_pos_nonneg; lia).
  assert (Hp1 : 2 ^ Z.log2 a = 2^52 * 2^k).
  { rewrite <- Z.pow_add_r by lia. f_equal; lia. }
  assert (Hp2 : 2 ^ Z.succ (Z.log2 a) = 2^53 * 2^k).
  { rewrite <- Z.pow_add_r by lia. f_equal; lia. }
  assert (Hq : 2^52 <= a / 2^k < 2^53).
  { split; [apply Z.div_le_lower_bound; lia | apply Z.div_lt_upper_bound; lia]. }
  assert (Hexact : a / 2^k * 2^k = a).
  { pose proof (Z.div_mod a (2^k) ltac:(lia)). lia. }
  destruct (a / 2^k) as [| p | p] eqn:Ep; try lia.
  pose proof (digits2_pos_bound p) as Hd.
  pose proof (digits2_pos_low p) as Hl.
  assert (Hd53 : Zpos (digits2_pos p) = 53).
  { destruct (Z.lt_trichotomy (Zpos (digits2_pos p)) 53) as [Hlt | [Heq | Hgt]];
      [| exact Heq |].
    - assert (2^(Zpos (digits2_pos p)) <= 2^52) by (apply Z.pow_le_mono_r; lia). lia.
    - assert (2^53 <= 2^(Zpos (digits2_pos p) - 1)) by (apply Z.pow_le_mono_r; lia).
      lia. }
  assert (Hb : bounded prec emax p k = true).
  { apply bounded_eq. rewrite Hd53. lia. }
  pose proof (ldexp_of_mantissa p k Hb) as Hsf. cbv zeta.
  unfold number_of_float. destruct s.
  - rewrite opp_spec, Hsf. cbn [SFopp negb].
    destruct (Z.leb_spec 0 k); [| lia]. f_equal; lia.
  - rewrite Hsf. destruct (Z.leb_spec 0 k); [| lia]. f_equal; lia.
Qed.

(** An integer that a double holds is read back from the double. *)
Lemma number_of_float_of_Z (z : Z) :
  round53 z = z -> Z.abs z < 2^1024 -> number_of_float (float_of_Z z) = Int z.
Proof.
  intros Hr Hz. unfold float_of_Z.
  destruct (Z.eq_dec z 0) as [-> | Hz0]; [reflexivity |]. cbv zeta.
  destruct (Z.ltb_spec (Z.abs z) (2^53)) as [Hsmall | Hbig].
  - assert (Hlog : Z.log2 (Z.abs z) < 53) by (apply Z.log2_lt_pow2; lia).
    rewrite Z.max_l by lia. change (2^0) with 1. rewrite Z.div_1_r.
    destruct (Z.abs z) as [| p | p] eqn:Ea; try lia.
    rewrite (number_of_small_integer p (z <? 0) Hsmall).
    f_equal. destruct (Z.ltb_spec z 0); lia.
  - assert (Hlog : 53 <= Z.log2 (Z.abs z)) by (apply Z.log2_le_pow2; lia).
    rewrite Z.max_r by lia.
    assert (Hmod : Z.abs z mod 2^(Z.log2 (Z.abs z) - 52) = 0).
    { unfold round53 in Hr. destruct (Z.ltb_spec (Z.abs z) (2^53)); [lia |].
      cbv zeta in Hr. rewrite <- Hr at 1. rewrite Z.abs_mul.
      replace (Z.abs (Z.sgn z)) with 1 by lia. rewrite Z.mul_1_l, Z.abs_mul.
      rewrite (Z.abs_eq (2^_)) by (apply Z.pow_nonneg; lia).
      apply Z.mod_mul. apply Z.pow_nonzero; lia. }
    rewrite (number_of_large_integer (Z.abs z) _ (z <? 0)) by (lia || assumption).
    f_equal. destruct (Z.ltb_spec z 0); lia.
Qed.

(** The bits of a double are 64. *)
Lemma bits_of_float_range (f : float) : 0 <= bits_of_float f < 2^64.
Proof.
  unfold bits_of_float. pose proof (Prim2SF_valid f) as Hv.
  destruct (Prim2SF f) as [s | s | | s m e].
  - destruct s; lia.
  - destruct s; lia.
  - lia.
  - cbn [SpecFloat.valid_binary] in Hv. unfold bounded, canonical_mantissa, fexp in Hv.
    apply andb_true_iff in Hv. destruct Hv as [Hc He].
    apply Z.eqb_eq in Hc. apply Z.leb_le in He.
    change (SpecFloat.emin prec emax) with (-1074) in Hc.
    change prec with 53 in Hc, He. change emax with 1024 in He.
    pose proof (digits2_pos_bound m) as Hd.
    assert (Hm : Zpos m < 2^53).
    { eapply Z.lt_le_trans; [exact Hd |].
      apply Z.pow_le_mono_r; lia. }
    destruct (Z.ltb_spec (Zpos m) (2^52)); destruct s; lia.
Qed.

(** The double of a number is the number. *)
Lemma number_of_to_float (n : number) :
  is_double n -> number_of_float (to_float n) = norm n.
Proof.
  destruct n as [z | | f]; cbn [is_double to_float norm].
  - intros [Hr Hz]. apply number_of_float_of_Z; assumption.
  - intros _. reflexivity.
  - intros _. reflexivity.
Qed.

(** X21.  Numbers survive.  [unpack] reads what [pack] writes for a number
    as the same number, whatever follows it, [-0] apart, which is read as
    0: its sign is lost, because it is written as the integer 0.  A number
    that is not an integer of 32 bits is written as nine bytes, [0xdf]
    and the 64 bits of the double, high byte first, and every double is
    read back from its 64 bits: a fraction, an integer beyond 32 bits, an
    infinity, [NaN]. *)
Theorem double_is_read_from_its_bits (host : Host) (fuel : nat) (n : number)
        (rest : list Z) :
  is_double n ->
  (exists bytes,
     pack (S fuel) (VNumber n) = Ok bytes /\
     unpack host (bytes ++ rest) =
     Ok (VNumber (match norm n with NegZero => Int 0 | m => m end), None)) /\
  (negb (isNaN n) && strict_eq n (Int (ToInt32 n)) = false ->
   exists w8,
     pack (S fuel) (VNumber n) = Ok (0xdf :: w8) /\
     List.length w8 = 8%nat /\
     be_value w8 = bits_of_float (to_float n) /\
     float_of_bits (be_value w8) = to_float n) /\
  (forall f, float_of_bits (bits_of_float f) = f).
Proof.
  intros Hn.
  assert (Hv : be_value (BufferStream.be_bytes 8 (bits_of_float (to_float n)))
               = bits_of_float (to_float n)).
  { rewrite be_value_be_bytes.
    apply Z.mod_small. change (256 ^ Z.of_nat 8) with (2^64).
    apply bits_of_float_range. }
  assert (Hdouble :
            unpack host ((0xdf :: BufferStream.be_bytes 8
                                    (bits_of_float (to_float n))) ++ rest) =
            Ok (VNumber (norm n), None)).
  { apply (Parser_unpack_reads host (new_Parser host [])
             (default_decoders_settled host) 1 _ rest).
    cbn [app]. rewrite _unpack_double by apply length_be_bytes.
    rewrite Hv, float_of_bits_of_float, number_of_to_float by exact Hn.
    reflexivity. }
  split; [| split; [| exact float_of_bits_of_float]].
  - exists (number_bytes n). split.
    { rewrite pack_number, _packNumber_writes. reflexivity. }
    unfold number_bytes. cbv zeta.
    destruct (norm n) as [z | | f] eqn:En.
    + destruct ((- 2^31 <=? z) && (z <? 2^31)) eqn:Hr; [| exact Hdouble].
      destruct (reads_integer host (new_Parser host []) z ltac:(lia) rest false)
        as [k Hk].
      apply (Parser_unpack_reads host (new_Parser host [])
               (default_decoders_settled host) k _ rest). exact Hk.
    + apply (Parser_unpack_reads host (new_Parser host [])
               (default_decoders_settled host) 2 _ rest).
      rewrite _unpack_framed by lia. reflexivity.
    + exact Hdouble.
  - intros Hfloat.
    exists (BufferStream.be_bytes 8 (bits_of_float (to_float n))).
    split; [| split; [apply length_be_bytes | split; [exact Hv |]]].
    + rewrite pack_number. unfold BufferStream.empty.
      rewrite _packNumber_float by exact Hfloat. reflexivity.
    + rewrite Hv. apply float_of_bits_of_float.
Qed.

Lemma double_is_read_from_its_bits_witness :
  pack 1 (VNumber (Frac 1.5%float)) =
    Ok [0xdf; 0x3f; 0xf8; 0x00; 0x00; 0x00; 0x00; 0x00; 0x00] /\
  unpack plain_host ([0xdf; 0x3f; 0xf8; 0x00; 0x00; 0x00; 0x00; 0x00; 0x00] ++ [0xff])
    = Ok (VNumber (Frac 1.5%float), None) /\
  unpack plain_host ([0xdf; 0x41; 0xe0; 0x00; 0x00; 0x00; 0x00; 0x00; 0x00] ++ [])
    = Ok (VNumber (Int 2147483648), None) /\
  unpack plain_host ([0x00] ++ []) = Ok (VNumber (Int 0), None).
Proof.
  destruct (double_is_read_from_its_bits plain_host 0 (Frac 1.5%float) [0xff] I)
    as [(b1 & Hp1 & Hu1) _].
  destruct (double_is_read_from_its_bits plain_host 0 (Int 2147483648) []
              ltac:(split; [reflexivity | vm_compute; reflexivity]))
    as [(b2 & Hp2 & Hu2) _].
  destruct (double_is_read_from_its_bits plain_host 0 NegZero [] I)
    as [(b3 & Hp3 & Hu3) _].
  assert (E1 : b1 = [0xdf; 0x3f; 0xf8; 0x00; 0x00; 0x00; 0x00; 0x00; 0x00]).
  { vm_compute in Hp1. injection Hp1 as <-. reflexivity. }
  assert (E2 : b2 = [0xdf; 0x41; 0xe0; 0x00; 0x00; 0x00; 0x00; 0x00; 0x00]).
  { vm_compute in Hp2. injection Hp2 as <-. reflexivity. }
  assert (E3 : b3 = [0x00]).
  { vm_compute in Hp3. injection Hp3 as <-. reflexivity. }
  subst b1 b2 b3.
  split; [exact Hp1 |]. split; [exact Hu1 |]. split; [exact Hu2 | exact Hu3].
Defined.
